(** * coingecko-selector: metrics, ranking and cross-category selection

    A shallow embedding of [coingecko-selector.py] and the properties its
    specification states about it.

    - A Python float, and an entry of a float64 column of a pandas
      DataFrame, is an IEEE 754 binary64 value: the standard library's
      [spec_float] with precision 53 and maximal exponent 1024, with the
      operations of [SpecFloat].  A Python int is an integer of any size.
    - The JSON documents of the API are Python values; a function that can
      raise returns in the error monad [res].
    - Functions that talk to the API or to the dashboard run in [io]: a
      state monad over an oracle for the network, with a trace of events.
    - [DataFrame.sort_values] is known by its contract, the class [Sorter],
      and [str.lower] by what it does to ASCII strings, the class
      [Lowercase]. *)

From Stdlib Require Import ZArith List Bool Sorting.Permutation Sorting.Sorted.
From Stdlib Require Import Floats.SpecFloat.
From stdpp Require Import base gmap sets list sorting strings pretty.

Open Scope string_scope.
Open Scope list_scope.
Open Scope Z_scope.

(** ** Binary64 arithmetic *)

Module F64.

Definition prec : Z := 53.
Definition emax : Z := 1024.

Definition float := spec_float.

Definition zero : float := S754_zero false.
Definition nan : float := S754_nan.
Definition of_Z (z : Z) : float := binary_normalize prec emax z 0 false.
Definition of_nat (n : nat) : float := of_Z (Z.of_nat n).

Definition add : float -> float -> float := SFadd prec emax.
Definition sub : float -> float -> float := SFsub prec emax.
Definition div : float -> float -> float := SFdiv prec emax.

(** [x < y] and [x > y]; both are false when either side is NaN. *)
Definition ltb (x y : float) : bool := SFltb x y.
Definition gtb (x y : float) : bool := SFltb y x.
Definition leb (x y : float) : bool := SFleb x y.
Definition eqb (x y : float) : bool := SFeqb x y.

Definition is_nan (x : float) : bool :=
  match x with S754_nan => true | _ => false end.

Definition is_zero (x : float) : bool :=
  match x with S754_zero _ => true | _ => false end.

Definition is_infinity (x : float) : bool :=
  match x with S754_infinity _ => true | _ => false end.

(** The integer [z] as it is, not rounded to 53 bits.  [div] rounds the
    quotient of two such operands once, to the nearest binary64 value. *)
Definition exact (z : Z) : float :=
  match z with
  | Z0 => S754_zero false
  | Zpos p => S754_finite false p 0
  | Zneg p => S754_finite true p 0
  end.

End F64.

Abbreviation float := F64.float.

(** ** Python values and exceptions

    The JSON documents the API returns, as Python reads them.  A JSON number
    without fraction or exponent is an [int], any other one a [float].  A
    JSON object is a [dict]; it is kept as an association list, in document
    order, since iterating a dict yields its keys in that order. *)

Inductive pyval :=
  | PNone
  | PBool (b : bool)
  | PInt (z : Z)
  | PNum (x : float)
  | PStr (s : string)
  | PList (l : list pyval)
  | PDict (d : list (string * pyval)).

Inductive exn :=
  | KeyError (k : string)
  | TypeError
  | AttributeError
  | ZeroDivisionError
  | OverflowError
  | JSONDecodeError.

(** A computation that returns a value or raises. *)
Inductive res (A : Type) :=
  | Ok (a : A)
  | Raise (e : exn).
Arguments Ok {A} a.
Arguments Raise {A} e.

#[global] Instance res_ret : MRet res := fun _ a => Ok a.
#[global] Instance res_bind : MBind res := fun _ _ f m =>
  match m with
  | Ok a => f a
  | Raise e => Raise e
  end.

Fixpoint assoc (k : string) (d : list (string * pyval)) : option pyval :=
  match d with
  | [] => None
  | (k', v) :: d' => if String.eqb k k' then Some v else assoc k d'
  end.

(** [bool(v)]: what [if v:] and [v or d] test. *)
Definition truthy (v : pyval) : bool :=
  match v with
  | PNone => false
  | PBool b => b
  | PInt z => negb (z =? 0)
  | PNum x => negb (F64.is_zero x)
  | PStr s => negb (String.eqb s "")
  | PList l => match l with [] => false | _ => true end
  | PDict d => match d with [] => false | _ => true end
  end.

(** [v[k]] for a string key. *)
Definition getitem (v : pyval) (k : string) : res pyval :=
  match v with
  | PDict d =>
      match assoc k d with
      | Some x => Ok x
      | None => Raise (KeyError k)
      end
  | _ => Raise TypeError
  end.

(** [v.get(k, default)]; only a dict has the method. *)
Definition dict_get (v : pyval) (k : string) (default : pyval) : res pyval :=
  match v with
  | PDict d =>
      match assoc k d with
      | Some x => Ok x
      | None => Ok default
      end
  | _ => Raise AttributeError
  end.

(** A number: an [int] or a [float]. *)
Inductive number :=
  | NInt (z : Z)
  | NFloat (x : float).

(** The number an operand is; [True] and [False] are the ints 1 and 0. *)
Definition num_of (v : pyval) : option number :=
  match v with
  | PInt z => Some (NInt z)
  | PBool b => Some (NInt (if b then 1 else 0))
  | PNum x => Some (NFloat x)
  | _ => None
  end.

(** [x > 0] and [x <= 0]; an int is compared as it is. *)
Definition gt0 (x : number) : bool :=
  match x with
  | NInt z => 0 <? z
  | NFloat f => F64.gtb f F64.zero
  end.


(** [v > 0] *)
Definition py_gt0 (v : pyval) : res bool :=
  match num_of v with
  | Some x => Ok (gt0 x)
  | None => Raise TypeError
  end.

(** The float a division takes an operand at when the other operand is a
    float: an int is rounded to the nearest float, and one too large for
    that raises. *)
Definition to_float (x : number) : res float :=
  match x with
  | NFloat f => Ok f
  | NInt z =>
      if F64.is_infinity (F64.of_Z z) then Raise OverflowError
      else Ok (F64.of_Z z)
  end.

(** The value of [x / y] when the division returns: the quotient of two
    ints is rounded once, from the exact quotient. *)
Definition quotient (x y : number) : float :=
  match x, y with
  | NInt a, NInt b => F64.div (F64.exact a) (F64.exact b)
  | NInt a, NFloat g => F64.div (F64.of_Z a) g
  | NFloat f, NInt b => F64.div f (F64.of_Z b)
  | NFloat f, NFloat g => F64.div f g
  end.

(** [x / y] on numbers.  Two ints: a zero divisor raises, and so does a
    quotient too large for a float.  Otherwise both operands are taken as
    floats (first [x], then [y]), a zero divisor raises, and the quotient
    is the IEEE one, which may be an infinity or NaN. *)
Definition truediv (x y : number) : res float :=
  match x, y with
  | NInt a, NInt b =>
      if b =? 0 then Raise ZeroDivisionError
      else if F64.is_infinity (quotient x y) then Raise OverflowError
      else Ok (quotient x y)
  | _, _ =>
      f ← to_float x;
      g ← to_float y;
      if F64.is_zero g then Raise ZeroDivisionError else Ok (quotient x y)
  end.

(** [a / b]: true division. *)
Definition py_truediv (a b : pyval) : res float :=
  match num_of a, num_of b with
  | Some x, Some y => truediv x y
  | _, _ => Raise TypeError
  end.

Definition pyval_is_str (s : string) (v : pyval) : bool :=
  match v with PStr s' => String.eqb s s' | _ => false end.

Fixpoint is_substring (s t : string) : bool :=
  String.prefix s t ||
  match t with
  | EmptyString => false
  | String _ t' => is_substring s t'
  end.

(** [k in v] for a string [k]. *)
Definition py_in (k : string) (v : pyval) : res bool :=
  match v with
  | PDict d => Ok (match assoc k d with Some _ => true | None => false end)
  | PList l => Ok (existsb (pyval_is_str k) l)
  | PStr s => Ok (is_substring k s)
  | _ => Raise TypeError
  end.

(** The elements a [for] loop over [v] visits.  A [str] yields its
    characters, one byte each here; the program subscripts what it gets
    from a loop, which raises on any [str], so that nothing depends on how
    a character outside ASCII is cut. *)
Definition py_iter (v : pyval) : res (list pyval) :=
  match v with
  | PList l => Ok l
  | PDict d => Ok (map (fun kv => PStr (fst kv)) d)
  | PStr s => Ok (map (fun c => PStr (String c EmptyString)) (String.list_ascii_of_string s))
  | _ => Raise TypeError
  end.

(** A [str] is kept as the bytes of its UTF-8 encoding; a string of ASCII
    characters has no byte above 127. *)
Definition is_ascii (s : string) : bool :=
  forallb (fun c => Nat.ltb (Ascii.nat_of_ascii c) 128)
          (String.list_ascii_of_string s).

Definition lower_ascii (c : Ascii.ascii) : Ascii.ascii :=
  let n := Ascii.nat_of_ascii c in
  if (Nat.leb 65 n && Nat.leb n 90)%bool then Ascii.ascii_of_nat (n + 32) else c.

(** The letters A to Z in lower case, every other byte as it is. *)
Fixpoint ascii_lower (s : string) : string :=
  match s with
  | EmptyString => EmptyString
  | String c s' => String (lower_ascii c) (ascii_lower s')
  end.

(** [str.lower()] follows the case mappings of Unicode, which are data of
    the interpreter and not of the program (they send the Kelvin sign to
    k, for one).  The method is known here by what it does to a string of
    ASCII characters; what it does to any other string is left open. *)
Class Lowercase := {
  lower : string -> string;
  lower_of_ascii : forall s, is_ascii s = true -> lower s = ascii_lower s
}.

Section Lower.
Context `{L : Lowercase}.

(** [v.lower()]; only a [str] has the method. *)
Definition py_lower (v : pyval) : res string :=
  match v with
  | PStr s => Ok (lower s)
  | _ => Raise AttributeError
  end.

End Lower.

Fixpoint mapM {A B} (f : A -> res B) (l : list A) : res (list B) :=
  match l with
  | [] => Ok []
  | x :: l' => y ← f x; ys ← mapM f l'; mret (y :: ys)
  end.

(** ** MetricEngine: per-token metrics *)

(** The dict [calculate_metrics] returns: one row of the DataFrame that
    [rank_tokens] builds.  The four ratios are floats, or the int 0 of an
    [else] branch, which a numeric column holds as 0.0. *)
Record metrics := {
  token : pyval;
  pvr : float;
  rvol : float;
  momentum : float;
  vsi : float
}.

Definition calculate_metrics (token global_data : pyval) : res metrics :=
  (* pvr = total_volume / current_price if current_price > 0 else 0 *)
  cp ← getitem token "current_price";
  c ← py_gt0 cp;
  pvr ← (if c : bool
         then tv ← getitem token "total_volume";
              cp' ← getitem token "current_price";
              py_truediv tv cp'
         else mret F64.zero);
  (* token.get('price_change_percentage_7d_in_currency') or 0 *)
  g ← dict_get token "price_change_percentage_7d_in_currency" PNone;
  let price_change_percentage_7d := if truthy g then g else PInt 0 in
  (* rvol = total_volume / market_cap if market_cap > 0 else 0 *)
  mc ← getitem token "market_cap";
  c ← py_gt0 mc;
  rvol ← (if c : bool
          then tv ← getitem token "total_volume";
               mc' ← getitem token "market_cap";
               py_truediv tv mc'
          else mret F64.zero);
  momentum ← py_truediv price_change_percentage_7d (PInt 100);
  (* global_volume = global_data['total_volume']['usd'] *)
  gtv ← getitem global_data "total_volume";
  global_volume ← getitem gtv "usd";
  c ← py_gt0 global_volume;
  vsi ← (if c : bool
         then tv ← getitem token "total_volume";
              py_truediv tv global_volume
         else mret F64.zero);
  name ← getitem token "name";
  mret {| token := name; pvr := pvr; rvol := rvol;
          momentum := momentum; vsi := vsi |}.

(** [x if x > 0 else 1] for the field [k] of a token. *)
Definition positive_or_one (token : pyval) (k : string) : res pyval :=
  x ← getitem token k;
  c ← py_gt0 x;
  if c : bool then getitem token k else mret (PInt 1).

(** Returns [(potential_gains, price_change_7d, mc_vol_ratio)]. *)
Definition calculate_additional_metrics (token : pyval)
  : res (float * pyval * float) :=
  current_price ← positive_or_one token "current_price";
  ath_price ← positive_or_one token "ath";
  total_volume ← positive_or_one token "total_volume";
  market_cap ← positive_or_one token "market_cap";
  potential_gains ← py_truediv ath_price current_price;
  price_change_7d ←
    dict_get token "price_change_percentage_7d_in_currency" (PInt 0);
  mc_vol_ratio ← py_truediv market_cap total_volume;
  mret (potential_gains, price_change_7d, mc_vol_ratio).

(** ** RankingEngine *)

(** [DataFrame.sort_values] is called with its default algorithm
    ([kind='quicksort']).  pandas promises for it a reordering of the rows
    that is sorted by the key; it does not promise which of the rows with
    equal keys comes first.  [le x y] reads: [x] may come before [y]. *)
Class Sorter := {
  sort_by : forall {A : Type}, (A -> A -> bool) -> list A -> list A;
  sort_by_perm : forall {A : Type} (le : A -> A -> bool) (l : list A),
    Permutation (sort_by le l) l;
  sort_by_sorted : forall {A : Type} (le : A -> A -> bool) (l : list A),
    (forall x y, le x y = true \/ le y x = true) ->
    (forall x y z, le x y = true -> le y z = true -> le x z = true) ->
    StronglySorted (fun x y => le x y = true) (sort_by le l)
}.

(** A sorter that, in addition, keeps rows with equal keys in the order
    they had ([kind='stable']). *)
Class StableSorter (S : Sorter) := {
  sort_by_stable : forall {A : Type} (le : A -> A -> bool) (l : list A) (x : A),
    (forall x y z, le x y = true -> le y z = true -> le x z = true) ->
    List.filter (fun y => le x y && le y x) (sort_by le l)
    = List.filter (fun y => le x y && le y x) l
}.

(** A row of the frame once [rank_tokens] has added its columns. *)
Record scored := {
  row : metrics;
  pvrd : float;
  pvr_score : Z;
  rvol_score : Z;
  momentum_score : Z;
  pvrd_score : Z;
  vsi_score : Z;
  final_score : Z
}.

(** [Series.mean()] adds the column with numpy's sum of a contiguous
    float64 array.  (This is pandas' own code path; the optional bottleneck
    package, when installed, replaces it and is not modelled.)  numpy groups
    the additions, by pairwise summation:
    - fewer than 8 values are added in order;
    - up to 128 values are added in eight running sums: the first eight
      values start them, and as long as eight values are left each of them
      is added to its running sum; the eight sums are then added by pairs,
      and the values left over are added to the result in order;
    - more values are cut in two parts, the first of n/2 values rounded
      down to a multiple of 8; each part is summed by the same rule and the
      two sums are added.

    numpy starts a sum from -0.0, which changes no value.  (Its older
    versions start from 0.0, which turns a sum of negative zeros into 0.0
    and changes nothing else.) *)
Record lanes := Lanes {
  r0 : float; r1 : float; r2 : float; r3 : float;
  r4 : float; r5 : float; r6 : float; r7 : float
}.

Fixpoint add_by_eights (r : lanes) (xs : list float) : lanes * list float :=
  match xs with
  | a0 :: a1 :: a2 :: a3 :: a4 :: a5 :: a6 :: a7 :: xs' =>
      add_by_eights
        (Lanes (F64.add (r0 r) a0) (F64.add (r1 r) a1)
               (F64.add (r2 r) a2) (F64.add (r3 r) a3)
               (F64.add (r4 r) a4) (F64.add (r5 r) a5)
               (F64.add (r6 r) a6) (F64.add (r7 r) a7))
        xs'
  | _ => (r, xs)
  end.

(** The sum of at most 128 values. *)
Definition sum_block (xs : list float) : float :=
  match xs with
  | a0 :: a1 :: a2 :: a3 :: a4 :: a5 :: a6 :: a7 :: xs' =>
      let '(r, rest) := add_by_eights (Lanes a0 a1 a2 a3 a4 a5 a6 a7) xs' in
      fold_left F64.add rest
        (F64.add (F64.add (F64.add (r0 r) (r1 r)) (F64.add (r2 r) (r3 r)))
                 (F64.add (F64.add (r4 r) (r5 r)) (F64.add (r6 r) (r7 r))))
  | x :: xs' => fold_left F64.add xs' x
  | [] => F64.zero
  end.

(** [fuel] bounds the depth of the cutting; the length of the column is
    more than enough. *)
Fixpoint pairwise_sum (fuel : nat) (xs : list float) : float :=
  match fuel with
  | O => sum_block xs
  | S fuel' =>
      let n := length xs in
      if Nat.leb n 128 then sum_block xs
      else
        let n2 := (n / 2 - (n / 2) mod 8)%nat in
        F64.add (pairwise_sum fuel' (take n2 xs))
                (pairwise_sum fuel' (drop n2 xs))
  end.

Definition sum (xs : list float) : float := pairwise_sum (length xs) xs.

(** [Series.mean()], which skips NaN: the sum of the column with each NaN
    replaced by 0, over the number of entries that are not NaN. *)
Definition mean (xs : list float) : float :=
  let count := length (List.filter (fun x => negb (F64.is_nan x)) xs) in
  let the_sum := sum (map (fun x => if F64.is_nan x then F64.zero else x) xs) in
  if Nat.ltb 0 count then F64.div the_sum (F64.of_nat count) else F64.nan.

(** The new columns of one row, given the means of the batch. *)
Definition score_row (pvr_mean rvol_mean momentum_mean vsi_mean : float)
    (m : metrics) : scored :=
  let pvrd := F64.div (F64.sub (pvr m) pvr_mean) pvr_mean in
  let pvr_score := if F64.ltb (pvr m) pvr_mean then 1 else -1 in
  let rvol_score := if F64.gtb (rvol m) rvol_mean then 1 else -1 in
  let momentum_score := if F64.ltb (momentum m) momentum_mean then 1 else -1 in
  let pvrd_score := if F64.ltb pvrd F64.zero then 1 else -1 in
  let vsi_score := if F64.gtb (vsi m) vsi_mean then 1 else -1 in
  {| row := m; pvrd := pvrd;
     pvr_score := pvr_score; rvol_score := rvol_score;
     momentum_score := momentum_score; pvrd_score := pvrd_score;
     vsi_score := vsi_score;
     final_score :=
       pvr_score + rvol_score + momentum_score + pvrd_score + vsi_score |}.

(** The frame with all its columns, before it is sorted. *)
Definition score_frame (df : list metrics) : list scored :=
  map (score_row (mean (map pvr df)) (mean (map rvol df))
                 (mean (map momentum df)) (mean (map vsi df))) df.

(** [by='final_score', ascending=False] *)
Definition by_final_score_desc (a b : scored) : bool :=
  final_score b <=? final_score a.

Section Ranking.
Context `{S : Sorter}.

(** An empty list of dicts makes a frame without columns, and [df['pvr']]
    raises [KeyError]. *)
Definition rank_tokens (tokens_metrics : list metrics) : res (list scored) :=
  match tokens_metrics with
  | [] => Raise (KeyError "pvr")
  | _ => Ok (take 30 (sort_by by_final_score_desc (score_frame tokens_metrics)))
  end.

End Ranking.

(** ** The outside world

    The program talks to the API through [requests.get], sleeps, prints, and
    hands text, frames and figures to the dashboard.  The API is an oracle
    that answers the n-th request with a response (a request that fails
    without one is not modelled); everything the program does to the world
    is appended to a trace. *)

Record request := {
  url : string;
  params : option (list (string * pyval))
}.

(** [body] is what [response.json()] returns; [None] when the body is not
    JSON and the call raises. *)
Record response := {
  status_code : Z;
  body : option pyval
}.

(** A row of [additional_df]. *)
Record additional := {
  Token : pyval;
  Potential_Gains : float;
  Price_Change_7d : pyval;
  MC_Volume_Ratio : float
}.

Inductive shown :=
  | Text (s : string)
  | Ranked (df : list scored)
  | Additional (df : list additional)
  | Names (names : gset string).

Inductive event :=
  | RequestsGet (r : request)
  | TimeSleep (secs : Z)
  | PrintLine (line : string)
  | PrintVal (line : string) (v : pyval)
  | StWrite (x : shown)
  | StPyplot (title : string) (labels : list pyval)
  (* entry into [calculate_metrics], [rank_tokens] or
     [calculate_additional_metrics] *)
  | Call (fn : string).

Definition network := nat -> request -> response.

Record world := {
  requests_made : nat;
  trace : list event
}.

Definition io (A : Type) : Type := network -> world -> res A * world.

#[global] Instance io_ret : MRet io := fun _ a _ w => (Ok a, w).
#[global] Instance io_bind : MBind io := fun _ _ f m net w =>
  match m net w with
  | (Ok a, w') => f a net w'
  | (Raise e, w') => (Raise e, w')
  end.

Definition lift {A} (r : res A) : io A := fun _ w => (r, w).

Definition emit (e : event) : io unit := fun _ w =>
  (Ok tt, {| requests_made := requests_made w; trace := trace w ++ [e] |}).

Definition requests_get (url : string) (params : option (list (string * pyval)))
  : io response := fun net w =>
  let r := {| url := url; params := params |} in
  (Ok (net (requests_made w) r),
   {| requests_made := S (requests_made w);
      trace := trace w ++ [RequestsGet r] |}).

Definition response_json (r : response) : io pyval :=
  lift (match body r with Some v => Ok v | None => Raise JSONDecodeError end).

Fixpoint io_mapM {A B} (f : A -> io B) (l : list A) : io (list B) :=
  match l with
  | [] => mret []
  | x :: l' => y ← f x; ys ← io_mapM f l'; mret (y :: ys)
  end.

(** ** MarketDataSource *)

Definition fetch_with_rate_limit (url : string)
    (params : option (list (string * pyval))) : io pyval :=
  response ← requests_get url params;
  response ←
    (if status_code response =? 429
     then _ ← emit (PrintLine "Rate limit exceeded, sleeping for 60 seconds...");
          _ ← emit (TimeSleep 60);
          requests_get url params
     else mret response);
  if status_code response =? 200
  then response_json response
  else _ ← emit (PrintLine ("Error fetching data: " +:+ pretty (status_code response)));
       mret PNone.

Definition global_url : string := "https://api.coingecko.com/api/v3/global".
Definition markets_url : string := "https://api.coingecko.com/api/v3/coins/markets".

Definition get_global_data : io pyval :=
  global_data ← fetch_with_rate_limit global_url None;
  c ← (if truthy global_data
       then lift (py_in "data" global_data)
       else mret false);
  if c : bool
  then lift (getitem global_data "data")
  else _ ← emit (PrintVal "Unexpected response structure for global data:"
                          global_data);
       mret PNone.

Definition stablecoins : list string := [
  "usdt"; "usdc"; "dai"; "busd"; "ust"; "first digital usd";
  "lido staked ether"; "weth"; "l2 standard bridged weth (base)";
  "arbitrum bridged weth (arbitrum one)"; "arbitrum bridged wbtc (arbitrum one)";
  "coinbase wrapped btc"; "kelp dao restaked eth"; "ethereumpow";
  "ether.fi staked eth"; "wrapped steth"; "swell ethereum"; "jupiter staked sol";
  "bitcoin avalanche bridged (btc.b)"; "lombard staked btc";
  "bridged usdc (polygon pos bridge)";
  "usual usd"; "usdd"; "paypal usd"; "trueusd"; "usdb"; "marinade staked sol";
  "wrapped bitcoin";
  "solv protocol solvbtc"; "binance staked sol"; "solayer staked sol"; "cwbtc";
  "polygon bridged wbtc (polygon pos)";
  "ether.fi staked btc"; "tbtc"; "usdx.money usdx"; "binance-peg dogecoin"
].

Definition in_stablecoins (s : string) : bool :=
  existsb (String.eqb s) stablecoins.

Section TokenPages.
Context `{L : Lowercase}.

(** The condition of the list comprehension; [and] does not evaluate its
    right side when the left one is false. *)
Definition not_stablecoin (token : pyval) : res bool :=
  sym ← getitem token "symbol";
  s ← py_lower sym;
  if in_stablecoins s then mret false
  else nm ← getitem token "name";
       n ← py_lower nm;
       mret (negb (in_stablecoins n)).

Fixpoint filterM {A} (p : A -> res bool) (l : list A) : res (list A) :=
  match l with
  | [] => Ok []
  | x :: l' =>
      b ← p x; r ← filterM p l';
      mret (if b : bool then x :: r else r)
  end.

Definition get_top_tokens (page : Z) : io pyval :=
  let params := [
    ("vs_currency", PStr "usd");
    ("order", PStr "market_cap_desc");
    ("per_page", PInt 1000);
    ("page", PInt page);
    ("sparkline", PBool false);
    ("price_change_percentage", PStr "7d,30d")
  ] in
  tokens ← fetch_with_rate_limit markets_url (Some params);
  if truthy tokens
  then l ← lift (py_iter tokens);
       kept ← lift (filterM not_stablecoin l);
       mret (PList kept)
  else mret tokens.

End TokenPages.

(** ** CategoryIntersectionAnalyzer *)

Section Categories.
(** The names in the four top-30 lists: Potential Gains, 7-Day Price Change,
    MC/Volume Ratio, Final Score. *)
Variables gains change mc_vol final : gset string.

Definition tokens_in_all_four : gset string :=
  gains ∩ change ∩ mc_vol ∩ final.

Definition tokens_in_three : gset string :=
  ((gains ∩ change ∩ mc_vol)
   ∪ (gains ∩ change ∩ final)
   ∪ (change ∩ mc_vol ∩ final)
   ∪ (gains ∩ mc_vol ∩ final)) ∖ tokens_in_all_four.

Definition tokens_in_two : gset string :=
  ((gains ∩ change)
   ∪ (gains ∩ mc_vol)
   ∪ (gains ∩ final)
   ∪ (change ∩ mc_vol)
   ∪ (change ∩ final)
   ∪ (mc_vol ∩ final)) ∖ tokens_in_all_four ∖ tokens_in_three.

End Categories.

(** [set(column)] of a column of names.  The names are strings:
    [get_top_tokens] has called [.lower()] on each of them. *)
Fixpoint name_set (names : list pyval) : res (gset string) :=
  match names with
  | [] => Ok ∅
  | PStr s :: names' => X ← name_set names'; mret ({[ s ]} ∪ X)
  | _ :: _ => Raise TypeError
  end.

(** The key a numeric column is sorted by: [None] becomes NaN, a float is
    the key itself, and an int is taken at the nearest float (rounding
    keeps the order of the ints, so a column sorted by its ints is sorted
    by these keys). *)
Definition float64_of (v : pyval) : res float :=
  match v with
  | PNone => Ok F64.nan
  | _ =>
      match num_of v with
      | Some (NFloat x) => Ok x
      | Some (NInt z) => Ok (F64.of_Z z)
      | None => Raise TypeError
      end
  end.

(** Orders of [sort_values] on a float64 key; NaN goes last either way. *)
Definition descending {A} (key : A -> float) (a b : A) : bool :=
  if F64.is_nan (key b) then true
  else if F64.is_nan (key a) then false
  else F64.leb (key b) (key a).

Definition ascending {A} (key : A -> float) (a b : A) : bool :=
  if F64.is_nan (key b) then true
  else if F64.is_nan (key a) then false
  else F64.leb (key a) (key b).

Section Dashboard.
Context `{S : Sorter} `{L : Lowercase}.

Definition visualize_rankings (ranked_tokens : list scored) : io unit :=
  _ ← emit (StWrite (Text "### Visualization of Top 30 Ranked Tokens"));
  let ranked_tokens_sorted := sort_by by_final_score_desc ranked_tokens in
  emit (StPyplot "Top 30 Tokens by Final Score"
                 (map (fun r => token (row r)) ranked_tokens_sorted)).

(** Writes the set under its two lines of heading when it is not empty, and
    the other message when it is. *)
Definition report (names : gset string) (heading note empty : string) : io unit :=
  if bool_decide (names = ∅)
  then emit (StWrite (Text empty))
  else _ ← emit (StWrite (Text heading));
       _ ← emit (StWrite (Text note));
       emit (StWrite (Names names)).

Definition visualize_additional_metrics (df : list additional)
    (ranked_tokens : list scored) : io unit :=
  let df_sorted := take 30 (sort_by (descending Potential_Gains) df) in
  _ ← emit (StWrite (Text "### Top 30 Tokens by Potential Gains from Current Price to ATH"));
  _ ← emit (StPyplot "Top 30 Tokens by Potential Gains (x) from Current Price to ATH"
                     (map Token df_sorted));
  keyed ← lift (mapM (fun r => k ← float64_of (Price_Change_7d r); mret (r, k)) df);
  let df_sorted_7d := map fst (take 30 (sort_by (descending snd) keyed)) in
  _ ← emit (StWrite (Text "### Top 30 Tokens by 7-Day Price Change"));
  _ ← emit (StPyplot "Top 30 Tokens by 7-Day Price Change" (map Token df_sorted_7d));
  let df_sorted_mc_vol := take 30 (sort_by (ascending MC_Volume_Ratio) df) in
  _ ← emit (StWrite (Text "### Top 30 Tokens by Market Cap to Volume Ratio (Lower is Better)"));
  _ ← emit (StPyplot "Top 30 Tokens by Market Cap to Volume Ratio (Lower is Better)"
                     (map Token df_sorted_mc_vol));
  let df_sorted_final_score :=
    take 30 (sort_by by_final_score_desc ranked_tokens) in
  gains ← lift (name_set (map Token df_sorted));
  change ← lift (name_set (map Token df_sorted_7d));
  mc_vol ← lift (name_set (map Token df_sorted_mc_vol));
  final ← lift (name_set (map (fun r => token (row r)) df_sorted_final_score));
  let all_four := tokens_in_all_four gains change mc_vol final in
  _ ← report all_four
        "### Final Selection Consideration: Tokens Appearing in All Four Categories"
        "These tokens appear in the top 30 of Potential Gains, Price Change, MC/Vol Ratio, and Final Score."
        "No tokens appeared in all four categories.";
  let three := tokens_in_three gains change mc_vol final in
  _ ← report three
        "### Tokens Appearing in Three of the Four Categories"
        "These tokens appear in the top 30 of any three of the four categories."
        "No tokens appeared in three categories.";
  let two := tokens_in_two gains change mc_vol final in
  report two
    "### Tokens Appearing in Two of the Four Categories"
    "These tokens appear in the top 30 of any two of the four categories."
    "No tokens appeared in two categories.".

(** ** TierOrchestrator *)

(** One turn of the loop that fills [additional_metrics]. *)
Definition additional_row (token : pyval) : io additional :=
  _ ← emit (Call "calculate_additional_metrics");
  '(potential_gains, price_change_7d, mc_vol_ratio) ←
    lift (calculate_additional_metrics token);
  name ← lift (getitem token "name");
  mret {| Token := name; Potential_Gains := potential_gains;
          Price_Change_7d := price_change_7d;
          MC_Volume_Ratio := mc_vol_ratio |}.

Definition rank_tier (tier_number : Z) : io unit :=
  _ ← emit (StWrite (Text ("### Ranking Tier " +:+ pretty tier_number
                           +:+ " (Tokens " +:+ pretty (tier_number * 1000 - 999)
                           +:+ " to " +:+ pretty (tier_number * 1000) +:+ ")")));
  global_data ← get_global_data;
  if truthy global_data
  then
    top_tokens ← get_top_tokens tier_number;
    if truthy top_tokens
    then
      tokens ← lift (py_iter top_tokens);
      tokens_metrics ←
        io_mapM (fun token => _ ← emit (Call "calculate_metrics");
                              lift (calculate_metrics token global_data)) tokens;
      _ ← emit (Call "rank_tokens");
      ranked_tokens ← lift (rank_tokens tokens_metrics);
      _ ← emit (StWrite (Text ("### Top 30 Ranked Tokens for Tier "
                               +:+ pretty tier_number +:+ " by Final Score")));
      _ ← emit (StWrite (Ranked ranked_tokens));
      _ ← visualize_rankings ranked_tokens;
      additional_df ← io_mapM additional_row tokens;
      _ ← emit (StWrite (Text ("### Tokens with Additional Metrics for Tier "
                               +:+ pretty tier_number)));
      _ ← emit (StWrite (Additional additional_df));
      visualize_additional_metrics additional_df ranked_tokens
    else emit (StWrite (Text ("Failed to fetch token data for Tier "
                              +:+ pretty tier_number +:+ ".")))
  else emit (StWrite (Text "Failed to fetch global market data.")).

(** [if top_tokens: all_tokens.extend(top_tokens)] *)
Definition extend_if (all_tokens : list pyval) (top_tokens : pyval)
  : io (list pyval) :=
  if truthy top_tokens
  then l ← lift (py_iter top_tokens); mret (all_tokens ++ l)
  else mret all_tokens.

Definition rank_all_tiers : io unit :=
  _ ← emit (StWrite (Text
        "### Ranking Top 3000 Tokens (Combining Tier 1, Tier 2, and Tier 3)"));
  global_data ← get_global_data;
  if truthy global_data
  then
    let all_tokens := [] in
    top_tokens_1 ← get_top_tokens 1;
    all_tokens ← extend_if all_tokens top_tokens_1;
    top_tokens_2 ← get_top_tokens 2;
    all_tokens ← extend_if all_tokens top_tokens_2;
    top_tokens_3 ← get_top_tokens 3;
    all_tokens ← extend_if all_tokens top_tokens_3;
    if truthy (PList all_tokens)
    then
      tokens_metrics ←
        io_mapM (fun token => _ ← emit (Call "calculate_metrics");
                              lift (calculate_metrics token global_data))
                all_tokens;
      _ ← emit (Call "rank_tokens");
      ranked_tokens ← lift (rank_tokens tokens_metrics);
      _ ← emit (StWrite (Text
            "### Top 30 Ranked Tokens from 3000 Tokens by Final Score"));
      _ ← emit (StWrite (Ranked ranked_tokens));
      additional_df ← io_mapM additional_row all_tokens;
      _ ← emit (StWrite (Text "### Additional Metrics for Top 3000 Tokens"));
      _ ← emit (StWrite (Additional additional_df));
      visualize_additional_metrics additional_df ranked_tokens
    else emit (StWrite (Text
           "Failed to fetch token data from one or more tiers."))
  else emit (StWrite (Text "Failed to fetch global market data.")).

End Dashboard.

(** ** Two sorting algorithms that meet the contract of [sort_values]

    Insertion sort, which is stable, and the same sort run on the reversed
    frame, which is not: it returns rows with equal keys in reverse order. *)

Fixpoint insert_by {A} (le : A -> A -> bool) (x : A) (l : list A) : list A :=
  match l with
  | [] => [x]
  | y :: l' => if le x y then x :: l else y :: insert_by le x l'
  end.

Definition insertion_sort {A} (le : A -> A -> bool) (l : list A) : list A :=
  foldr (insert_by le) [] l.

Definition reversing_sort {A} (le : A -> A -> bool) (l : list A) : list A :=
  insertion_sort le (rev l).

(** ** The sort behind [sort_values] when numpy runs its portable kernel

    [sort_values(by=..., ascending=False)] with the default
    [kind='quicksort'] reverses the key column, has numpy argsort it in
    ascending order, and reverses the result.  numpy's portable quicksort
    kernel ([aquicksort], the one that runs where no vectorised kernel is
    picked for the CPU) sorts an array of positions: a range of more than 17
    positions is partitioned around the median of its first, middle and
    last key and its two parts are sorted in turn, the smaller one first;
    a range of at most 17 positions is sorted by insertion.  ([less x y]
    reads: the key of [x] is below the key of [y].) *)

Section Quicksort.
Context {A : Type} (less : A -> A -> bool) (v : list A).


(** [tosort[i]] *)
Definition entry (tosort : list nat) (i : nat) : nat := default 0%nat (tosort !! i).










End Quicksort.





(** ** What the specification says of a scored row *)

Definition plus_or_minus_one (z : Z) : Prop := z = 1 \/ z = -1.

(** Five components of +1 or -1 and their sum. *)
Definition well_scored (r : scored) : Prop :=
  plus_or_minus_one (pvr_score r) /\ plus_or_minus_one (rvol_score r) /\
  plus_or_minus_one (momentum_score r) /\ plus_or_minus_one (pvrd_score r) /\
  plus_or_minus_one (vsi_score r) /\
  final_score r
  = pvr_score r + rvol_score r + momentum_score r + pvrd_score r + vsi_score r.

(** The scoring table: each component is +1 exactly when its strict
    comparison holds, and -1 exactly when it does not. *)
Definition scored_by_table (batch : list metrics) (r : scored) : Prop :=
  let m := row r in
  (pvr_score r = 1 <-> F64.ltb (pvr m) (mean (map pvr batch)) = true) /\
  (pvr_score r = -1 <-> F64.ltb (pvr m) (mean (map pvr batch)) = false) /\
  (rvol_score r = 1 <-> F64.gtb (rvol m) (mean (map rvol batch)) = true) /\
  (rvol_score r = -1 <-> F64.gtb (rvol m) (mean (map rvol batch)) = false) /\
  (momentum_score r = 1
   <-> F64.ltb (momentum m) (mean (map momentum batch)) = true) /\
  (momentum_score r = -1
   <-> F64.ltb (momentum m) (mean (map momentum batch)) = false) /\
  (pvrd_score r = 1 <-> F64.ltb (pvrd r) F64.zero = true) /\
  (pvrd_score r = -1 <-> F64.ltb (pvrd r) F64.zero = false) /\
  (vsi_score r = 1 <-> F64.gtb (vsi m) (mean (map vsi batch)) = true) /\
  (vsi_score r = -1 <-> F64.gtb (vsi m) (mean (map vsi batch)) = false) /\
  pvrd r = F64.div (F64.sub (pvr m) (mean (map pvr batch))) (mean (map pvr batch)).


(** Above zero: a positive number or plus infinity. *)
Definition is_positive (x : float) : bool :=
  match x with
  | S754_finite false _ _ | S754_infinity false => true
  | _ => false
  end.

(** [x if x > 0 else 1] on numbers. *)
Definition or_one (x : number) : number :=
  if gt0 x then x else NInt 1.

(** A number that is a float. *)
Definition is_float (x : number) : bool :=
  match x with NFloat _ => true | NInt _ => false end.

(** A float, or an int below 2^1023 in magnitude: neither its conversion to
    a float nor its quotient by an int other than 0 overflows. *)
Definition in_float_range (x : number) : bool :=
  match x with
  | NFloat _ => true
  | NInt z => Z.abs z <? 2 ^ 1023
  end.

(** [r] returns a value for which [P] holds, or raises [OverflowError]. *)
Definition returns_or_overflows {A} (r : res A) (P : A -> Prop) : Prop :=
  match r with
  | Ok a => P a
  | Raise e => e = OverflowError
  end.

(** A token field that holds a number. *)
Definition field_num (token : pyval) (k : string) (x : number) : Prop :=
  exists v, getitem token k = Ok v /\ num_of v = Some x.

(** The events of a trace that were added after [w]. *)
Definition events_since (w w' : world) : list event :=
  drop (length (trace w)) (trace w').

(** No token page is asked for and no function of the metric or ranking
    engines is entered. *)
Definition no_token_work (e : event) : Prop :=
  match e with
  | Call _ => False
  | RequestsGet r => url r = global_url
  | _ => True
  end.

(** The two lines [fetch_with_rate_limit] prints. *)
Definition rate_limit_line : string :=
  "Rate limit exceeded, sleeping for 60 seconds...".

Definition error_line (r : response) : string :=
  "Error fetching data: " +:+ pretty (status_code r).

Definition fresh (n : nat) : world := {| requests_made := n; trace := [] |}.

(** [m] only appends to the trace, only events for which [P] holds, and
    what it does depends on the number of requests made, not on the trace. *)
Definition appends_only (P : event -> Prop) {A} (m : io A) : Prop :=
  forall (net : network) (w : world),
    let run := m net (fresh (requests_made w)) in
    Forall P (trace (snd run)) /\
    m net w = (fst run, {| requests_made := requests_made (snd run);
                           trace := trace w ++ trace (snd run) |}).

(** ** Further notions, for the functions around the claims *)

(** The request [get_top_tokens] sends for a page. *)
Definition markets_request (page : Z) : request :=
  {| url := markets_url;
     params := Some [
       ("vs_currency", PStr "usd");
       ("order", PStr "market_cap_desc");
       ("per_page", PInt 1000);
       ("page", PInt page);
       ("sparkline", PBool false);
       ("price_change_percentage", PStr "7d,30d")
     ] |}.

Definition global_request : request := {| url := global_url; params := None |}.

(** The response that decides a fetch begun as the [n]-th request: the
    second one after a first 429, else the first. *)
Definition final_response (net : network) (n : nat) (req : request) : response :=
  if status_code (net n req) =? 429 then net (S n) req else net n req.

Section Denylist.
Context `{L : Lowercase}.

(** A token whose symbol or name, in lower case, is on the list. *)
Definition denylisted (t : pyval) : Prop :=
  exists s,
    (getitem t "symbol" = Ok (PStr s) \/ getitem t "name" = Ok (PStr s)) /\
    In (lower s) stablecoins.

(** A token the filter can read: its symbol is a string, and so is its name
    unless the symbol is on the list already. *)
Definition readable_token (t : pyval) : Prop :=
  exists sym,
    getitem t "symbol" = Ok (PStr sym) /\
    (In (lower sym) stablecoins \/ exists nm, getitem t "name" = Ok (PStr nm)).

End Denylist.

(** Two strings that differ at most in the case of the letters A to Z. *)
Definition same_up_to_ascii_case (s t : string) : Prop :=
  ascii_lower s = ascii_lower t.

(** An event other than the entry into a function of the metric or
    ranking engines. *)
Definition not_a_call (e : event) : Prop :=
  match e with
  | Call _ => False
  | _ => True
  end.

Definition is_call (fn : string) (e : event) : bool :=
  match e with
  | Call f => String.eqb f fn
  | _ => false
  end.

(** How many times [fn] was entered. *)
Definition calls (fn : string) (events : list event) : nat :=
  length (List.filter (is_call fn) events).

Definition final_score_chart : string := "Top 30 Tokens by Final Score".

Definition no_pooled_tokens_line : string :=
  "Failed to fetch token data from one or more tiers.".

(** An event that is neither the entry into a function of the engines, nor
    the bar chart of final scores, nor the line about the failed fetch of
    the pooled tiers. *)
Definition quiet_event (e : event) : Prop :=
  match e with
  | Call _ => False
  | StPyplot title _ => title <> final_score_chart
  | StWrite (Text s) => s <> no_pooled_tokens_line
  | _ => True
  end.

Definition no_chart (e : event) : Prop :=
  match e with
  | StPyplot title _ => title <> final_score_chart
  | _ => True
  end.

Definition no_line (e : event) : Prop :=
  match e with
  | StWrite (Text s) => s <> no_pooled_tokens_line
  | _ => True
  end.

(** In how many of the four lists a name is. *)
Definition memberships (x : string) (gains change mc_vol final : gset string)
  : nat :=
  ((if bool_decide (x ∈ gains) then 1 else 0)
   + (if bool_decide (x ∈ change) then 1 else 0)
   + (if bool_decide (x ∈ mc_vol) then 1 else 0)
   + (if bool_decide (x ∈ final) then 1 else 0))%nat.

(** An event of a fetch: a request, a sleep or a line on the console. *)
Definition fetch_event (e : event) : Prop :=
  match e with
  | RequestsGet _ | TimeSleep _ | PrintLine _ | PrintVal _ _ => True
  | _ => False
  end.

(** The requests a run sent and the seconds it slept. *)
Definition is_request (e : event) : bool :=
  match e with RequestsGet _ => true | _ => false end.

Definition requests_sent (events : list event) : nat :=
  length (List.filter is_request events).

Definition seconds_slept (events : list event) : Z :=
  foldr (fun e s => match e with TimeSleep secs => secs + s | _ => s end)
        0 events.

(** [m] only appends to the trace, at most [r] requests and [s] seconds of
    sleep. *)
Definition spends (r : nat) (s : Z) {A} (m : io A) : Prop :=
  forall (net : network) (w : world),
    exists d, trace (snd (m net w)) = trace w ++ d /\
              (requests_sent d <= r)%nat /\ seconds_slept d <= s.

(** ** Concrete data used below *)

Definition metrics_of (name : string) (pvr rvol momentum vsi : Z) : metrics :=
  {| token := PStr name; pvr := F64.of_Z pvr; rvol := F64.of_Z rvol;
     momentum := F64.of_Z momentum; vsi := F64.of_Z vsi |}.

Definition price_change_key : string := "price_change_percentage_7d_in_currency".

Definition sample_token (current_price total_volume market_cap ath : Z)
    (price_change : list (string * pyval)) : pyval :=
  PDict ([("name", PStr "Sample"); ("symbol", PStr "smp");
          ("current_price", PNum (F64.of_Z current_price));
          ("total_volume", PNum (F64.of_Z total_volume));
          ("market_cap", PNum (F64.of_Z market_cap));
          ("ath", PNum (F64.of_Z ath))] ++ price_change).

Definition sample_global (volume : Z) : pyval :=
  PDict [("total_volume", PDict [("usd", PNum (F64.of_Z volume))])].

(** A token of the markets listing, with the fields the program reads. *)
Definition listed_token (name symbol : string)
    (current_price total_volume market_cap ath : Z) : pyval :=
  PDict [("name", PStr name); ("symbol", PStr symbol);
         ("current_price", PNum (F64.of_Z current_price));
         ("total_volume", PNum (F64.of_Z total_volume));
         ("market_cap", PNum (F64.of_Z market_cap));
         ("ath", PNum (F64.of_Z ath))].

(** A token as the API lists it when it has no price. *)
Definition unpriced_token (name symbol : string) : pyval :=
  PDict [("name", PStr name); ("symbol", PStr symbol);
         ("current_price", PNone);
         ("total_volume", PNum (F64.of_Z 5));
         ("market_cap", PNum (F64.of_Z 9));
         ("ath", PNone)].

Definition ok_response (v : pyval) : response :=
  {| status_code := 200; body := Some v |}.

(** An API that answers the global request with a total volume of 100 and
    every request for a page with the same list of tokens. *)
Definition sample_network (page : list pyval) : network := fun _ r =>
  if String.eqb (url r) global_url
  then ok_response (PDict [("data", sample_global 100)])
  else ok_response (PList page).

(** An API whose third answer (to the request for page 2, when the two
    requests before it succeeded) is a server error. *)
Definition partial_network (page : list pyval) : network := fun n _ =>
  match n with
  | 0%nat => ok_response (PDict [("data", sample_global 100)])
  | 2%nat => {| status_code := 500; body := None |}
  | _ => ok_response (PList page)
  end.

Definition always (r : response) : network := fun _ _ => r.

(** The lower case of ASCII letters, with every other byte left as it is:
    one mapping that does to ASCII strings what [str.lower] does. *)
Definition ascii_lowercase : Lowercase :=
  {| lower := ascii_lower; lower_of_ascii := fun s _ => eq_refl |}.

Definition world0 : world := {| requests_made := 0; trace := [] |}.

(** * Properties *)

(** ** Comparisons of binary64 values *)

Lemma eqb_not_ltb (x y : float) : F64.eqb x y = true -> F64.ltb x y = false.
Proof.
  unfold F64.eqb, F64.ltb, SFeqb, SFltb.
  destruct (SFcompare x y) as [[ | | ] | ]; congruence.
Qed.

Lemma eqb_sym (x y : float) : F64.eqb x y = true -> F64.eqb y x = true.
Proof.
  unfold F64.eqb, SFeqb.
  destruct x as [s | s | | s m e], y as [s' | s' | | s' m' e']; simpl;
    try destruct s; try destruct s'; try congruence.
  - destruct (e ?= e') eqn:He; try discriminate.
    apply Z.compare_eq in He; subst e'. rewrite Z.compare_refl.
    destruct (Pos.compare_cont Eq m m') eqn:Hm; try discriminate.
    apply Pos.compare_eq in Hm; subst m'. now rewrite Pos.compare_cont_refl.
  - destruct (e ?= e') eqn:He; try discriminate.
    apply Z.compare_eq in He; subst e'. rewrite Z.compare_refl.
    destruct (Pos.compare_cont Eq m m') eqn:Hm; try discriminate.
    apply Pos.compare_eq in Hm; subst m'. now rewrite Pos.compare_cont_refl.
Qed.


Lemma gtb_zero_not_is_zero (x : float) :
  F64.gtb x F64.zero = true -> F64.is_zero x = false.
Proof.
  unfold F64.gtb, SFltb, F64.zero.
  destruct x as [s | s | | s m e]; try destruct s; simpl; congruence.
Qed.

(** ** The float of a positive count *)

Lemma digits2_pos_size (p : positive) : digits2_pos p = Pos.size p.
Proof. induction p; simpl; congruence. Qed.

Lemma size_bounds (p : positive) :
  2 ^ (Zpos (Pos.size p) - 1) <= Zpos p < 2 ^ Zpos (Pos.size p).
Proof.
  pose proof (Pos.size_gt p) as Hgt. pose proof (Pos.size_le p) as Hle.
  apply Pos2Z.pos_lt_pos in Hgt. apply Pos2Z.pos_le_pos in Hle.
  rewrite Pos2Z.inj_pow in Hgt, Hle. 
  replace (Zpos (Pos.size p)) with (Z.succ (Zpos (Pos.size p) - 1)) in Hle at 1 by lia.
  rewrite Z.pow_succ_r in Hle by lia. lia.
Qed.

Lemma shr_1_div2 (r : shr_record) :
  0 <= shr_m r -> shr_m (shr_1 r) = shr_m r / 2.
Proof.
  destruct r as [m b s]. cbn [shr_m]. intros Hm.
  destruct m as [| p | p]; [reflexivity | | lia].
  rewrite <- Z.div2_div. destruct p; reflexivity.
Qed.

Lemma iter_shr_1_div (k : positive) (r : shr_record) :
  0 <= shr_m r -> shr_m (SpecFloat.iter_pos shr_1 k r) = shr_m r / 2 ^ Zpos k.
Proof.
  revert r. induction k as [k IH | k IH |]; intros r Hr; cbn [SpecFloat.iter_pos].
  - assert (H1 : 0 <= shr_m (shr_1 r)).
    { rewrite shr_1_div2 by exact Hr. apply Z.div_pos; lia. }
    assert (H2 : 0 <= shr_m (SpecFloat.iter_pos shr_1 k (shr_1 r))).
    { rewrite IH by exact H1. apply Z.div_pos; [exact H1 | lia]. }
    rewrite IH by exact H2. rewrite IH by exact H1. rewrite shr_1_div2 by exact Hr.
    rewrite !Z.div_div by lia. f_equal.
    rewrite (Pos2Z.inj_xI k).
    replace (2 * Z.pos k + 1) with (1 + Z.pos k + Z.pos k) by lia.
    rewrite !Z.pow_add_r by lia. change (2 ^ 1) with 2. ring.
  - assert (H2 : 0 <= shr_m (SpecFloat.iter_pos shr_1 k r)).
    { rewrite IH by exact Hr. apply Z.div_pos; [exact Hr | lia]. }
    rewrite IH by exact H2. rewrite IH by exact Hr.
    rewrite Z.div_div by lia. f_equal.
    rewrite (Pos2Z.inj_xO k).
    replace (2 * Z.pos k) with (Z.pos k + Z.pos k) by lia.
    rewrite Z.pow_add_r by lia. reflexivity.
  - rewrite shr_1_div2 by exact Hr. reflexivity.
Qed.

Lemma shr_fexp_positive (m : positive) (e : Z) (l : location) :
  emin F64.prec F64.emax <= e ->
  0 < shr_m (fst (shr_fexp F64.prec F64.emax (Zpos m) e l)) /\
  e <= snd (shr_fexp F64.prec F64.emax (Zpos m) e l).
Proof.
  intros He. unfold shr_fexp, shr, Zdigits2.
  rewrite digits2_pos_size.
  pose proof (size_bounds m) as [Hlo _].
  assert (Hm : shr_m (shr_record_of_loc (Zpos m) l) = Zpos m)
    by (destruct l as [| []]; reflexivity).
  destruct (fexp F64.prec F64.emax (Zpos (Pos.size m) + e) - e) as [| k | k] eqn:Hk;
    cbn [fst snd]; rewrite ?Hm; try (split; lia).
  rewrite iter_shr_1_div by (rewrite Hm; lia). rewrite Hm.
  split; [| lia].
  apply Z.div_str_pos. split; [apply Z.pow_pos_nonneg; lia |].
  transitivity (2 ^ (Zpos (Pos.size m) - 1)); [| exact Hlo].
  apply Z.pow_le_mono_r; [lia |].
  unfold fexp, emin, F64.prec, F64.emax in Hk, He. lia.
Qed.

Lemma round_nearest_even_ge (q : Z) (l : location) :
  q <= round_nearest_even q l.
Proof.
  unfold round_nearest_even. destruct l as [| []]; try lia.
  destruct (Z.even q); lia.
Qed.

Lemma binary_round_aux_positive (m : positive) (e : Z) (l : location) :
  emin F64.prec F64.emax <= e ->
  is_positive (binary_round_aux F64.prec F64.emax false (Zpos m) e l) = true.
Proof.
  intros He. unfold binary_round_aux.
  destruct (shr_fexp_positive m e l He) as [H1 He1].
  destruct (shr_fexp F64.prec F64.emax (Zpos m) e l) as [mrs' e'].
  cbn [fst snd] in H1, He1.
  pose proof (round_nearest_even_ge (shr_m mrs') (loc_of_shr_record mrs')) as Hr.
  destruct (round_nearest_even (shr_m mrs') (loc_of_shr_record mrs'))
    as [| m1 | m1]; try lia.
  destruct (shr_fexp_positive m1 e' loc_Exact ltac:(lia)) as [H2 _].
  destruct (shr_fexp F64.prec F64.emax (Zpos m1) e' loc_Exact) as [mrs'' e''].
  cbn [fst] in H2.
  destruct (shr_m mrs'') as [| m2 | m2]; try lia.
  destruct (e'' <=? F64.emax - F64.prec); reflexivity.
Qed.

Lemma of_Z_positive (z : Z) : 0 < z -> is_positive (F64.of_Z z) = true.
Proof.
  intros Hz. unfold F64.of_Z, binary_normalize.
  destruct z as [| p | p]; try lia.
  unfold binary_round, shl_align.
  set (target := fexp F64.prec F64.emax (Zpos (digits2_pos p) + 0)).
  assert (Ht : emin F64.prec F64.emax <= target)
    by (unfold target, fexp; lia).
  destruct (target - 0) as [| d | d];
    apply binary_round_aux_positive; try exact Ht;
    unfold emin, F64.prec, F64.emax; lia.
Qed.

Lemma of_nat_positive (n : nat) :
  (0 < n)%nat -> is_positive (F64.of_nat n) = true.
Proof. intros Hn. unfold F64.of_nat. apply of_Z_positive. lia. Qed.

Lemma is_positive_not_zero (x : float) :
  is_positive x = true -> F64.is_zero x = false.
Proof. now destruct x as [| | | []]. Qed.

(** ** Conversions and quotients that do not overflow *)

Lemma digits_upper (m : Z) : 0 <= m -> m < 2 ^ Zdigits2 m.
Proof.
  intros Hm. destruct m as [| p | p]; [reflexivity | | lia].
  cbn [Zdigits2]. rewrite digits2_pos_size. apply size_bounds.
Qed.

Lemma digits_le (m k : Z) : 0 <= m < 2 ^ k -> 0 <= k -> Zdigits2 m <= k.
Proof.
  intros [Hm Hk] Hk0. destruct m as [| p | p]; [exact Hk0 | | lia].
  cbn [Zdigits2]. rewrite digits2_pos_size.
  pose proof (size_bounds p) as [Hlo _].
  destruct (Z_le_gt_dec (Zpos (Pos.size p)) k) as [| Hgt]; [assumption |].
  assert (2 ^ k <= 2 ^ (Zpos (Pos.size p) - 1)) by (apply Z.pow_le_mono_r; lia).
  lia.
Qed.

Lemma round_nearest_even_le (q : Z) (l : location) :
  round_nearest_even q l <= q + 1.
Proof.
  unfold round_nearest_even. destruct l as [| []]; try lia.
  destruct (Z.even q); lia.
Qed.

Lemma shr_m_of_loc (m : Z) (l : location) : shr_m (shr_record_of_loc m l) = m.
Proof. destruct l as [| []]; reflexivity. Qed.

(** The first shift of a rounding leaves at most 53 bits, at an exponent
    that is the one given or the one of the format. *)
Lemma shr_fexp_bounds (m e : Z) (l : location) :
  0 <= m ->
  0 <= shr_m (fst (shr_fexp F64.prec F64.emax m e l)) < 2 ^ 53 /\
  snd (shr_fexp F64.prec F64.emax m e l) = Z.max e (fexp F64.prec F64.emax (Zdigits2 m + e)).
Proof.
  intros Hm. unfold shr_fexp, shr.
  pose proof (digits_upper m Hm) as Hup.
  assert (Hd : 0 <= Zdigits2 m) by (destruct m; cbn; lia).
  destruct (fexp F64.prec F64.emax (Zdigits2 m + e) - e) as [| k | k] eqn:Hk;
    cbn [fst snd]; rewrite ?iter_shr_1_div by (rewrite shr_m_of_loc; lia);
    rewrite shr_m_of_loc.
  - split; [| lia]. split; [lia |].
    eapply Z.lt_le_trans; [exact Hup |].
    apply Z.pow_le_mono_r; [lia |]. unfold fexp, F64.prec in Hk. lia.
  - split; [| lia]. split; [apply Z.div_pos; lia |].
    apply Z.div_lt_upper_bound; [lia |].
    rewrite <- Z.pow_add_r by lia.
    eapply Z.lt_le_trans; [exact Hup |].
    apply Z.pow_le_mono_r; [lia |]. unfold fexp, F64.prec in Hk. lia.
  - split; [| lia]. split; [lia |].
    eapply Z.lt_le_trans; [exact Hup |].
    apply Z.pow_le_mono_r; [lia |]. unfold fexp, F64.prec in Hk. lia.
Qed.

(** A rounding does not overflow when the value is below 2^1023. *)
Lemma binary_round_aux_finite (s : bool) (m e : Z) (l : location) :
  0 <= m -> e <= 970 -> Zdigits2 m + e <= 1023 ->
  F64.is_infinity (binary_round_aux F64.prec F64.emax s m e l) = false.
Proof.
  intros Hm He Hd. unfold binary_round_aux.
  destruct (shr_fexp_bounds m e l Hm) as [[H0 H1] He1].
  destruct (shr_fexp F64.prec F64.emax m e l) as [mrs' e'].
  cbn [fst snd] in H0, H1, He1.
  pose proof (round_nearest_even_ge (shr_m mrs') (loc_of_shr_record mrs')) as Hge.
  pose proof (round_nearest_even_le (shr_m mrs') (loc_of_shr_record mrs')) as Hle.
  set (m2 := round_nearest_even (shr_m mrs') (loc_of_shr_record mrs')) in *.
  assert (Hm2 : 0 <= m2) by lia.
  destruct (shr_fexp_bounds m2 e' loc_Exact Hm2) as [_ He2].
  assert (Hd2 : Zdigits2 m2 <= 54).
  { apply digits_le; [| lia]. split; [lia |].
    change (2 ^ 54) with (2 * 2 ^ 53). lia. }
  destruct (shr_fexp F64.prec F64.emax m2 e' loc_Exact) as [mrs'' e''].
  cbn [snd] in He2.
  destruct (shr_m mrs'') as [| p | p]; try reflexivity.
  assert (Hfin : e'' <= F64.emax - F64.prec).
  { subst e'' e'. unfold fexp, emin, F64.emax, F64.prec in *. lia. }
  apply Z.leb_le in Hfin. now rewrite Hfin.
Qed.

Lemma iter_xO (k m : positive) : Zpos (Pos.iter xO m k) = Zpos m * 2 ^ Zpos k.
Proof.
  induction k as [| k IH] using Pos.peano_ind.
  - cbn [Pos.iter]. lia.
  - rewrite Pos.iter_succ, Pos2Z.inj_xO, IH, Pos2Z.inj_succ, Z.pow_succ_r by lia.
    ring.
Qed.

Lemma of_Z_finite (z : Z) :
  Z.abs z < 2 ^ 1023 -> F64.is_infinity (F64.of_Z z) = false.
Proof.
  intros Hz. unfold F64.of_Z, binary_normalize.
  assert (Hround : forall s p, Zpos p < 2 ^ 1023 ->
            F64.is_infinity (binary_round F64.prec F64.emax s p 0) = false).
  { intros s p Hp. unfold binary_round, shl_align.
    assert (Hsize : Zpos (digits2_pos p) <= 1023).
    { apply (digits_le (Zpos p)); lia. }
    pose proof (digits_upper (Zpos p) ltac:(lia)) as Hup. cbn [Zdigits2] in Hup.
    destruct (fexp F64.prec F64.emax (Zpos (digits2_pos p) + 0) - 0) as [| k | k] eqn:Hk;
      apply binary_round_aux_finite; try lia; cbn [Zdigits2]; try lia.
    unfold fexp, emin, F64.emax, F64.prec in Hk |- *.
    assert (Zdigits2 (Zpos (Pos.iter xO p k)) <= Zpos (digits2_pos p) + Zpos k).
    { apply digits_le; [| lia]. rewrite iter_xO. split; [lia |].
      rewrite Z.pow_add_r by lia.
      apply Z.mul_lt_mono_pos_r; [apply Z.pow_pos_nonneg; lia | exact Hup]. }
    cbn [Zdigits2] in H. lia. }
  destruct z as [| p | p]; [reflexivity | |]; apply Hround; lia.
Qed.

Lemma exact_quotient_finite (a b : Z) :
  Z.abs a < 2 ^ 1023 -> b <> 0 ->
  F64.is_infinity (F64.div (F64.exact a) (F64.exact b)) = false.
Proof.
  intros Ha Hb.
  assert (Hcore : forall s pa pb, Zpos pa < 2 ^ 1023 ->
            F64.is_infinity
              (let '(mz, ez, lz) := SFdiv_core_binary F64.prec F64.emax (Zpos pa) 0 (Zpos pb) 0 in
               binary_round_aux F64.prec F64.emax s mz ez lz) = false).
  { intros s pa pb Hpa. unfold SFdiv_core_binary.
    set (e' := Z.min (fexp F64.prec F64.emax (Zdigits2 (Zpos pa) + 0 - (Zdigits2 (Zpos pb) + 0))) (0 - 0)).
    set (m' := match 0 - 0 - e' with
               | Z0 => Zpos pa | Zpos _ => Z.shiftl (Zpos pa) (0 - 0 - e') | Zneg _ => 0 end).
    assert (He' : e' <= 0) by (unfold e'; lia).
    assert (Hm' : m' = Zpos pa * 2 ^ (- e')).
    { unfold m'. destruct (0 - 0 - e') as [| k | k] eqn:Hk; try lia.
      - replace (- e') with 0 by lia. cbn. lia.
      - rewrite Z.shiftl_mul_pow2 by lia. f_equal. f_equal. lia. }
    pose proof (Z_div_mod m' (Zpos pb) ltac:(lia)) as Hdm.
    destruct (Z.div_eucl m' (Zpos pb)) as [q r]. destruct Hdm as [Hq Hr].
    assert (Hpow : 0 < 2 ^ (- e')) by (apply Z.pow_pos_nonneg; lia).
    assert (Hq0 : 0 <= q) by nia.
    assert (Hqm : q <= m') by nia.
    pose proof (digits_upper (Zpos pa) ltac:(lia)) as Hup.
    assert (Hda : Zdigits2 (Zpos pa) <= 1023) by (apply digits_le; lia).
    assert (Hdq : Zdigits2 q <= Zdigits2 (Zpos pa) + (- e')).
    { apply digits_le; [| cbn [Zdigits2]; lia]. split; [lia |].
      rewrite Z.pow_add_r by (cbn [Zdigits2]; lia).
      eapply Z.le_lt_trans; [exact Hqm |]. rewrite Hm'.
      apply Z.mul_lt_mono_pos_r; [exact Hpow | exact Hup]. }
    apply binary_round_aux_finite; lia. }
  destruct a as [| pa | pa], b as [| pb | pb]; try lia; try reflexivity;
    cbn [F64.exact]; unfold F64.div, SFdiv; apply Hcore; lia.
Qed.

(** ** Numbers *)


Lemma or_one_gt0 (x : number) : gt0 (or_one x) = true.
Proof. unfold or_one. now destruct (gt0 x) eqn:H. Qed.


Lemma to_float_inv (x : number) (f : float) :
  to_float x = Ok f ->
  (x = NFloat f \/ exists z, x = NInt z /\ f = F64.of_Z z).
Proof.
  destruct x as [z | g]; cbn.
  - destruct (F64.is_infinity (F64.of_Z z)); [discriminate |].
    intros [= <-]. eauto.
  - intros [= <-]. now left.
Qed.

Lemma to_float_raises (x : number) (e : exn) :
  to_float x = Raise e -> e = OverflowError.
Proof.
  destruct x as [z | g]; cbn; [| discriminate].
  destruct (F64.is_infinity (F64.of_Z z)); [| discriminate]. now intros [= <-].
Qed.

(** The float a positive number is taken at is not zero. *)
Lemma to_float_gt0 (x : number) (f : float) :
  gt0 x = true -> to_float x = Ok f -> F64.is_zero f = false.
Proof.
  intros Hgt Hf. apply to_float_inv in Hf as [-> | (z & -> & ->)]; cbn in Hgt.
  - now apply gtb_zero_not_is_zero.
  - apply is_positive_not_zero, of_Z_positive. now apply Z.ltb_lt.
Qed.

(** The division of two numbers that are not both ints. *)
Lemma truediv_mixed (x y : number) :
  is_float x || is_float y = true ->
  truediv x y
  = (f ← to_float x; g ← to_float y;
     if F64.is_zero g then Raise ZeroDivisionError else Ok (quotient x y)).
Proof. destruct x, y; try discriminate; reflexivity. Qed.

(** A division by a number above zero returns the quotient, unless the
    quotient, or an int operand, is too large for a float. *)
Lemma truediv_by_positive (x y : number) :
  gt0 y = true ->
  truediv x y = Ok (quotient x y) \/ truediv x y = Raise OverflowError.
Proof.
  intros Hy.
  destruct (is_float x || is_float y) eqn:Hmixed.
  - rewrite (truediv_mixed _ _ Hmixed).
    destruct (to_float x) as [f | e] eqn:Ex; cbn [mbind res_bind];
      [| right; f_equal; eapply to_float_raises; eauto].
    destruct (to_float y) as [g | e] eqn:Ey; cbn [mbind res_bind];
      [| right; f_equal; eapply to_float_raises; eauto].
    rewrite (to_float_gt0 _ _ Hy Ey). now left.
  - destruct x as [a |], y as [b |]; try discriminate Hmixed.
    unfold truediv. cbn in Hy. apply Z.ltb_lt in Hy.
    destruct (Z.eqb_spec b 0); [lia |].
    destruct (F64.is_infinity _); auto.
Qed.

(** What a division returns is the quotient. *)
Lemma truediv_returns (x y : number) (q : float) :
  truediv x y = Ok q -> q = quotient x y.
Proof.
  destruct (is_float x || is_float y) eqn:Hmixed.
  - rewrite (truediv_mixed _ _ Hmixed).
    destruct (to_float x); cbn [mbind res_bind]; [| discriminate].
    destruct (to_float y) as [g |]; cbn [mbind res_bind]; [| discriminate].
    destruct (F64.is_zero g); [discriminate |]. now intros [= <-].
  - destruct x as [a |], y as [b |]; try discriminate Hmixed.
    unfold truediv. destruct (b =? 0); [discriminate |].
    destruct (F64.is_infinity _); [discriminate |]. now intros [= <-].
Qed.

Lemma to_float_in_range (x : number) :
  in_float_range x = true -> exists f, to_float x = Ok f.
Proof.
  destruct x as [z | f]; [| eauto]. cbn [in_float_range to_float]. intros H.
  apply Z.ltb_lt in H. rewrite (of_Z_finite z H). eauto.
Qed.

(** A division of numbers in the range of floats, by one above zero,
    returns the quotient. *)
Lemma truediv_in_range (x y : number) :
  in_float_range x = true -> in_float_range y = true -> gt0 y = true ->
  truediv x y = Ok (quotient x y).
Proof.
  intros Hx Hy Hgt.
  destruct (is_float x || is_float y) eqn:Hmixed.
  - rewrite (truediv_mixed _ _ Hmixed).
    destruct (to_float_in_range x Hx) as [f ->].
    destruct (to_float_in_range y Hy) as [g Hg]. rewrite Hg.
    cbn [mbind res_bind]. now rewrite (to_float_gt0 _ _ Hgt Hg).
  - destruct x as [a |], y as [b |]; try discriminate Hmixed.
    cbn [in_float_range gt0] in Hx, Hgt. apply Z.ltb_lt in Hx, Hgt.
    unfold truediv. destruct (Z.eqb_spec b 0); [lia |].
    cbn [quotient]. now rewrite exact_quotient_finite.
Qed.

(** ** The two sorting algorithms meet the contract *)

Section InsertionSort.
Context {A : Type} (le : A -> A -> bool).

Lemma insert_by_perm (x : A) (l : list A) :
  Permutation (insert_by le x l) (x :: l).
Proof.
  induction l as [| y l IH]; simpl; [reflexivity |].
  destruct (le x y); [reflexivity |].
  rewrite IH. apply perm_swap.
Qed.

Lemma insertion_sort_perm (l : list A) : Permutation (insertion_sort le l) l.
Proof.
  induction l as [| x l IH]; simpl; [reflexivity |].
  rewrite insert_by_perm. now constructor.
Qed.

Hypothesis le_total : forall x y, le x y = true \/ le y x = true.
Hypothesis le_trans : forall x y z, le x y = true -> le y z = true -> le x z = true.

Lemma insert_by_sorted (x : A) (l : list A) :
  StronglySorted (fun a b => le a b = true) l ->
  StronglySorted (fun a b => le a b = true) (insert_by le x l).
Proof.
  induction 1 as [| y l Hl IH Hy]; simpl.
  - repeat constructor.
  - destruct (le x y) eqn:Hxy.
    + constructor; [now constructor |].
      constructor; [exact Hxy |].
      eapply Forall_impl; [exact Hy |]. intros z Hz. simpl in Hz. eauto.
    + constructor; [exact IH |].
      rewrite (insert_by_perm x l). constructor; [| exact Hy].
      destruct (le_total x y) as [H | H]; congruence.
Qed.

Lemma insertion_sort_sorted (l : list A) :
  StronglySorted (fun a b => le a b = true) (insertion_sort le l).
Proof.
  induction l as [| x l IH]; simpl; [constructor |].
  now apply insert_by_sorted.
Qed.

End InsertionSort.

Section Stability.
Context {A : Type} (le : A -> A -> bool).
Hypothesis le_trans : forall x y z, le x y = true -> le y z = true -> le x z = true.

Lemma insert_by_stable (z x : A) (l : list A) :
  List.filter (fun y => le z y && le y z) (insert_by le x l)
  = List.filter (fun y => le z y && le y z) (x :: l).
Proof.
  induction l as [| y l IH]; [reflexivity |].
  cbn [insert_by]. destruct (le x y) eqn:Hxy; [reflexivity |].
  cbn [List.filter] in *. rewrite IH.
  destruct (le z x && le x z) eqn:Hx; [| reflexivity].
  destruct (le z y && le y z) eqn:Hy; [| reflexivity].
  apply andb_true_iff in Hx as [_ Hxz]. apply andb_true_iff in Hy as [Hzy _].
  rewrite (le_trans _ _ _ Hxz Hzy) in Hxy. discriminate.
Qed.

Lemma insertion_sort_stable (z : A) (l : list A) :
  List.filter (fun y => le z y && le y z) (insertion_sort le l)
  = List.filter (fun y => le z y && le y z) l.
Proof.
  induction l as [| x l IH]; [reflexivity |].
  cbn [insertion_sort foldr]. fold (insertion_sort le l).
  rewrite insert_by_stable. cbn [List.filter]. now rewrite IH.
Qed.

End Stability.

#[export] Instance insertion_sorter : Sorter := {|
  sort_by := @insertion_sort;
  sort_by_perm := @insertion_sort_perm;
  sort_by_sorted := fun A le l Htotal Htrans =>
    insertion_sort_sorted le Htotal Htrans l
|}.

#[export] Instance insertion_sorter_stable : StableSorter insertion_sorter.
Proof.
  constructor. intros A le l x Htrans. now apply insertion_sort_stable.
Qed.

Lemma reversing_sort_perm {A} (le : A -> A -> bool) (l : list A) :
  Permutation (reversing_sort le l) l.
Proof.
  unfold reversing_sort. rewrite insertion_sort_perm.
  symmetry. apply Permutation_rev.
Qed.

Lemma reversing_sort_sorted {A} (le : A -> A -> bool) (l : list A) :
  (forall x y, le x y = true \/ le y x = true) ->
  (forall x y z, le x y = true -> le y z = true -> le x z = true) ->
  StronglySorted (fun a b => le a b = true) (reversing_sort le l).
Proof. intros. now apply insertion_sort_sorted. Qed.

Definition reversing_sorter : Sorter := {|
  sort_by := @reversing_sort;
  sort_by_perm := @reversing_sort_perm;
  sort_by_sorted := @reversing_sort_sorted
|}.

(** ** The sort with numpy's portable kernel meets the contract *)








(** ** CategoryIntersectionAnalyzer *)

(** C5: the three partitions computed from four sets of names are pairwise
    disjoint, and every name in one of them is a name of one of the four
    sets. *)
Theorem partitions_disjoint (gains change mc_vol final : gset string) :
  let all_four := tokens_in_all_four gains change mc_vol final in
  let three := tokens_in_three gains change mc_vol final in
  let two := tokens_in_two gains change mc_vol final in
  all_four ## three /\ all_four ## two /\ three ## two /\
  all_four ∪ three ∪ two ⊆ gains ∪ change ∪ mc_vol ∪ final.
Proof.
  unfold tokens_in_two, tokens_in_three, tokens_in_all_four.
  repeat split; set_solver.
Qed.

(** ** RankingEngine *)

Lemma score_row_well_scored (a b c d : float) (m : metrics) :
  well_scored (score_row a b c d m).
Proof.
  unfold well_scored, plus_or_minus_one, score_row; cbn.
  repeat split;
    match goal with
    | |- (if ?c then _ else _) = _ \/ _ => destruct c; auto
    | _ => idtac
    end.
Qed.

Lemma well_scored_odd (r : scored) :
  well_scored r ->
  In (final_score r) [-5; -3; -1; 1; 3; 5].
Proof.
  unfold well_scored, plus_or_minus_one.
  intros (H1 & H2 & H3 & H4 & H5 & ->). simpl.
  destruct H1 as [-> | ->], H2 as [-> | ->], H3 as [-> | ->],
    H4 as [-> | ->], H5 as [-> | ->]; cbn; tauto.
Qed.

Lemma score_frame_rows (batch : list metrics) (P : metrics -> scored -> Prop) :
  (forall a b c d m, In m batch -> a = mean (map pvr batch) -> b = mean (map rvol batch) ->
     c = mean (map momentum batch) -> d = mean (map vsi batch) ->
     P m (score_row a b c d m)) ->
  Forall2 P batch (score_frame batch).
Proof.
  unfold score_frame.
  generalize (mean (map pvr batch)) (mean (map rvol batch))
             (mean (map momentum batch)) (mean (map vsi batch)).
  intros a b c d H.
  assert (Hin : forall m, In m batch -> P m (score_row a b c d m)) by auto.
  clear H. induction batch as [| m l IH]; simpl; constructor.
  - apply Hin. now left.
  - apply IH. intros m' Hm'. apply Hin. now right.
Qed.

Section RankingFacts.
Context `{S : Sorter}.

Lemma by_final_score_desc_total (x y : scored) :
  by_final_score_desc x y = true \/ by_final_score_desc y x = true.
Proof. unfold by_final_score_desc. rewrite !Z.leb_le. lia. Qed.

Lemma by_final_score_desc_trans (x y z : scored) :
  by_final_score_desc x y = true -> by_final_score_desc y z = true ->
  by_final_score_desc x z = true.
Proof. unfold by_final_score_desc. rewrite !Z.leb_le. lia. Qed.

Lemma rank_tokens_ok (batch : list metrics) :
  batch <> [] ->
  rank_tokens batch
  = Ok (take 30 (sort_by by_final_score_desc (score_frame batch))).
Proof. destruct batch; [congruence | reflexivity]. Qed.

(** Every returned row is a row of the scored frame. *)
Lemma ranked_in_frame (batch : list metrics) (r : scored) :
  In r (take 30 (sort_by by_final_score_desc (score_frame batch))) ->
  In r (score_frame batch).
Proof.
  intros H. eapply Permutation_in; [apply sort_by_perm |].
  rewrite <- (firstn_skipn 30 (sort_by _ _)). apply in_or_app. left. exact H.
Qed.

End RankingFacts.

Lemma Forall2_Forall_l_r {A B} (P : A -> B -> Prop) (Q : A -> Prop)
    (R : B -> Prop) l k :
  Forall2 P l k -> Forall Q l -> (forall a b, P a b -> Q a -> R b) -> Forall R k.
Proof.
  intros H. induction H as [| a b l k Hab _ IH]; intros Hl HR; constructor.
  - apply (HR a b Hab). now apply Forall_cons in Hl as [Ha _].
  - apply IH; [| exact HR]. now apply Forall_cons in Hl as [_ Hl].
Qed.

Lemma Forall2_Forall_r {A B} (P : A -> B -> Prop) (Q : B -> Prop) l k :
  Forall2 P l k -> (forall a b, P a b -> Q b) -> Forall Q k.
Proof. induction 1; constructor; eauto. Qed.

(** C1: each token of a non-empty batch gets five component scores of +1 or
    -1 and their sum as final score, which therefore is one of -5, -3, -1,
    1, 3, 5: odd, not 0, within [-5, 5]; and so do the rows [rank_tokens]
    returns. *)
Theorem final_score_sum_of_five `{S : Sorter} (batch : list metrics) :
  batch <> [] ->
  Forall2 (fun m r => row r = m /\ well_scored r /\
                      In (final_score r) [-5; -3; -1; 1; 3; 5] /\
                      Z.odd (final_score r) = true /\ final_score r <> 0 /\
                      -5 <= final_score r <= 5)
          batch (score_frame batch) /\
  exists ranked,
    rank_tokens batch = Ok ranked /\
    Forall (fun r => well_scored r /\
                     In (final_score r) [-5; -3; -1; 1; 3; 5]) ranked.
Proof.
  intros Hne.
  assert (Hframe : Forall2 (fun m r => row r = m /\ well_scored r)
                     batch (score_frame batch)).
  { apply score_frame_rows. intros a b c d m _ _ _ _ _.
    split; [reflexivity | apply score_row_well_scored]. }
  split.
  - eapply Forall2_impl; [exact Hframe |].
    intros m r [Hrow Hws]. pose proof (well_scored_odd r Hws) as Hin.
    repeat split; try assumption; try apply Hws;
      simpl in Hin; intuition (subst; try reflexivity; try lia);
      match goal with H : _ = final_score r |- _ => rewrite <- H end;
      first [reflexivity | lia].
  - eexists. split; [now apply rank_tokens_ok |].
    apply List.Forall_forall. intros r Hr. apply ranked_in_frame in Hr.
    assert (Hall : Forall well_scored (score_frame batch)).
    { eapply Forall2_Forall_r; [exact Hframe |]. now intros a b [_ H]. }
    rewrite List.Forall_forall in Hall.
    split; [now apply Hall | apply well_scored_odd; now apply Hall].
Qed.

Lemma final_score_sum_of_five_witness :
  exists ranked,
    rank_tokens (S := insertion_sorter)
      [metrics_of "a" 10 1 2 3; metrics_of "b" 20 3 2 1] = Ok ranked /\
    Forall (fun r => well_scored r /\
                     In (final_score r) [-5; -3; -1; 1; 3; 5]) ranked.
Proof.
  apply (final_score_sum_of_five (S := insertion_sorter)
           [metrics_of "a" 10 1 2 3; metrics_of "b" 20 3 2 1]).
  discriminate.
Defined.

Lemma StronglySorted_weaken {A} (R R' : A -> A -> Prop) (l : list A) :
  (forall x y, R x y -> R' x y) -> StronglySorted R l -> StronglySorted R' l.
Proof.
  intros HR. induction 1 as [| x l Hl IH Hx]; constructor; [exact IH |].
  eapply Forall_impl; [exact Hx | auto].
Qed.

Section SortedFrame.
Context `{S : Sorter}.

Lemma sorted_frame_descending (frame : list scored) :
  StronglySorted (fun r r' => final_score r' <= final_score r)
                 (sort_by by_final_score_desc frame).
Proof.
  apply (StronglySorted_weaken (fun x y => by_final_score_desc x y = true)).
  - intros x y. unfold by_final_score_desc. now rewrite Z.leb_le.
  - apply sort_by_sorted.
    + apply by_final_score_desc_total.
    + apply by_final_score_desc_trans.
Qed.


End SortedFrame.

(** C2: on a batch of n > 0 tokens [rank_tokens] does not raise and returns
    min(30, n) rows, in descending order of final score; the returned rows
    and the rows left out make up the scored batch, and no row left out has
    a higher final score than a returned one. *)
Theorem rank_tokens_top_30 `{S : Sorter} (batch : list metrics) :
  batch <> [] ->
  exists ranked rest,
    rank_tokens batch = Ok ranked /\
    length ranked = Nat.min 30 (length batch) /\
    Permutation (ranked ++ rest) (score_frame batch) /\
    (forall r r', In r ranked -> In r' rest -> final_score r' <= final_score r) /\
    StronglySorted (fun r r' => final_score r' <= final_score r) ranked.
Proof.
  intros Hne.
  set (sorted := sort_by by_final_score_desc (score_frame batch)).
  exists (take 30 sorted), (drop 30 sorted).
  assert (Hperm : Permutation sorted (score_frame batch)) by apply sort_by_perm.
  assert (Hsorted : StronglySorted (fun r r' => final_score r' <= final_score r)
                      (take 30 sorted ++ drop 30 sorted)).
  { rewrite firstn_skipn. apply sorted_frame_descending. }
  apply StronglySorted_app in Hsorted as (Hcross & Htake & _).
  repeat split.
  - now apply rank_tokens_ok.
  - rewrite length_take. f_equal.
    rewrite (Permutation_length Hperm). unfold score_frame.
    apply length_map.
  - now rewrite firstn_skipn.
  - intros r r' Hr Hr'. apply Hcross; now apply list_elem_of_In.
  - exact Htake.
Qed.

Lemma rank_tokens_top_30_witness :
  exists ranked rest,
    rank_tokens (S := reversing_sorter)
      [metrics_of "a" 1 9 1 1; metrics_of "b" 2 1 1 9; metrics_of "c" 3 1 1 1;
       metrics_of "d" 4 1 1 1; metrics_of "e" 5 1 1 1] = Ok ranked /\
    length ranked = 5%nat /\
    Permutation (ranked ++ rest)
      (score_frame
         [metrics_of "a" 1 9 1 1; metrics_of "b" 2 1 1 9; metrics_of "c" 3 1 1 1;
          metrics_of "d" 4 1 1 1; metrics_of "e" 5 1 1 1]) /\
    (forall r r', In r ranked -> In r' rest -> final_score r' <= final_score r) /\
    StronglySorted (fun r r' => final_score r' <= final_score r) ranked.
Proof.
  apply (rank_tokens_top_30 (S := reversing_sorter)
           [metrics_of "a" 1 9 1 1; metrics_of "b" 2 1 1 9; metrics_of "c" 3 1 1 1;
            metrics_of "d" 4 1 1 1; metrics_of "e" 5 1 1 1]).
  discriminate.
Defined.

Lemma eqb_not_gtb (x y : float) : F64.eqb x y = true -> F64.gtb x y = false.
Proof. intros H. unfold F64.gtb. apply (eqb_not_ltb y x). now apply eqb_sym. Qed.

Lemma score_row_by_table (batch : list metrics) (m : metrics) :
  scored_by_table batch
    (score_row (mean (map pvr batch)) (mean (map rvol batch))
               (mean (map momentum batch)) (mean (map vsi batch)) m).
Proof.
  unfold scored_by_table, score_row; cbn.
  repeat split; intros H;
    repeat match goal with
    | H : (if ?c then _ else _) = _ |- _ => destruct c; try discriminate H
    | H : ?c = _ |- context [if ?c then _ else _] => rewrite H
    end; reflexivity.
Qed.

Lemma pvr_scores_of_column (batch : list metrics) :
  map pvr_score (score_frame batch)
  = map (fun x => if F64.ltb x (mean (map pvr batch)) then 1 else -1)
        (map pvr batch).
Proof. unfold score_frame. rewrite !map_map. now apply map_ext. Qed.

(** C3: the five components of every row follow the scoring table, with
    strict comparisons against the means of the batch (and against 0 for
    pvrd); a metric equal to its mean scores -1; and a batch whose pvr column
    is 10, 20, 30 has the pvr scores +1, -1, -1.  The means are the ones
    pandas computes, with the additions grouped as numpy groups them: the
    pvr column 2^53, 1, 1, 1, 1, 1, 1, 1, 2^50 sums to 9 * 2^50 + 6 (added
    in order it would come to 9 * 2^50, each 1 being lost), its mean lies
    above 2^50, and the last row scores +1. *)
Theorem scores_use_strict_comparisons `{S : Sorter} (batch : list metrics) :
  batch <> [] ->
  Forall2 (fun m r =>
      row r = m /\ scored_by_table batch r /\
      (F64.eqb (pvr m) (mean (map pvr batch)) = true -> pvr_score r = -1) /\
      (F64.eqb (rvol m) (mean (map rvol batch)) = true -> rvol_score r = -1) /\
      (F64.eqb (momentum m) (mean (map momentum batch)) = true ->
       momentum_score r = -1) /\
      (F64.eqb (vsi m) (mean (map vsi batch)) = true -> vsi_score r = -1))
    batch (score_frame batch) /\
  (exists ranked, rank_tokens batch = Ok ranked /\
                  Forall (scored_by_table batch) ranked) /\
  (map pvr batch = [F64.of_Z 10; F64.of_Z 20; F64.of_Z 30] ->
   mean (map pvr batch) = F64.of_Z 20 /\
   map pvr_score (score_frame batch) = [1; -1; -1]) /\
  (map pvr batch = map F64.of_Z [2 ^ 53; 1; 1; 1; 1; 1; 1; 1; 2 ^ 50] ->
   mean (map pvr batch) = F64.div (F64.of_Z (9 * 2 ^ 50 + 6)) (F64.of_Z 9) /\
   F64.ltb (F64.of_Z (2 ^ 50)) (mean (map pvr batch)) = true /\
   map pvr_score (score_frame batch) = [-1; 1; 1; 1; 1; 1; 1; 1; 1]).
Proof.
  intros Hne.
  assert (Hframe : Forall2 (fun m r => row r = m /\ scored_by_table batch r)
                     batch (score_frame batch)).
  { apply score_frame_rows. intros a b c d m _ -> -> -> ->.
    split; [reflexivity | apply score_row_by_table]. }
  split; [| split; [| split]].
  - eapply Forall2_impl; [exact Hframe |].
    intros m r [Hrow Htab]. split; [exact Hrow |]. split; [exact Htab |].
    subst m. destruct Htab as (_ & P & _ & R & _ & M & _ & _ & _ & V & _).
    repeat split; intros H.
    + apply P. now apply eqb_not_ltb.
    + apply R. now apply eqb_not_gtb.
    + apply M. now apply eqb_not_ltb.
    + apply V. now apply eqb_not_gtb.
  - eexists. split; [now apply rank_tokens_ok |].
    apply List.Forall_forall. intros r Hr. apply ranked_in_frame in Hr.
    assert (Hall : Forall (scored_by_table batch) (score_frame batch)).
    { eapply Forall2_Forall_r; [exact Hframe |]. now intros a b [_ H]. }
    rewrite List.Forall_forall in Hall. now apply Hall.
  - intros Hpvr.
    assert (Hmean : mean (map pvr batch) = F64.of_Z 20).
    { rewrite Hpvr. vm_compute. reflexivity. }
    split; [exact Hmean |].
    unfold score_frame. rewrite Hmean.
    generalize (mean (map rvol batch)) (mean (map momentum batch))
               (mean (map vsi batch)).
    intros b c d.
    destruct batch as [| m1 [| m2 [| m3 [| m4 l]]]]; try discriminate Hpvr.
    injection Hpvr as H1 H2 H3. cbn [map score_row pvr_score].
    rewrite H1, H2, H3. vm_compute. reflexivity.
  - intros Hpvr. rewrite pvr_scores_of_column, Hpvr.
    repeat split; vm_compute; reflexivity.
Qed.

Lemma scores_use_strict_comparisons_witness :
  map pvr_score
    (score_frame [metrics_of "a" 10 1 2 3; metrics_of "b" 20 3 2 1;
                  metrics_of "c" 30 5 5 5]) = [1; -1; -1].
Proof.
  apply (scores_use_strict_comparisons (S := insertion_sorter)
           [metrics_of "a" 10 1 2 3; metrics_of "b" 20 3 2 1;
            metrics_of "c" 30 5 5 5]).
  - discriminate.
  - reflexivity.
Defined.

(** ** MetricEngine *)

Lemma bind_ok {A B} (m : res A) (f : A -> res B) (a : A) :
  m = Ok a -> (x ← m; f x) = f a.
Proof. intros ->. reflexivity. Qed.

Lemma py_gt0_num (v : pyval) (x : number) :
  num_of v = Some x -> py_gt0 v = Ok (gt0 x).
Proof. unfold py_gt0. now intros ->. Qed.

Lemma py_truediv_num (a b : pyval) (x y : number) :
  num_of a = Some x -> num_of b = Some y -> py_truediv a b = truediv x y.
Proof. unfold py_truediv. now intros -> ->. Qed.

Lemma positive_or_one_num (tok : pyval) (k : string) (x : number) :
  field_num tok k x ->
  exists v, positive_or_one tok k = Ok v /\ num_of v = Some (or_one x).
Proof.
  intros (v & Hget & Hnum). unfold positive_or_one, or_one.
  rewrite (bind_ok _ _ _ Hget), (bind_ok _ _ _ (py_gt0_num _ _ Hnum)).
  destruct (gt0 x).
  - exists v. now split.
  - eexists. split; reflexivity.
Qed.

Lemma dict_get_ok (tok : pyval) (k k' : string) (v default : pyval) :
  getitem tok k = Ok v ->
  exists g, dict_get tok k' default = Ok g /\
            (g = default \/ getitem tok k' = Ok g).
Proof.
  destruct tok; try discriminate. intros _. unfold dict_get, getitem.
  destruct (assoc k' d); eauto.
Qed.

(** A ratio behind its guard: [tv / d if d > 0 else 0]. *)
Lemma guarded_ratio (vtv vd : pyval) (tv d : number) :
  num_of vtv = Some tv -> num_of vd = Some d ->
  (if gt0 d then py_truediv vtv vd else mret F64.zero)
  = (if gt0 d then truediv tv d else Ok F64.zero).
Proof. intros Htv Hd. destruct (gt0 d); [now apply py_truediv_num | reflexivity]. Qed.


(** [calculate_additional_metrics] on a token whose four fields hold
    numbers: what is left of it are the two divisions. *)
Lemma calculate_additional_metrics_on_numbers
    (tok : pyval) (tv cp mc ath : number) :
  field_num tok "total_volume" tv ->
  field_num tok "current_price" cp ->
  field_num tok "market_cap" mc ->
  field_num tok "ath" ath ->
  exists pc : pyval,
    calculate_additional_metrics tok
    = (pg ← truediv (or_one ath) (or_one cp);
       mv ← truediv (or_one mc) (or_one tv);
       Ok (pg, pc, mv)).
Proof.
  intros Htv Hcp Hmc Hath.
  destruct (positive_or_one_num _ _ _ Hcp) as (vcp & Pcp & Ncp).
  destruct (positive_or_one_num _ _ _ Hath) as (vath & Path & Nath).
  destruct (positive_or_one_num _ _ _ Htv) as (vtv & Ptv & Ntv).
  destruct (positive_or_one_num _ _ _ Hmc) as (vmc & Pmc & Nmc).
  destruct Hcp as (v & Hv & _).
  destruct (dict_get_ok tok "current_price" price_change_key v (PInt 0) Hv)
    as (pc & Hget & _).
  exists pc. unfold calculate_additional_metrics.
  rewrite (bind_ok _ _ _ Pcp), (bind_ok _ _ _ Path),
    (bind_ok _ _ _ Ptv), (bind_ok _ _ _ Pmc).
  rewrite (py_truediv_num _ _ _ _ Nath Ncp), (py_truediv_num _ _ _ _ Nmc Ntv).
  destruct (truediv (or_one ath) (or_one cp)); [| reflexivity].
  cbn [mbind res_bind]. fold price_change_key. now rewrite (bind_ok _ _ _ Hget).
Qed.

Lemma or_one_in_range (x : number) :
  in_float_range x = true -> in_float_range (or_one x) = true.
Proof. unfold or_one. destruct (gt0 x); [trivial | reflexivity]. Qed.





(** Whatever the token holds under the price-change key is returned as it
    is; 0 is returned only for a token without the key. *)
Lemma price_change_7d_as_stored (tok : pyval) (pg mv : float) (pc : pyval) :
  calculate_additional_metrics tok = Ok (pg, pc, mv) ->
  match getitem tok price_change_key with
  | Ok v => pc = v
  | Raise _ => pc = PInt 0
  end.
Proof.
  unfold calculate_additional_metrics.
  destruct (positive_or_one tok "current_price") as [a |] eqn:Ea; [| discriminate].
  destruct (positive_or_one tok "ath") as [b |]; [| discriminate].
  destruct (positive_or_one tok "total_volume") as [c |]; [| discriminate].
  destruct (positive_or_one tok "market_cap") as [d |]; [| discriminate].
  cbn [mbind res_bind].
  destruct (py_truediv b a); [| discriminate]. cbn [mbind res_bind].
  destruct tok as [ | | | | | | dict]; try discriminate Ea.
  unfold dict_get, getitem. fold price_change_key.
  destruct (assoc price_change_key dict); cbn [mbind res_bind];
    destruct (py_truediv d c); unfold mret, res_ret; intros H;
    first [discriminate H | now injection H].
Qed.

(** C7, at a token whose 7-day change is null: [calculate_additional_metrics]
    returns [None] for it, not 0, while [calculate_metrics] reads the same
    field as 0; only for a token without the field is 0 returned. *)
Theorem null_price_change_is_returned_as_None :
  (exists pg mv,
      calculate_additional_metrics
        (sample_token 2 10 40 8 [(price_change_key, PNone)])
      = Ok (pg, PNone, mv)) /\
  (exists m,
      calculate_metrics (sample_token 2 10 40 8 [(price_change_key, PNone)])
                        (sample_global 1000) = Ok m /\
      momentum m = F64.zero) /\
  (exists pg mv,
      calculate_additional_metrics (sample_token 2 10 40 8 [])
      = Ok (pg, PInt 0, mv)).
Proof.
  split; [| split].
  - eexists _, _. vm_compute. reflexivity.
  - eexists. split; vm_compute; reflexivity.
  - eexists _, _. vm_compute. reflexivity.
Qed.

(** ** MarketDataSource *)

(** C8: a first answer of status 429 is followed by one sleep of 60 and one
    second request, and by nothing more whatever the second answer is; any
    other first answer is final.  A final answer whose status is not 200
    makes the call return [None]; it does not raise. *)
Theorem fetch_retries_once_on_429
    (u : string) (ps : option (list (string * pyval)))
    (net : network) (w : world) :
  let n := requests_made w in
  let req := {| url := u; params := ps |} in
  let first := net n req in
  let second := net (S n) req in
  (status_code first = 429 -> status_code second <> 200 ->
   fetch_with_rate_limit u ps net w
   = (Ok PNone,
      {| requests_made := S (S n);
         trace := trace w ++ [RequestsGet req; PrintLine rate_limit_line;
                              TimeSleep 60; RequestsGet req;
                              PrintLine (error_line second)] |})) /\
  (status_code first = 429 -> status_code second = 200 ->
   fetch_with_rate_limit u ps net w
   = (match body second with Some v => Ok v | None => Raise JSONDecodeError end,
      {| requests_made := S (S n);
         trace := trace w ++ [RequestsGet req; PrintLine rate_limit_line;
                              TimeSleep 60; RequestsGet req] |})) /\
  (status_code first <> 429 -> status_code first <> 200 ->
   fetch_with_rate_limit u ps net w
   = (Ok PNone,
      {| requests_made := S n;
         trace := trace w ++ [RequestsGet req; PrintLine (error_line first)] |})) /\
  (status_code first = 200 ->
   fetch_with_rate_limit u ps net w
   = (match body first with Some v => Ok v | None => Raise JSONDecodeError end,
      {| requests_made := S n; trace := trace w ++ [RequestsGet req] |})).
Proof.
  intros n req first second.
  unfold fetch_with_rate_limit, requests_get, response_json, emit, lift.
  unfold mbind, io_bind, mret, io_ret. cbn beta iota.
  fold n req first.
  repeat split; intros H1 H2 || intros H1.
  - rewrite H1. cbn [Z.eqb Pos.eqb requests_made trace]. fold second.
    apply Z.eqb_neq in H2. rewrite H2.
    cbn [requests_made trace]. rewrite <- !app_assoc. reflexivity.
  - rewrite H1. cbn [Z.eqb Pos.eqb requests_made trace]. fold second.
    rewrite H2. cbn [Z.eqb Pos.eqb]. rewrite <- !app_assoc. reflexivity.
  - apply Z.eqb_neq in H1, H2. rewrite H1, H2.
    cbn [requests_made trace]. reflexivity || (rewrite <- !app_assoc; reflexivity).
  - rewrite H1. cbn [Z.eqb Pos.eqb]. rewrite H1. reflexivity.
Qed.

Lemma fetch_retries_once_on_429_witness :
  fetch_with_rate_limit global_url None
    (always {| status_code := 429; body := None |}) world0
  = (Ok PNone,
     {| requests_made := 2;
        trace := [RequestsGet {| url := global_url; params := None |};
                  PrintLine rate_limit_line; TimeSleep 60;
                  RequestsGet {| url := global_url; params := None |};
                  PrintLine "Error fetching data: 429"] |}).
Proof.
  apply (fetch_retries_once_on_429 global_url None
           (always {| status_code := 429; body := None |}) world0).
  - reflexivity.
  - discriminate.
Defined.

(** ** TierOrchestrator *)

Section AppendsOnly.
Context (P : event -> Prop).

Lemma appends_only_lift {A} (r : res A) : appends_only P (lift r).
Proof.
  intros net [n t]. cbn. split; [constructor |]. now rewrite app_nil_r.
Qed.

Lemma appends_only_ret {A} (a : A) : appends_only P (mret a).
Proof. apply (appends_only_lift (Ok a)). Qed.

Lemma appends_only_emit (e : event) : P e -> appends_only P (emit e).
Proof. intros He net [n t]. cbn. split; [repeat constructor; exact He | reflexivity]. Qed.

Lemma appends_only_requests_get u ps :
  P (RequestsGet {| url := u; params := ps |}) ->
  appends_only P (requests_get u ps).
Proof. intros He net [n t]. cbn. split; [repeat constructor; exact He | reflexivity]. Qed.

Lemma appends_only_bind {A B} (m : io A) (f : A -> io B) :
  appends_only P m -> (forall a, appends_only P (f a)) ->
  appends_only P (m ≫= f).
Proof.
  intros Hm Hf net w. cbn zeta.
  destruct (Hm net w) as [Hd Hw]. cbn zeta in Hd, Hw.
  unfold mbind, io_bind. rewrite Hw.
  destruct (m net (fresh (requests_made w))) as [[a | e] d] eqn:Hrun;
    cbn [fst snd] in *.
  - destruct (Hf a net d) as [Hd' Hfd]. cbn zeta in Hd', Hfd.
    destruct (Hf a net {| requests_made := requests_made d;
                          trace := trace w ++ trace d |}) as [_ Hfw].
    cbn zeta in Hfw. cbn [requests_made trace] in Hfw.
    rewrite Hfd, Hfw. cbn [fst snd requests_made trace]. split.
    + apply Forall_app. now split.
    + now rewrite app_assoc.
  - split; [exact Hd | reflexivity].
Qed.

End AppendsOnly.

Ltac appends_only_step :=
  first
    [ apply appends_only_bind; [| intros ? ]
    | apply appends_only_ret
    | apply appends_only_lift
    | apply appends_only_emit; exact I
    | apply appends_only_requests_get; reflexivity
    | match goal with
      | |- appends_only _ (if ?c then _ else _) => destruct c
      end ].

Lemma get_global_data_appends_only : appends_only no_token_work get_global_data.
Proof.
  unfold get_global_data, fetch_with_rate_limit.
  repeat appends_only_step.
Qed.

(** C9: when the global fetch returns [None], [rank_tier] writes that it
    failed and returns; since it was entered it has asked for no token page
    and has entered none of [calculate_metrics], [rank_tokens] and
    [calculate_additional_metrics]. *)
Theorem rank_tier_without_global_data `{S : Sorter} `{L : Lowercase}
    (tier_number : Z) (net : network) (w : world) :
  fst (get_global_data net w) = Ok PNone ->
  exists w',
    rank_tier tier_number net w = (Ok tt, w') /\
    trace w' = trace w ++ events_since w w' /\
    Forall no_token_work (events_since w w') /\
    last (events_since w w')
    = Some (StWrite (Text "Failed to fetch global market data.")).
Proof.
  intros Hnone.
  destruct (get_global_data_appends_only net w) as [Hd Hw]. cbn zeta in Hd, Hw.
  rewrite Hw in Hnone. cbn [fst] in Hnone.
  set (header := StWrite (Text ("### Ranking Tier " +:+ pretty tier_number
                           +:+ " (Tokens " +:+ pretty (tier_number * 1000 - 999)
                           +:+ " to " +:+ pretty (tier_number * 1000) +:+ ")"))).
  set (w1 := {| requests_made := requests_made w; trace := trace w ++ [header] |}).
  destruct (get_global_data_appends_only net w1) as [_ Hw1]. cbn zeta in Hw1.
  cbn [requests_made trace w1] in Hw1. rewrite Hnone in Hw1.
  set (d := snd (get_global_data net (fresh (requests_made w)))) in *.
  set (failed := StWrite (Text "Failed to fetch global market data.")).
  exists {| requests_made := requests_made d;
            trace := ((trace w ++ [header]) ++ trace d) ++ [failed] |}.
  assert (Hev : events_since w
                  {| requests_made := requests_made d;
                     trace := ((trace w ++ [header]) ++ trace d) ++ [failed] |}
                = header :: trace d ++ [failed]).
  { unfold events_since. cbn [trace].
    rewrite <- !app_assoc. now rewrite drop_app_length. }
  split; [| split; [| split]].
  - unfold rank_tier. fold header.
    unfold mbind at 1. unfold io_bind at 1. cbn [emit]. fold w1.
    unfold mbind at 1. unfold io_bind at 1. rewrite Hw1.
    reflexivity.
  - rewrite Hev. cbn [trace]. now rewrite <- !app_assoc.
  - rewrite Hev. constructor; [exact I |].
    apply Forall_app. split; [exact Hd | repeat constructor].
  - rewrite Hev. change (header :: trace d ++ [failed])
      with ((header :: trace d) ++ [failed]). apply last_snoc.
Qed.

Lemma rank_tier_without_global_data_witness :
  exists w',
    rank_tier (S := insertion_sorter) (L := ascii_lowercase) 2
      (always {| status_code := 500; body := None |}) world0 = (Ok tt, w') /\
    trace w' = trace world0 ++ events_since world0 w' /\
    Forall no_token_work (events_since world0 w') /\
    last (events_since world0 w')
    = Some (StWrite (Text "Failed to fetch global market data.")).
Proof.
  apply (rank_tier_without_global_data (S := insertion_sorter) (L := ascii_lowercase) 2
           (always {| status_code := 500; body := None |}) world0).
  reflexivity.
Defined.

(** ** Order of rows with equal final scores *)






(** ** Sums *)

Section SumPreserves.
Variable P : float -> Prop.
Hypothesis P_add : forall x y, P x -> P y -> P (F64.add x y).
Hypothesis P_zero : P F64.zero.

Definition lanes_all (r : lanes) : Prop :=
  P (r0 r) /\ P (r1 r) /\ P (r2 r) /\ P (r3 r) /\
  P (r4 r) /\ P (r5 r) /\ P (r6 r) /\ P (r7 r).

Lemma fold_add_preserves (xs : list float) (acc : float) :
  P acc -> Forall P xs -> P (fold_left F64.add xs acc).
Proof.
  intros Hacc Hxs. revert acc Hacc.
  induction Hxs as [| x xs Hx _ IH]; intros acc Hacc; cbn [fold_left]; auto.
Qed.

Lemma add_by_eights_preserves (n : nat) (xs : list float) (r : lanes) :
  (length xs <= n)%nat -> lanes_all r -> Forall P xs ->
  lanes_all (fst (add_by_eights r xs)) /\ Forall P (snd (add_by_eights r xs)).
Proof.
  revert xs r. induction n as [| n IH]; intros xs r Hlen Hr Hxs.
  - destruct xs; [now split | cbn in Hlen; lia].
  - destruct xs as [| a0 [| a1 [| a2 [| a3 [| a4 [| a5 [| a6 [| a7 xs]]]]]]]];
      try (now split).
    cbn [add_by_eights].
    repeat (apply Forall_cons in Hxs as [? Hxs]).
    destruct Hr as (? & ? & ? & ? & ? & ? & ? & ?).
    apply IH; [cbn in Hlen; lia | | exact Hxs].
    repeat split; cbn; auto.
Qed.

Lemma sum_block_preserves (xs : list float) : Forall P xs -> P (sum_block xs).
Proof.
  intros Hxs.
  destruct xs as [| a0 [| a1 [| a2 [| a3 [| a4 [| a5 [| a6 [| a7 xs]]]]]]]];
    cbn [sum_block]; try exact P_zero;
    try (apply Forall_cons in Hxs as [? Hxs]; now apply fold_add_preserves).
  repeat (apply Forall_cons in Hxs as [? Hxs]).
  destruct (add_by_eights_preserves (length xs) xs
              (Lanes a0 a1 a2 a3 a4 a5 a6 a7) (le_n _)) as [Hr Hrest];
    [repeat split; assumption | exact Hxs |].
  destruct (add_by_eights _ xs) as [r rest]. cbn [fst snd] in Hr, Hrest.
  destruct Hr as (? & ? & ? & ? & ? & ? & ? & ?).
  apply fold_add_preserves; auto 10.
Qed.

Lemma pairwise_sum_preserves (fuel : nat) (xs : list float) :
  Forall P xs -> P (pairwise_sum fuel xs).
Proof.
  revert xs. induction fuel as [| fuel IH]; intros xs Hxs; cbn [pairwise_sum].
  - now apply sum_block_preserves.
  - destruct (Nat.leb (length xs) 128); [now apply sum_block_preserves |].
    apply P_add; apply IH; [now apply Forall_take | now apply Forall_drop].
Qed.

Lemma sum_preserves (xs : list float) : Forall P xs -> P (sum xs).
Proof. apply pairwise_sum_preserves. Qed.

End SumPreserves.

Lemma first_part_shorter (n : nat) :
  (128 < n)%nat -> (0 < n / 2 - (n / 2) mod 8 < n)%nat.
Proof.
  intros Hn.
  pose proof (Nat.mod_upper_bound (n / 2) 8 ltac:(lia)).
  pose proof (Nat.Div0.div_lt_upper_bound n 2 n ltac:(lia)).
  assert (64 <= n / 2)%nat by (apply Nat.div_le_lower_bound; lia).
  lia.
Qed.

(** The fuel is enough: a column of more than 128 values is the sum of the
    sums of its two parts. *)
Lemma pairwise_sum_fuel (f g : nat) (xs : list float) :
  (length xs <= f)%nat -> (length xs <= g)%nat ->
  pairwise_sum f xs = pairwise_sum g xs.
Proof.
  revert g xs. induction f as [| f IH]; intros g xs Hf Hg.
  - destruct xs; [| cbn in Hf; lia]. now destruct g.
  - destruct g as [| g].
    { destruct xs; [reflexivity | cbn in Hg; lia]. }
    cbn [pairwise_sum]. destruct (Nat.leb_spec (length xs) 128); [reflexivity |].
    pose proof (first_part_shorter (length xs) ltac:(lia)) as Hhalf.
    f_equal; apply IH; rewrite ?length_take, ?length_drop; lia.
Qed.

Lemma sum_of_two_parts (xs : list float) :
  (128 < length xs)%nat ->
  let n2 := (length xs / 2 - (length xs / 2) mod 8)%nat in
  sum xs = F64.add (sum (take n2 xs)) (sum (drop n2 xs)).
Proof.
  intros Hlen n2. unfold sum at 1.
  destruct (length xs) as [| n] eqn:Hn; [lia |].
  cbn [pairwise_sum]. rewrite Hn.
  destruct (Nat.leb_spec (S n) 128); [lia |]. fold n2.
  pose proof (first_part_shorter (S n) ltac:(lia)) as Hhalf. fold n2 in Hhalf.
  unfold sum. f_equal; apply pairwise_sum_fuel;
    rewrite ?length_take, ?length_drop; lia.
Qed.

(** A column of zeros has a zero mean. *)
Lemma add_zeros (x y : float) :
  F64.is_zero x = true -> F64.is_zero y = true -> F64.is_zero (F64.add x y) = true.
Proof.
  destruct x as [[] | | |], y as [[] | | |]; try discriminate; reflexivity.
Qed.

Lemma sum_zeros (xs : list float) :
  Forall (fun x => F64.is_zero x = true) xs -> F64.is_zero (sum xs) = true.
Proof.
  apply (sum_preserves (fun x => F64.is_zero x = true)); [| reflexivity].
  apply add_zeros.
Qed.

Lemma mean_zeros (xs : list float) :
  xs <> [] -> Forall (fun x => F64.is_zero x = true) xs ->
  F64.is_zero (mean xs) = true.
Proof.
  intros Hne Hz. unfold mean.
  assert (Hnan : Forall (fun x => F64.is_nan x = false) xs).
  { eapply Forall_impl; [exact Hz |]. intros [] H; try discriminate H; reflexivity. }
  assert (Hfilter : List.filter (fun x => negb (F64.is_nan x)) xs = xs).
  { clear Hne Hz. induction Hnan as [| x l Hx _ IH]; [reflexivity |].
    cbn [List.filter]. rewrite Hx. cbn [negb]. now rewrite IH. }
  assert (Hmap : map (fun x => if F64.is_nan x then F64.zero else x) xs = xs).
  { clear Hne Hz Hfilter. induction Hnan as [| x l Hx _ IH]; [reflexivity |].
    cbn [map]. now rewrite Hx, IH. }
  rewrite Hfilter, Hmap.
  destruct xs as [| x l]; [congruence |]. cbn [length Nat.ltb Nat.leb].
  pose proof (sum_zeros _ Hz) as Hs.
  pose proof (of_nat_positive (S (length l)) ltac:(lia)) as Hp.
  unfold length in Hp.
  destruct (sum (x :: l)) as [s | | |]; try discriminate Hs.
  destruct (F64.of_nat _) as [| [] | | [] ? ?]; try discriminate Hp; reflexivity.
Qed.

(** ** pvrd when the mean of pvr is zero *)

(** Dividing the deviation from a zero mean by that mean: NaN for a zero or
    NaN, and an infinity for any other value, negative when the signs of the
    value and of the zero differ. *)
Lemma pvrd_over_zero_mean (x : float) (s : bool) :
  F64.ltb (F64.div (F64.sub x (S754_zero s)) (S754_zero s)) F64.zero
  = (if s then F64.gtb x F64.zero else F64.ltb x F64.zero).
Proof.
  destruct x as [sx | sx | | sx m e]; destruct s; try destruct sx; reflexivity.
Qed.

Lemma pvrd_of_zero_or_nan (x : float) (s : bool) :
  F64.is_zero x || F64.is_nan x = true ->
  F64.div (F64.sub x (S754_zero s)) (S754_zero s) = F64.nan.
Proof.
  destruct x as [sx | sx | | sx m e]; try discriminate;
    destruct s; try destruct sx; reflexivity.
Qed.

Lemma rows_under_zero_mean (batch : list metrics) :
  F64.is_zero (mean (map pvr batch)) = true ->
  Forall2 (fun m r =>
      row r = m /\
      (F64.is_zero (pvr m) || F64.is_nan (pvr m) = true ->
       pvrd r = F64.nan /\ pvrd_score r = -1) /\
      (mean (map pvr batch) = S754_zero false ->
       pvrd_score r = (if F64.ltb (pvr m) F64.zero then 1 else -1)) /\
      (mean (map pvr batch) = S754_zero true ->
       pvrd_score r = (if F64.gtb (pvr m) F64.zero then 1 else -1)))
    batch (score_frame batch).
Proof.
  intros Hzero. apply score_frame_rows. intros a b c d m _ -> _ _ _.
  destruct (mean (map pvr batch)) as [s | | |]; try discriminate Hzero.
  unfold score_row; cbn [row pvrd pvrd_score].
  split; [reflexivity |]. split; [| split].
  - intros Hx. rewrite pvrd_over_zero_mean, (pvrd_of_zero_or_nan _ _ Hx).
    split; [reflexivity |].
    destruct (pvr m) as [sx | sx | | sx mx ex]; try discriminate Hx;
      destruct s; reflexivity.
  - intros [= ->]. now rewrite pvrd_over_zero_mean.
  - intros [= ->]. now rewrite pvrd_over_zero_mean.
Qed.

(** C10, as the code has it: on a non-empty batch [rank_tokens] does not
    raise, whatever the mean of pvr.  When that mean is zero, a token whose
    pvr is zero or NaN has pvrd NaN and pvrd_score -1; under a mean of +0
    the pvrd_score is +1 exactly for the tokens of negative pvr (whose pvrd
    is minus infinity), and under a mean of -0 exactly for those of positive
    pvr.  When every pvr of the batch is zero, the mean is zero and every
    pvrd_score is -1. *)
Theorem pvrd_score_under_zero_mean `{S : Sorter} (batch : list metrics) :
  batch <> [] ->
  (exists ranked, rank_tokens batch = Ok ranked) /\
  (F64.is_zero (mean (map pvr batch)) = true ->
   Forall2 (fun m r =>
      row r = m /\
      (F64.is_zero (pvr m) || F64.is_nan (pvr m) = true ->
       pvrd r = F64.nan /\ pvrd_score r = -1) /\
      (mean (map pvr batch) = S754_zero false ->
       pvrd_score r = (if F64.ltb (pvr m) F64.zero then 1 else -1)) /\
      (mean (map pvr batch) = S754_zero true ->
       pvrd_score r = (if F64.gtb (pvr m) F64.zero then 1 else -1)))
    batch (score_frame batch)) /\
  (Forall (fun m => F64.is_zero (pvr m) = true) batch ->
   F64.is_zero (mean (map pvr batch)) = true /\
   Forall (fun r => pvrd_score r = -1) (score_frame batch)).
Proof.
  intros Hne. split; [| split].
  - eexists. now apply rank_tokens_ok.
  - apply rows_under_zero_mean.
  - intros Hall.
    assert (Hzero : F64.is_zero (mean (map pvr batch)) = true).
    { apply mean_zeros.
      - destruct batch; [congruence | discriminate].
      - apply Forall_map. exact Hall. }
    split; [exact Hzero |].
    eapply Forall2_Forall_l_r;
      [exact (rows_under_zero_mean batch Hzero) | exact Hall |].
    cbn beta. intros m r (_ & H0 & _) Hm. apply H0. now rewrite Hm.
Qed.

Lemma pvrd_score_under_zero_mean_witness :
  F64.is_zero (mean (map pvr [metrics_of "a" 0 1 2 3; metrics_of "b" 0 3 2 1]))
  = true /\
  Forall (fun r => pvrd_score r = -1)
         (score_frame [metrics_of "a" 0 1 2 3; metrics_of "b" 0 3 2 1]).
Proof.
  apply (pvrd_score_under_zero_mean (S := insertion_sorter)
           [metrics_of "a" 0 1 2 3; metrics_of "b" 0 3 2 1]).
  - discriminate.
  - repeat constructor.
Defined.

(** C10, as the claim has it, fails: two tokens that trade at price 1 with
    volumes -1 and 1 have the pvr column -1, 1, whose mean is 0; the first
    pvrd is minus infinity, which is below 0, and the first pvrd_score is
    +1. *)
Lemma negative_pvr_scores_plus_one :
  exists batch,
    mapM (fun t => calculate_metrics t (sample_global 100))
         [sample_token 1 (-1) 1 1 []; sample_token 1 1 1 1 []] = Ok batch /\
    map pvr batch = [F64.of_Z (-1); F64.of_Z 1] /\
    mean (map pvr batch) = F64.zero /\
    (exists ranked, rank_tokens (S := insertion_sorter) batch = Ok ranked) /\
    map (fun r => (pvrd r, pvrd_score r)) (score_frame batch)
    = [(S754_infinity true, 1); (S754_infinity false, -1)].
Proof.
  eexists. split; [vm_compute; reflexivity |].
  split; [vm_compute; reflexivity |].
  split; [vm_compute; reflexivity |].
  split; [eexists; reflexivity | vm_compute; reflexivity].
Qed.

(** * Further properties *)

(** ** MarketDataSource: the denylist filter *)

Lemma in_stablecoins_In (s : string) :
  in_stablecoins s = true <-> In s stablecoins.
Proof.
  unfold in_stablecoins. rewrite existsb_exists. split.
  - intros (x & Hx & Heq). apply String.eqb_eq in Heq. now subst.
  - intros H. exists s. split; [exact H | apply String.eqb_refl].
Qed.

Lemma not_stablecoin_readable `{L : Lowercase} (t : pyval) :
  readable_token t ->
  exists b, not_stablecoin t = Ok b /\ (b = true <-> ~ denylisted t).
Proof.
  intros (sym & Hsym & Hname). unfold not_stablecoin.
  rewrite (bind_ok _ _ _ Hsym). cbn [py_lower mbind res_bind].
  destruct (in_stablecoins (lower sym)) eqn:Hin.
  - exists false. split; [reflexivity |]. split; [discriminate |].
    intros Hnot. exfalso. apply Hnot. exists sym. split; [now left |].
    now apply in_stablecoins_In.
  - destruct Hname as [Hcontra | (nm & Hnm)].
    { apply in_stablecoins_In in Hcontra. congruence. }
    rewrite (bind_ok _ _ _ Hnm). cbn [py_lower mbind res_bind].
    eexists. split; [reflexivity |].
    destruct (in_stablecoins (lower nm)) eqn:Hin'; cbn [negb]; split.
    + discriminate.
    + intros Hnot. exfalso. apply Hnot. exists nm. split; [now right |].
      now apply in_stablecoins_In.
    + intros _ (s & [Hs | Hs] & Hl); apply in_stablecoins_In in Hl;
        rewrite Hs in *; congruence.
    + reflexivity.
Qed.

Lemma filterM_readable `{L : Lowercase} (l : list pyval) :
  Forall readable_token l ->
  exists kept,
    filterM not_stablecoin l = Ok kept /\
    sublist kept l /\
    (forall t, In t l -> (In t kept <-> ~ denylisted t)).
Proof.
  induction 1 as [| t l Ht _ (kept & Hk & Hsub & Hiff)].
  - exists []. split; [reflexivity |]. split; [constructor |]. intros t [].
  - destruct (not_stablecoin_readable t Ht) as (b & Hb & Hbd).
    cbn [filterM]. rewrite (bind_ok _ _ _ Hb), (bind_ok _ _ _ Hk).
    eexists. split; [reflexivity |]. destruct b.
    + split; [now constructor |]. intros t' [<- | Hin].
      * split; [intros _; now apply Hbd | intros _; now left].
      * split.
        -- intros [<- | Hin']; [now apply Hbd | now apply Hiff].
        -- intros Hnd. right. now apply Hiff.
    + split; [now constructor |]. intros t' [<- | Hin].
      * split.
        -- intros Hin'. apply Hiff; [| exact Hin'].
           apply list_elem_of_In. eapply elem_of_sublist; [| exact Hsub].
           now apply list_elem_of_In.
        -- intros Hnd. apply Hbd in Hnd. discriminate.
      * now apply Hiff.
Qed.

Lemma fetch_answer (u : string) (ps : option (list (string * pyval)))
    (net : network) (w : world) :
  fst (fetch_with_rate_limit u ps net w)
  = (let r := final_response net (requests_made w) {| url := u; params := ps |} in
     if status_code r =? 200
     then match body r with Some v => Ok v | None => Raise JSONDecodeError end
     else Ok PNone).
Proof.
  unfold fetch_with_rate_limit, requests_get, response_json, emit, lift,
    final_response.
  unfold mbind, io_bind, mret, io_ret. cbn beta iota zeta.
  destruct (status_code (net (requests_made w) _) =? 429) eqn:E1;
    cbn [requests_made trace fst].
  - destruct (status_code (net (S (requests_made w)) _) =? 200); reflexivity.
  - destruct (status_code (net (requests_made w) _) =? 200); reflexivity.
Qed.

(** Of a page of readable tokens, [get_top_tokens] returns those that are
    not on the denylist, in the order of the page, and the filter adds
    nothing to the trace of the fetch. *)
Theorem get_top_tokens_filters `{L : Lowercase} (page : Z) (net : network) (w : world)
    (l : list pyval) :
  final_response net (requests_made w) (markets_request page)
  = {| status_code := 200; body := Some (PList l) |} ->
  Forall readable_token l ->
  exists kept,
    get_top_tokens page net w
    = (Ok (PList kept),
       snd (fetch_with_rate_limit markets_url
              (params (markets_request page)) net w)) /\
    sublist kept l /\
    (forall t, In t l -> (In t kept <-> ~ denylisted t)).
Proof.
  intros Hresp Hread.
  destruct (filterM_readable l Hread) as (kept & Hk & Hsub & Hiff).
  pose proof (fetch_answer markets_url (params (markets_request page)) net w)
    as Hans.
  change {| url := markets_url; params := params (markets_request page) |}
    with (markets_request page) in Hans.
  rewrite Hresp in Hans. cbn [status_code body Z.eqb Pos.eqb] in Hans.
  unfold get_top_tokens.
  change (Some _) with (params (markets_request page)).
  unfold mbind at 1. unfold io_bind at 1.
  destruct (fetch_with_rate_limit markets_url (params (markets_request page))
              net w) as [r w'].
  cbn [fst snd] in *. rewrite Hans.
  destruct l as [| t l'].
  - exists []. cbn in Hk. injection Hk as <-. split; [reflexivity |].
    split; [constructor | intros t []].
  - exists kept. split; [| split; assumption].
    cbn [truthy py_iter]. unfold lift, mbind, io_bind. rewrite Hk. reflexivity.
Qed.

Lemma get_top_tokens_filters_witness :
  exists kept,
    get_top_tokens (L := ascii_lowercase) 1
      (always (ok_response (PList [listed_token "Tether" "USDT" 1 5 9 2;
                                   listed_token "Bitcoin" "btc" 7 5 9 8])))
      world0
    = (Ok (PList kept),
       snd (fetch_with_rate_limit markets_url (params (markets_request 1))
              (always (ok_response (PList [listed_token "Tether" "USDT" 1 5 9 2;
                                           listed_token "Bitcoin" "btc" 7 5 9 8])))
              world0)) /\
    sublist kept [listed_token "Tether" "USDT" 1 5 9 2;
                  listed_token "Bitcoin" "btc" 7 5 9 8] /\
    (forall t, In t [listed_token "Tether" "USDT" 1 5 9 2;
                     listed_token "Bitcoin" "btc" 7 5 9 8] ->
               (In t kept <-> ~ denylisted (L := ascii_lowercase) t)).
Proof.
  apply (get_top_tokens_filters (L := ascii_lowercase) 1
           (always (ok_response (PList [listed_token "Tether" "USDT" 1 5 9 2;
                                        listed_token "Bitcoin" "btc" 7 5 9 8])))
           world0).
  - reflexivity.
  - repeat constructor;
      (eexists; split; [reflexivity | right; eexists; reflexivity]).
Defined.

Lemma filterM_raises `{L : Lowercase} (l1 l2 : list pyval) (t : pyval) (e : exn) :
  Forall readable_token l1 -> not_stablecoin t = Raise e ->
  filterM not_stablecoin (l1 ++ t :: l2) = Raise e.
Proof.
  intros Hread Ht. induction Hread as [| t1 l1 Ht1 _ IH]; cbn [app filterM].
  - now rewrite Ht.
  - destruct (not_stablecoin_readable t1 Ht1) as (b & Hb & _).
    rewrite (bind_ok _ _ _ Hb), IH. reflexivity.
Qed.

(** One token the filter cannot read makes [get_top_tokens] raise: nothing
    of the page is returned.  A token without the key ['symbol'] raises
    [KeyError], one whose symbol is null raises [AttributeError]. *)
Theorem get_top_tokens_raises_on_unreadable_token `{L : Lowercase} (page : Z) (net : network)
    (w : world) (l1 l2 : list pyval) (t : pyval) (e : exn) :
  final_response net (requests_made w) (markets_request page)
  = {| status_code := 200; body := Some (PList (l1 ++ t :: l2)) |} ->
  Forall readable_token l1 ->
  not_stablecoin t = Raise e ->
  fst (get_top_tokens page net w) = Raise e /\
  (forall d, t = PDict d -> assoc "symbol" d = None -> e = KeyError "symbol") /\
  (getitem t "symbol" = Ok PNone -> e = AttributeError).
Proof.
  intros Hresp Hread Ht.
  pose proof (fetch_answer markets_url (params (markets_request page)) net w)
    as Hans.
  change {| url := markets_url; params := params (markets_request page) |}
    with (markets_request page) in Hans.
  rewrite Hresp in Hans. cbn [status_code body Z.eqb Pos.eqb] in Hans.
  split; [| split].
  - unfold get_top_tokens.
    change (Some _) with (params (markets_request page)).
    unfold mbind at 1. unfold io_bind at 1.
    destruct (fetch_with_rate_limit markets_url (params (markets_request page))
                net w) as [r w'].
    cbn [fst snd] in *. rewrite Hans.
    assert (Htruthy : truthy (PList (l1 ++ t :: l2)) = true)
      by (destruct l1; reflexivity).
    rewrite Htruthy. cbn [py_iter]. unfold lift, mbind, io_bind.
    now rewrite (filterM_raises l1 l2 t e Hread Ht).
  - intros d -> Hd. unfold not_stablecoin, getitem in Ht. rewrite Hd in Ht.
    cbn in Ht. congruence.
  - intros Hsym. unfold not_stablecoin in Ht. rewrite Hsym in Ht.
    cbn in Ht. congruence.
Qed.

Lemma get_top_tokens_raises_on_unreadable_token_witness :
  fst (get_top_tokens (L := ascii_lowercase) 2
         (always (ok_response (PList [listed_token "Bitcoin" "btc" 7 5 9 8;
                                      PDict [("name", PStr "Nameless")]])))
         world0)
  = Raise (KeyError "symbol").
Proof.
  apply (get_top_tokens_raises_on_unreadable_token (L := ascii_lowercase) 2
           (always (ok_response (PList [listed_token "Bitcoin" "btc" 7 5 9 8;
                                        PDict [("name", PStr "Nameless")]])))
           world0 [listed_token "Bitcoin" "btc" 7 5 9 8] []
           (PDict [("name", PStr "Nameless")]) (KeyError "symbol")).
  - reflexivity.
  - repeat constructor.
    eexists; split; [reflexivity | right; eexists; reflexivity].
  - reflexivity.
Defined.

Lemma stablecoins_lowercase :
  Forall (fun s => ascii_lower s = s) stablecoins.
Proof. repeat constructor. Qed.

Lemma on_the_list_up_to_case (s : string) :
  In (ascii_lower s) stablecoins <->
  exists entry, In entry stablecoins /\ same_up_to_ascii_case s entry.
Proof.
  pose proof stablecoins_lowercase as Hlow. rewrite List.Forall_forall in Hlow.
  unfold same_up_to_ascii_case. split.
  - intros Hin. exists (ascii_lower s). split; [exact Hin |].
    symmetry. now apply Hlow.
  - intros (entry & Hin & Heq). rewrite Heq, (Hlow entry Hin). exact Hin.
Qed.

(** The condition of the filter ignores the case of ASCII letters: on a
    token whose symbol and name are ASCII strings it is false, and the
    token is left out of what [get_top_tokens] returns, exactly when the
    symbol or the name equals an entry of the list up to the case of the
    letters A to Z.  (Every entry of the list is in lower case; what
    [str.lower] does to other characters plays no part for such a token.) *)
Theorem denylist_ignores_case `{L : Lowercase} (t : pyval) (sym nm : string) :
  getitem t "symbol" = Ok (PStr sym) ->
  getitem t "name" = Ok (PStr nm) ->
  is_ascii sym = true -> is_ascii nm = true ->
  exists keep,
    not_stablecoin t = Ok keep /\
    (keep = false <->
     exists entry,
       In entry stablecoins /\
       (same_up_to_ascii_case sym entry \/ same_up_to_ascii_case nm entry)).
Proof.
  intros Hsym Hnm Asym Anm. unfold not_stablecoin.
  rewrite (bind_ok _ _ _ Hsym). cbn [py_lower mbind res_bind].
  rewrite (lower_of_ascii sym Asym).
  destruct (in_stablecoins (ascii_lower sym)) eqn:Hin.
  - exists false. split; [reflexivity |]. split; [| reflexivity]. intros _.
    apply in_stablecoins_In, on_the_list_up_to_case in Hin as (entry & He & Hs).
    exists entry. auto.
  - rewrite (bind_ok _ _ _ Hnm). cbn [py_lower mbind res_bind].
    rewrite (lower_of_ascii nm Anm). eexists. split; [reflexivity |].
    destruct (in_stablecoins (ascii_lower nm)) eqn:Hin'; cbn [negb].
    + split; [| reflexivity]. intros _.
      apply in_stablecoins_In, on_the_list_up_to_case in Hin'
        as (entry & He & Hs).
      exists entry. auto.
    + split; [discriminate |]. intros (entry & He & [Hs | Hs]); exfalso.
      * assert (H : In (ascii_lower sym) stablecoins)
          by (apply on_the_list_up_to_case; eauto).
        apply in_stablecoins_In in H. congruence.
      * assert (H : In (ascii_lower nm) stablecoins)
          by (apply on_the_list_up_to_case; eauto).
        apply in_stablecoins_In in H. congruence.
Qed.

Lemma denylist_ignores_case_witness :
  exists keep,
    not_stablecoin (L := ascii_lowercase) (listed_token "Tether" "USDT" 1 5 9 2)
    = Ok keep /\
    (keep = false <->
     exists entry,
       In entry stablecoins /\
       (same_up_to_ascii_case "USDT" entry \/
        same_up_to_ascii_case "Tether" entry)).
Proof.
  apply (denylist_ignores_case (L := ascii_lowercase)
           (listed_token "Tether" "USDT" 1 5 9 2) "USDT" "Tether");
    reflexivity.
Defined.

(** ** MarketDataSource: the global aggregate *)

(** [get_global_data] returns the member ['data'] of a JSON object answered
    with status 200, and [None] for an object without it and for any final
    status other than 200; in none of these cases does it raise.  A 200
    answer that is a number other than 0, a float or an int, does make it
    raise [TypeError]. *)
Theorem get_global_data_answer (net : network) (w : world) :
  let r := final_response net (requests_made w) global_request in
  (status_code r <> 200 -> fst (get_global_data net w) = Ok PNone) /\
  (forall d, status_code r = 200 -> body r = Some (PDict d) ->
     fst (get_global_data net w)
     = Ok (match assoc "data" d with Some x => x | None => PNone end)) /\
  (forall x, status_code r = 200 -> body r = Some (PNum x) ->
     F64.is_zero x = false ->
     fst (get_global_data net w) = Raise TypeError) /\
  (forall z, status_code r = 200 -> body r = Some (PInt z) -> z <> 0 ->
     fst (get_global_data net w) = Raise TypeError).
Proof.
  pose proof (fetch_answer global_url None net w) as Hans.
  change {| url := global_url; params := None |} with global_request in Hans.
  cbn zeta in *.
  set (r := final_response net (requests_made w) global_request) in *.
  assert (Hrun : fst (get_global_data net w)
                 = match fst (fetch_with_rate_limit global_url None net w) with
                   | Ok gd =>
                       c ← (if truthy gd then py_in "data" gd else Ok false);
                       if c : bool then getitem gd "data" else Ok PNone
                   | Raise e => Raise e
                   end).
  { unfold get_global_data. unfold mbind at 1. unfold io_bind at 1.
    destruct (fetch_with_rate_limit global_url None net w) as [[gd | e] w1];
      [| reflexivity].
    cbn [fst]. unfold lift, emit, mbind, io_bind, mret, io_ret, res_bind.
    destruct (truthy gd); [| reflexivity].
    destruct (py_in "data" gd) as [[] |]; reflexivity. }
  rewrite Hrun, Hans. clear Hrun Hans.
  split; [| split; [| split]].
  - intros H. apply Z.eqb_neq in H. rewrite H. reflexivity.
  - intros d H Hb. rewrite H, Hb. cbn [Z.eqb Pos.eqb].
    destruct d as [| kv d']; [reflexivity |].
    cbn [truthy py_in mbind res_bind].
    destruct (assoc "data" (kv :: d')) eqn:E.
    + unfold getitem. rewrite E. reflexivity.
    + reflexivity.
  - intros x H Hb Hx. rewrite H, Hb. cbn [Z.eqb Pos.eqb truthy].
    rewrite Hx. reflexivity.
  - intros z H Hb Hz. rewrite H, Hb. cbn [Z.eqb Pos.eqb truthy].
    apply Z.eqb_neq in Hz. rewrite Hz. reflexivity.
Qed.

Lemma get_global_data_answer_witness :
  fst (get_global_data
         (always (ok_response (PDict [("data", sample_global 7)]))) world0)
  = Ok (sample_global 7).
Proof.
  pose proof (get_global_data_answer
                (always (ok_response (PDict [("data", sample_global 7)])))
                world0) as H.
  cbn zeta in H. destruct H as (_ & H & _).
  exact (H [("data", sample_global 7)] eq_refl eq_refl).
Defined.

(** ** TierOrchestrator: the paths that report a failed fetch *)

Lemma appends_only_weaken {A} (P Q : event -> Prop) (m : io A) :
  (forall e, P e -> Q e) -> appends_only P m -> appends_only Q m.
Proof.
  intros HPQ Hm net w. destruct (Hm net w) as [Hd Hw]. cbn zeta in *.
  split; [| exact Hw]. eapply Forall_impl; [exact Hd | exact HPQ].
Qed.

(** What a computation that only appends does is fixed by the number of
    requests made before it. *)
Lemma appends_only_at {A} (P : event -> Prop) (m : io A)
    (net : network) (n0 : nat) :
  appends_only P m ->
  exists (a : res A) (n : nat) (d : list event),
    Forall P d /\
    forall w, requests_made w = n0 ->
      m net w = (a, {| requests_made := n; trace := trace w ++ d |}).
Proof.
  intros Hm.
  exists (fst (m net (fresh n0))), (requests_made (snd (m net (fresh n0)))),
         (trace (snd (m net (fresh n0)))).
  destruct (Hm net (fresh n0)) as [Hd _]. cbn zeta in Hd. cbn in Hd.
  split; [exact Hd |]. intros w <-. now destruct (Hm net w) as [_ Hw].
Qed.

Ltac not_a_call_step :=
  first
    [ apply appends_only_bind; [| intros ? ]
    | apply appends_only_ret
    | apply appends_only_lift
    | apply appends_only_emit; exact I
    | apply appends_only_requests_get; exact I
    | match goal with
      | |- appends_only _ (if ?c then _ else _) => destruct c
      end ].

Lemma get_global_data_no_call : appends_only not_a_call get_global_data.
Proof.
  apply (appends_only_weaken no_token_work); [| apply get_global_data_appends_only].
  intros []; cbn; auto.
Qed.

Lemma get_top_tokens_no_call `{L : Lowercase} (page : Z) :
  appends_only not_a_call (get_top_tokens page).
Proof.
  unfold get_top_tokens, fetch_with_rate_limit. repeat not_a_call_step.
Qed.

Lemma events_since_app (w : world) (n : nat) (d : list event) :
  events_since w {| requests_made := n; trace := trace w ++ d |} = d.
Proof. unfold events_since. cbn [trace]. apply drop_app_length. Qed.

(** A page on which every token is on the denylist comes back as the empty
    list, not as [None]. *)
Theorem get_top_tokens_all_denylisted `{L : Lowercase} (page : Z) (net : network) (w : world)
    (l : list pyval) :
  final_response net (requests_made w) (markets_request page)
  = ok_response (PList l) ->
  Forall readable_token l ->
  Forall denylisted l ->
  fst (get_top_tokens page net w) = Ok (PList []) /\
  truthy (PList []) = false.
Proof.
  intros Hresp Hread Hden. split; [| reflexivity].
  destruct (filterM_readable l Hread) as (kept & Hk & Hsub & Hiff).
  assert (kept = []) as ->.
  { destruct kept as [| t kept']; [reflexivity |]. exfalso.
    assert (Hin : In t l).
    { apply list_elem_of_In. eapply elem_of_sublist; [| exact Hsub].
      apply list_elem_of_In. now left. }
    apply (Hiff t Hin); [now left |].
    rewrite List.Forall_forall in Hden. now apply Hden. }
  pose proof (fetch_answer markets_url (params (markets_request page)) net w)
    as Hans.
  change {| url := markets_url; params := params (markets_request page) |}
    with (markets_request page) in Hans.
  rewrite Hresp in Hans. cbn [ok_response status_code body Z.eqb Pos.eqb] in Hans.
  unfold get_top_tokens.
  change (Some _) with (params (markets_request page)).
  unfold mbind at 1. unfold io_bind at 1.
  destruct (fetch_with_rate_limit markets_url (params (markets_request page))
              net w) as [r w'].
  cbn [fst snd] in *. rewrite Hans.
  destruct l as [| t l']; [reflexivity |].
  cbn [truthy py_iter]. unfold lift, mbind, io_bind. now rewrite Hk.
Qed.

Lemma get_top_tokens_all_denylisted_witness :
  fst (get_top_tokens (L := ascii_lowercase) 1
         (always (ok_response (PList [listed_token "Tether" "USDT" 1 5 9 2;
                                      listed_token "Wrapped Bitcoin" "wbtc" 7 5 9 8])))
         world0)
  = Ok (PList []).
Proof.
  apply (get_top_tokens_all_denylisted (L := ascii_lowercase) 1
           (always (ok_response (PList [listed_token "Tether" "USDT" 1 5 9 2;
                                        listed_token "Wrapped Bitcoin" "wbtc" 7 5 9 8])))
           world0
           [listed_token "Tether" "USDT" 1 5 9 2;
            listed_token "Wrapped Bitcoin" "wbtc" 7 5 9 8]).
  - reflexivity.
  - repeat constructor;
      (eexists; split; [reflexivity | right; eexists; reflexivity]).
  - repeat constructor.
    + exists "USDT". split; [left; reflexivity | vm_compute; tauto].
    + exists "Wrapped Bitcoin". split; [right; reflexivity | vm_compute; tauto].
Defined.

Section FailedFetch.
Context `{S : Sorter} `{L : Lowercase}.

(** When the global aggregate is there but [get_top_tokens] returns [None]
    or an empty list, [rank_tier] writes that the fetch of the tier failed
    and returns; it has entered none of [calculate_metrics], [rank_tokens]
    and [calculate_additional_metrics]. *)
Theorem rank_tier_without_token_page (tier_number : Z) (net : network)
    (w : world) (g t : pyval) :
  fst (get_global_data net w) = Ok g -> truthy g = true ->
  fst (get_top_tokens tier_number net (snd (get_global_data net w))) = Ok t ->
  truthy t = false ->
  exists w',
    rank_tier tier_number net w = (Ok tt, w') /\
    trace w' = trace w ++ events_since w w' /\
    Forall not_a_call (events_since w w') /\
    last (events_since w w')
    = Some (StWrite (Text ("Failed to fetch token data for Tier "
                           +:+ pretty tier_number +:+ "."))).
Proof.
  intros Hg Hgt Ht Htf.
  destruct (appends_only_at not_a_call get_global_data net (requests_made w)
              get_global_data_no_call) as (a & n1 & d1 & Hd1 & Hrun1).
  rewrite (Hrun1 w eq_refl) in Hg, Ht. cbn [fst snd] in Hg, Ht. subst a.
  destruct (appends_only_at not_a_call (get_top_tokens tier_number) net n1
              (get_top_tokens_no_call tier_number)) as (b & n2 & d2 & Hd2 & Hrun2).
  rewrite (Hrun2 {| requests_made := n1; trace := trace w ++ d1 |} eq_refl)
    in Ht.
  cbn [fst] in Ht. subst b.
  set (header := StWrite (Text ("### Ranking Tier " +:+ pretty tier_number
                           +:+ " (Tokens " +:+ pretty (tier_number * 1000 - 999)
                           +:+ " to " +:+ pretty (tier_number * 1000) +:+ ")"))).
  set (failed := StWrite (Text ("Failed to fetch token data for Tier "
                                +:+ pretty tier_number +:+ "."))).
  exists {| requests_made := n2;
            trace := trace w ++ header :: d1 ++ d2 ++ [failed] |}.
  split; [| split; [| split]].
  - unfold rank_tier. fold header failed.
    unfold mbind at 1. unfold io_bind at 1. cbn [emit].
    unfold mbind at 1. unfold io_bind at 1.
    rewrite (Hrun1 {| requests_made := requests_made w;
                      trace := trace w ++ [header] |} eq_refl).
    rewrite Hgt. cbv beta iota.
    unfold mbind at 1. unfold io_bind at 1. cbn [trace requests_made].
    rewrite (Hrun2 {| requests_made := n1;
                      trace := (trace w ++ [header]) ++ d1 |} eq_refl).
    rewrite Htf. cbv beta iota. unfold emit. cbn [requests_made trace].
    rewrite <- !app_assoc. reflexivity.
  - now rewrite events_since_app.
  - rewrite events_since_app. constructor; [exact I |].
    apply Forall_app. split; [exact Hd1 |].
    apply Forall_app. split; [exact Hd2 | repeat constructor].
  - rewrite events_since_app.
    change (header :: d1 ++ d2 ++ [failed])
      with ((header :: d1) ++ d2 ++ [failed]).
    rewrite app_assoc. apply last_snoc.
Qed.

End FailedFetch.

Lemma rank_tier_without_token_page_witness :
  exists w',
    rank_tier (S := insertion_sorter) (L := ascii_lowercase) 3
      (fun n r => if String.eqb (url r) global_url
                  then ok_response (PDict [("data", sample_global 7)])
                  else ok_response (PList [listed_token "Tether" "USDT" 1 5 9 2]))
      world0 = (Ok tt, w') /\
    trace w' = trace world0 ++ events_since world0 w' /\
    Forall not_a_call (events_since world0 w') /\
    last (events_since world0 w')
    = Some (StWrite (Text "Failed to fetch token data for Tier 3.")).
Proof.
  apply (rank_tier_without_token_page (S := insertion_sorter) (L := ascii_lowercase) 3
           (fun n r => if String.eqb (url r) global_url
                       then ok_response (PDict [("data", sample_global 7)])
                       else ok_response (PList [listed_token "Tether" "USDT" 1 5 9 2]))
           world0 (sample_global 7) (PList [])); reflexivity.
Defined.

Lemma get_top_tokens_unavailable `{L : Lowercase} (page : Z) (net : network) (w : world) :
  status_code (final_response net (requests_made w) (markets_request page))
  <> 200 ->
  fst (get_top_tokens page net w) = Ok PNone.
Proof.
  intros Hstatus.
  pose proof (fetch_answer markets_url (params (markets_request page)) net w)
    as Hans.
  change {| url := markets_url; params := params (markets_request page) |}
    with (markets_request page) in Hans.
  cbn zeta in Hans. apply Z.eqb_neq in Hstatus. rewrite Hstatus in Hans.
  unfold get_top_tokens.
  change (Some _) with (params (markets_request page)).
  unfold mbind at 1. unfold io_bind at 1.
  destruct (fetch_with_rate_limit markets_url (params (markets_request page))
              net w) as [r w'].
  cbn [fst] in *. now rewrite Hans.
Qed.

Lemma fetch_starts_with_request (u : string)
    (ps : option (list (string * pyval))) (net : network) (w : world) :
  exists tail,
    trace (snd (fetch_with_rate_limit u ps net w))
    = trace w ++ RequestsGet {| url := u; params := ps |} :: tail.
Proof.
  unfold fetch_with_rate_limit, requests_get, response_json, emit, lift.
  unfold mbind, io_bind, mret, io_ret. cbn beta iota zeta.
  destruct (status_code (net (requests_made w) _) =? 429);
    cbn [requests_made trace snd].
  - destruct (status_code (net (S (requests_made w)) _) =? 200);
      cbn [snd trace]; rewrite <- ?app_assoc; eexists; reflexivity.
  - destruct (status_code (net (requests_made w) _) =? 200);
      cbn [snd trace]; rewrite <- ?app_assoc; eexists; reflexivity.
Qed.

(** The filter leaves the world as the fetch left it. *)
Lemma get_top_tokens_world `{L : Lowercase} (page : Z) (net : network) (w : world) :
  snd (get_top_tokens page net w)
  = snd (fetch_with_rate_limit markets_url (params (markets_request page)) net w).
Proof.
  unfold get_top_tokens.
  change (Some _) with (params (markets_request page)).
  unfold mbind at 1. unfold io_bind at 1.
  destruct (fetch_with_rate_limit markets_url (params (markets_request page))
              net w) as [[tokens | e] w']; [| reflexivity].
  cbn [snd]. destruct (truthy tokens); [| reflexivity].
  unfold lift, mbind, io_bind, mret, io_ret.
  destruct (py_iter tokens) as [l |]; [| reflexivity].
  destruct (filterM not_stablecoin l); reflexivity.
Qed.

Section FailedFetchAllTiers.
Context `{S : Sorter} `{L : Lowercase}.

(** When [get_global_data] returns [None] or an empty object,
    [rank_all_tiers] writes that the global fetch failed and returns: it
    has asked for no token page and entered no function of the engines. *)
Theorem rank_all_tiers_without_global_data (net : network) (w : world)
    (g : pyval) :
  fst (get_global_data net w) = Ok g -> truthy g = false ->
  exists w',
    rank_all_tiers net w = (Ok tt, w') /\
    trace w' = trace w ++ events_since w w' /\
    Forall no_token_work (events_since w w') /\
    last (events_since w w')
    = Some (StWrite (Text "Failed to fetch global market data.")).
Proof.
  intros Hg Hgf.
  destruct (appends_only_at no_token_work get_global_data net (requests_made w)
              get_global_data_appends_only) as (a & n1 & d1 & Hd1 & Hrun1).
  rewrite (Hrun1 w eq_refl) in Hg. cbn [fst] in Hg. subst a.
  set (header := StWrite (Text
         "### Ranking Top 3000 Tokens (Combining Tier 1, Tier 2, and Tier 3)")).
  set (failed := StWrite (Text "Failed to fetch global market data.")).
  exists {| requests_made := n1; trace := trace w ++ header :: d1 ++ [failed] |}.
  split; [| split; [| split]].
  - unfold rank_all_tiers. fold header failed.
    unfold mbind at 1. unfold io_bind at 1. cbn [emit].
    unfold mbind at 1. unfold io_bind at 1.
    rewrite (Hrun1 {| requests_made := requests_made w;
                      trace := trace w ++ [header] |} eq_refl).
    rewrite Hgf. cbv beta iota. unfold emit. cbn [requests_made trace].
    rewrite <- !app_assoc. reflexivity.
  - now rewrite events_since_app.
  - rewrite events_since_app. constructor; [exact I |].
    apply Forall_app. split; [exact Hd1 | repeat constructor].
  - rewrite events_since_app.
    change (header :: d1 ++ [failed]) with ((header :: d1) ++ [failed]).
    apply last_snoc.
Qed.

(** When the global aggregate is there and no request for a token page
    ends in status 200, [rank_all_tiers] asks for the three pages, writes
    that the fetch of token data failed, and enters no function of the
    engines. *)
Theorem rank_all_tiers_without_token_pages (net : network) (w : world)
    (g : pyval) :
  fst (get_global_data net w) = Ok g -> truthy g = true ->
  (forall n page,
     status_code (final_response net n (markets_request page)) <> 200) ->
  exists w',
    rank_all_tiers net w = (Ok tt, w') /\
    trace w' = trace w ++ events_since w w' /\
    Forall not_a_call (events_since w w') /\
    (forall page, In page [1; 2; 3] ->
       In (RequestsGet (markets_request page)) (events_since w w')) /\
    last (events_since w w')
    = Some (StWrite (Text "Failed to fetch token data from one or more tiers.")).
Proof.
  intros Hg Hgt Hnet.
  destruct (appends_only_at not_a_call get_global_data net (requests_made w)
              get_global_data_no_call) as (a & n1 & d1 & Hd1 & Hrun1).
  rewrite (Hrun1 w eq_refl) in Hg. cbn [fst] in Hg. subst a.
  assert (Hpage : forall page n0, exists n d,
            Forall not_a_call d /\ In (RequestsGet (markets_request page)) d /\
            forall w0, requests_made w0 = n0 ->
              get_top_tokens page net w0
              = (Ok PNone, {| requests_made := n; trace := trace w0 ++ d |})).
  { intros page n0.
    destruct (appends_only_at not_a_call (get_top_tokens page) net n0
                (get_top_tokens_no_call page)) as (b & n & d & Hd & Hrun).
    pose proof (get_top_tokens_unavailable page net (fresh n0) (Hnet _ _)) as Hb.
    pose proof (Hrun (fresh n0) eq_refl) as Hfresh.
    rewrite Hfresh in Hb. cbn [fst] in Hb. subst b.
    exists n, d. split; [exact Hd |]. split; [| exact Hrun].
    assert (Htrace : trace (snd (get_top_tokens page net (fresh n0))) = d)
      by now rewrite Hfresh.
    rewrite get_top_tokens_world in Htrace.
    destruct (fetch_starts_with_request markets_url
                (params (markets_request page)) net (fresh n0)) as [tail Htail].
    rewrite Htrace in Htail. rewrite Htail. cbn. now left. }
  destruct (Hpage 1 n1) as (n2 & d2 & Hd2 & Hin2 & Hrun2).
  destruct (Hpage 2 n2) as (n3 & d3 & Hd3 & Hin3 & Hrun3).
  destruct (Hpage 3 n3) as (n4 & d4 & Hd4 & Hin4 & Hrun4).
  set (header := StWrite (Text
         "### Ranking Top 3000 Tokens (Combining Tier 1, Tier 2, and Tier 3)")).
  set (failed := StWrite (Text
         "Failed to fetch token data from one or more tiers.")).
  exists {| requests_made := n4;
            trace := trace w ++ header :: d1 ++ d2 ++ d3 ++ d4 ++ [failed] |}.
  split; [| split; [| split; [| split]]].
  - unfold rank_all_tiers. fold header failed.
    unfold mbind at 1. unfold io_bind at 1. cbn [emit].
    unfold mbind at 1. unfold io_bind at 1. cbn [trace requests_made].
    rewrite (Hrun1 {| requests_made := requests_made w;
                      trace := trace w ++ [header] |} eq_refl).
    rewrite Hgt. cbv beta iota zeta.
    unfold mbind at 1. unfold io_bind at 1. cbn [trace requests_made].
    rewrite (Hrun2 {| requests_made := n1;
                      trace := (trace w ++ [header]) ++ d1 |} eq_refl).
    unfold mbind at 1. unfold io_bind at 1.
    cbn [extend_if truthy mret io_ret].
    unfold mbind at 1. unfold io_bind at 1. cbn [trace requests_made].
    rewrite (Hrun3 {| requests_made := n2;
                      trace := ((trace w ++ [header]) ++ d1) ++ d2 |} eq_refl).
    unfold mbind at 1. unfold io_bind at 1.
    cbn [extend_if truthy mret io_ret].
    unfold mbind at 1. unfold io_bind at 1. cbn [trace requests_made].
    rewrite (Hrun4 {| requests_made := n3;
                      trace := (((trace w ++ [header]) ++ d1) ++ d2) ++ d3 |}
                   eq_refl).
    unfold mbind at 1. unfold io_bind at 1.
    cbn [extend_if truthy mret io_ret].
    unfold emit. cbn [requests_made trace].
    rewrite <- !app_assoc. reflexivity.
  - now rewrite events_since_app.
  - rewrite events_since_app. constructor; [exact I |].
    repeat (apply Forall_app; split; [assumption |]). repeat constructor.
  - rewrite events_since_app. intros page Hpagein. right.
    rewrite !in_app_iff.
    destruct Hpagein as [<- | [<- | [<- | []]]]; auto.
  - rewrite events_since_app.
    change (header :: d1 ++ d2 ++ d3 ++ d4 ++ [failed])
      with ((header :: d1) ++ d2 ++ d3 ++ d4 ++ [failed]).
    rewrite !app_assoc. apply last_snoc.
Qed.

End FailedFetchAllTiers.

Lemma rank_all_tiers_without_global_data_witness :
  exists w',
    rank_all_tiers (S := insertion_sorter) (L := ascii_lowercase)
      (always (ok_response (PDict [("data", PDict [])]))) world0 = (Ok tt, w') /\
    trace w' = trace world0 ++ events_since world0 w' /\
    Forall no_token_work (events_since world0 w') /\
    last (events_since world0 w')
    = Some (StWrite (Text "Failed to fetch global market data.")).
Proof.
  apply (rank_all_tiers_without_global_data (S := insertion_sorter) (L := ascii_lowercase)
           (always (ok_response (PDict [("data", PDict [])]))) world0
           (PDict [])); reflexivity.
Defined.

Lemma rank_all_tiers_without_token_pages_witness :
  exists w',
    rank_all_tiers (S := insertion_sorter) (L := ascii_lowercase)
      (fun n r => if String.eqb (url r) global_url
                  then ok_response (PDict [("data", sample_global 7)])
                  else {| status_code := 503; body := None |})
      world0 = (Ok tt, w') /\
    trace w' = trace world0 ++ events_since world0 w' /\
    Forall not_a_call (events_since world0 w') /\
    (forall page, In page [1; 2; 3] ->
       In (RequestsGet (markets_request page)) (events_since world0 w')) /\
    last (events_since world0 w')
    = Some (StWrite (Text "Failed to fetch token data from one or more tiers.")).
Proof.
  apply (rank_all_tiers_without_token_pages (S := insertion_sorter) (L := ascii_lowercase)
           (fun n r => if String.eqb (url r) global_url
                       then ok_response (PDict [("data", sample_global 7)])
                       else {| status_code := 503; body := None |})
           world0 (sample_global 7)).
  - reflexivity.
  - reflexivity.
  - intros n page. discriminate.
Defined.

(** ** TierOrchestrator: the runs that complete *)

Lemma calls_app (fn : string) (a b : list event) :
  calls fn (a ++ b) = (calls fn a + calls fn b)%nat.
Proof. unfold calls. now rewrite List.filter_app, length_app. Qed.

Lemma calls_nil (fn : string) : calls fn [] = 0%nat.
Proof. reflexivity. Qed.

Lemma calls_cons (fn : string) (e : event) (l : list event) :
  calls fn (e :: l) = ((if is_call fn e then 1 else 0) + calls fn l)%nat.
Proof. unfold calls. cbn [List.filter]. now destruct (is_call fn e). Qed.

Lemma calls_repeat (fn f : string) (n : nat) :
  calls fn (repeat (Call f) n) = if String.eqb f fn then n else 0%nat.
Proof.
  induction n as [| n IH]; cbn [repeat].
  - now destruct (String.eqb f fn).
  - rewrite calls_cons, IH. cbn [is_call]. now destruct (String.eqb f fn).
Qed.

Lemma calls_no_call (fn : string) (d : list event) :
  Forall not_a_call d -> calls fn d = 0%nat.
Proof.
  induction 1 as [| e d He _ IH]; [reflexivity |].
  rewrite calls_cons, IH. now destruct e.
Qed.

Lemma io_bind_inv {A B} (m : io A) (f : A -> io B) (net : network)
    (w w' : world) (b : B) :
  (m ≫= f) net w = (Ok b, w') ->
  exists a w1, m net w = (Ok a, w1) /\ f a net w1 = (Ok b, w').
Proof.
  unfold mbind, io_bind. destruct (m net w) as [[a | e] w1]; [eauto | discriminate].
Qed.

Lemma emit_inv (e : event) (net : network) (w w' : world) (u : unit) :
  emit e net w = (Ok u, w') ->
  w' = {| requests_made := requests_made w; trace := trace w ++ [e] |}.
Proof. unfold emit. congruence. Qed.

Lemma lift_inv {A} (r : res A) (net : network) (w w' : world) (a : A) :
  lift r net w = (Ok a, w') -> r = Ok a /\ w' = w.
Proof. unfold lift. intros [= -> ->]. now split. Qed.

Lemma appends_only_inv {A} (P : event -> Prop) (m : io A) (net : network)
    (w w1 : world) (r : res A) :
  appends_only P m -> m net w = (r, w1) ->
  exists n d, Forall P d /\
              w1 = {| requests_made := n; trace := trace w ++ d |}.
Proof.
  intros Hm Hrun.
  destruct (appends_only_at P m net (requests_made w) Hm)
    as (a & n & d & Hd & Hat).
  rewrite (Hat w eq_refl) in Hrun. injection Hrun as _ <-. eauto.
Qed.

(** A loop whose every turn appends the one event [e]. *)
Lemma io_mapM_inv {A B} (f : A -> io B) (e : event) (l : list A)
    (net : network) (w w' : world) (ys : list B) :
  (forall a net w b w', f a net w = (Ok b, w') ->
     w' = {| requests_made := requests_made w; trace := trace w ++ [e] |}) ->
  io_mapM f l net w = (Ok ys, w') ->
  length ys = length l /\
  w' = {| requests_made := requests_made w;
          trace := trace w ++ repeat e (length l) |}.
Proof.
  intros Hf. revert w w' ys. induction l as [| a l IH]; intros w w' ys Hrun.
  - cbn in Hrun. injection Hrun as <- <-. split; [reflexivity |].
    destruct w; cbn. now rewrite app_nil_r.
  - cbn [io_mapM] in Hrun.
    apply io_bind_inv in Hrun as (b & w1 & Hb & Hrun).
    apply io_bind_inv in Hrun as (bs & w2 & Hbs & Hrun).
    injection Hrun as <- <-.
    apply Hf in Hb. apply IH in Hbs as [Hlen Hw2]. subst w1 w2.
    cbn [requests_made trace length repeat]. split; [now rewrite Hlen |].
    now rewrite <- app_assoc.
Qed.

Lemma rank_tokens_length `{S : Sorter} (tm : list metrics) (ranked : list scored) :
  rank_tokens tm = Ok ranked -> length ranked = Nat.min 30 (length tm).
Proof.
  destruct tm as [| m tm]; [discriminate |]. intros [= <-].
  rewrite length_take. f_equal.
  rewrite (Permutation_length (sort_by_perm _ _)).
  unfold score_frame. apply length_map.
Qed.

Lemma mapM_length {A B} (f : A -> res B) (l : list A) (ys : list B) :
  mapM f l = Ok ys -> length ys = length l.
Proof.
  revert ys. induction l as [| a l IH]; intros ys; cbn [mapM].
  - now intros [= <-].
  - destruct (f a) as [b |]; [| discriminate]. cbn [mbind res_bind].
    destruct (mapM f l) as [bs |]; [| discriminate]. cbn.
    intros [= <-]. cbn. f_equal. now apply IH.
Qed.

Ltac find_event :=
  repeat first [rewrite in_app_iff | progress cbn [In]]; tauto.

(** Names the number of entries into [fn] and computes it on the side. *)
Ltac count_calls_of fn :=
  match goal with
  | |- context [calls fn ?ev] =>
      let k := fresh "k" in
      let Hk := fresh "Hk" in
      remember (calls fn ev) as k eqn:Hk;
      repeat first
        [ rewrite calls_app in Hk
        | rewrite calls_cons in Hk
        | rewrite calls_repeat in Hk
        | rewrite calls_nil in Hk
        | rewrite calls_no_call in Hk by assumption ];
      cbn [is_call String.eqb Ascii.eqb Bool.eqb] in Hk
  end.

Ltac count_calls :=
  try count_calls_of "calculate_metrics";
  try count_calls_of "calculate_additional_metrics";
  try count_calls_of "rank_tokens".

Ltac no_call_step :=
  first
    [ progress cbv zeta
    | apply appends_only_bind; [| intros ? ]
    | apply appends_only_ret
    | apply appends_only_lift
    | apply appends_only_emit; exact I
    | apply appends_only_requests_get; exact I
    | match goal with
      | |- appends_only _ (if ?c then _ else _) => destruct c
      end ].

Section Runs.
Context `{S : Sorter} `{L : Lowercase}.

Lemma visualize_rankings_no_call (ranked : list scored) :
  appends_only not_a_call (visualize_rankings ranked).
Proof. unfold visualize_rankings. repeat no_call_step. Qed.

Lemma visualize_additional_metrics_no_call (df : list additional)
    (ranked : list scored) :
  appends_only not_a_call (visualize_additional_metrics df ranked).
Proof. unfold visualize_additional_metrics, report. repeat no_call_step. Qed.

Lemma calculate_metrics_turn (global_data : pyval) (a : pyval) (net : network)
    (w : world) (b : metrics) (w' : world) :
  (_ ← emit (Call "calculate_metrics"); lift (calculate_metrics a global_data))
    net w = (Ok b, w') ->
  w' = {| requests_made := requests_made w;
          trace := trace w ++ [Call "calculate_metrics"] |}.
Proof.
  intros H. apply io_bind_inv in H as (u & w1 & H1 & H).
  apply emit_inv in H1. apply lift_inv in H as [_ ->]. exact H1.
Qed.

Lemma additional_row_turn (a : pyval) (net : network) (w : world)
    (b : additional) (w' : world) :
  additional_row a net w = (Ok b, w') ->
  w' = {| requests_made := requests_made w;
          trace := trace w ++ [Call "calculate_additional_metrics"] |}.
Proof.
  unfold additional_row. intros H.
  apply io_bind_inv in H as (u & w1 & H1 & H). apply emit_inv in H1.
  apply io_bind_inv in H as ([[pg pc] mv] & w2 & H2 & H).
  apply lift_inv in H2 as [_ ->].
  apply io_bind_inv in H as (nm & w3 & H3 & H).
  apply lift_inv in H3 as [_ ->]. injection H as _ <-. exact H1.
Qed.

Lemma py_iter_truthy (v : pyval) (l : list pyval) :
  truthy v = true -> py_iter v = Ok l -> (0 < length l)%nat.
Proof.
  destruct v as [| b | z | x | s | l0 | d]; cbn; try discriminate;
    try (intros _ H; discriminate H).
  - destruct s; [discriminate |]. intros _ [= <-]. cbn. lia.
  - destruct l0; [discriminate |]. intros _ [= <-]. cbn. lia.
  - destruct d; [discriminate |]. intros _ [= <-]. cbn. lia.
Qed.

(** In every run of [rank_tier] that completes, [calculate_additional_metrics]
    was entered as often as [calculate_metrics]: for each token that was
    scored, not only for the 30 that rank highest.  Either no token was
    scored and nothing was ranked, or [rank_tokens] was entered once, the
    table of additional metrics has a row for each scored token, the ranked
    table has the 30 best of them (all of them when there are fewer), and
    the bar chart of final scores shows the ranked tokens. *)
Theorem rank_tier_covers_every_token (tier_number : Z) (net : network)
    (w w' : world) :
  rank_tier tier_number net w = (Ok tt, w') ->
  let ev := events_since w w' in
  let n := calls "calculate_metrics" ev in
  trace w' = trace w ++ ev /\
  calls "calculate_additional_metrics" ev = n /\
  ((n = 0%nat /\ calls "rank_tokens" ev = 0%nat) \/
   ((0 < n)%nat /\ calls "rank_tokens" ev = 1%nat /\
    exists ranked df labels,
      In (StWrite (Ranked ranked)) ev /\
      In (StWrite (Additional df)) ev /\
      In (StPyplot "Top 30 Tokens by Final Score" labels) ev /\
      length df = n /\
      length ranked = Nat.min 30 n /\
      Permutation labels (map (fun r => token (row r)) ranked))).
Proof.
  unfold rank_tier. intros H.
  apply io_bind_inv in H as (u0 & w0 & H0 & H). apply emit_inv in H0.
  apply io_bind_inv in H as (g & w1 & H1 & H).
  apply (appends_only_inv _ _ _ _ _ _ get_global_data_no_call) in H1
    as (n1 & d1 & Hd1 & Hw1).
  subst w0 w1. cbn [trace requests_made] in *.
  destruct (truthy g).
  2: { apply emit_inv in H. subst w'. cbn [trace requests_made].
       rewrite <- !app_assoc. cbn zeta. rewrite events_since_app.
       split; [reflexivity |].
       count_calls. split; [lia | left; split; lia]. }
  apply io_bind_inv in H as (t & w2 & H2 & H).
  apply (appends_only_inv _ _ _ _ _ _ (get_top_tokens_no_call tier_number)) in H2
    as (n2 & d2 & Hd2 & Hw2).
  subst w2. cbn [trace requests_made] in *.
  destruct (truthy t) eqn:Htruthy.
  2: { apply emit_inv in H. subst w'. cbn [trace requests_made].
       rewrite <- !app_assoc. cbn zeta. rewrite events_since_app.
       split; [reflexivity |].
       count_calls. split; [lia | left; split; lia]. }
  apply io_bind_inv in H as (tokens & w3 & H3 & H).
  apply lift_inv in H3 as [Htokens ->].
  pose proof (py_iter_truthy _ _ Htruthy Htokens) as Hpos.
  apply io_bind_inv in H as (tm & w4 & H4 & H).
  apply (io_mapM_inv _ (Call "calculate_metrics")) in H4 as [Htm Hw4];
    [| apply calculate_metrics_turn].
  subst w4. cbn [trace requests_made] in *.
  apply io_bind_inv in H as (u5 & w5 & H5 & H). apply emit_inv in H5.
  apply io_bind_inv in H as (ranked & w6 & H6 & H).
  apply lift_inv in H6 as [Hranked ->].
  apply rank_tokens_length in Hranked.
  apply io_bind_inv in H as (u7 & w7 & H7 & H). apply emit_inv in H7.
  apply io_bind_inv in H as (u8 & w8 & H8 & H). apply emit_inv in H8.
  apply io_bind_inv in H as (u9 & w9 & H9 & H).
  assert (Hlabels : exists n9 d9 labels,
            Forall not_a_call d9 /\
            In (StPyplot "Top 30 Tokens by Final Score" labels) d9 /\
            Permutation labels (map (fun r => token (row r)) ranked) /\
            w9 = {| requests_made := n9; trace := trace w8 ++ d9 |}).
  { pose proof H9 as H9'.
    apply (appends_only_inv _ _ _ _ _ _ (visualize_rankings_no_call ranked))
      in H9' as (n9 & d9 & Hd9 & Hw9).
    exists n9, d9, (map (fun r => token (row r))
                        (sort_by by_final_score_desc ranked)).
    split; [exact Hd9 |]. split; [| split; [| exact Hw9]].
    - unfold visualize_rankings in H9.
      apply io_bind_inv in H9 as (u & wa & Ha & H9). apply emit_inv in Ha.
      cbv zeta in H9. apply emit_inv in H9. rewrite Hw9 in H9. subst wa.
      cbn [trace requests_made] in H9. injection H9 as _ H9.
      rewrite <- app_assoc in H9. apply app_inv_head in H9. subst d9.
      cbn. right. now left.
    - apply Permutation_map. apply sort_by_perm. }
  destruct Hlabels as (n9 & d9 & labels & Hd9 & Hplot & Hperm & Hw9).
  apply io_bind_inv in H as (df & w10 & H10 & H).
  apply (io_mapM_inv _ (Call "calculate_additional_metrics")) in H10
    as [Hdf Hw10]; [| apply additional_row_turn].
  apply io_bind_inv in H as (u11 & w11 & H11 & H). apply emit_inv in H11.
  apply io_bind_inv in H as (u12 & w12 & H12 & H). apply emit_inv in H12.
  apply (appends_only_inv _ _ _ _ _ _
           (visualize_additional_metrics_no_call df ranked)) in H
    as (n13 & d13 & Hd13 & Hw').
  subst. cbn [trace requests_made].
  rewrite <- !app_assoc. cbn zeta. rewrite events_since_app.
  split; [reflexivity |].
  count_calls.
  split; [lia |]. right.
  split; [lia |]. split; [lia |].
  exists ranked, df, labels.
  split; [| split; [| split; [| split; [| split]]]].
  - find_event.
  - find_event.
  - find_event.
  - lia.
  - rewrite Hranked, Htm. f_equal. lia.
  - exact Hperm.
Qed.

End Runs.

Lemma rank_tier_covers_every_token_witness :
  let ev :=
    events_since world0
      (snd (rank_tier (S := insertion_sorter) (L := ascii_lowercase) 1
              (sample_network [listed_token "Bitcoin" "btc" 7 5 9 8;
                               listed_token "Tether" "USDT" 1 5 9 2;
                               listed_token "Ether" "eth" 3 6 9 4])
              world0)) in
  calls "calculate_additional_metrics" ev = calls "calculate_metrics" ev /\
  calls "calculate_metrics" ev = 2%nat.
Proof.
  pose proof (rank_tier_covers_every_token (S := insertion_sorter) (L := ascii_lowercase) 1
                (sample_network [listed_token "Bitcoin" "btc" 7 5 9 8;
                                 listed_token "Tether" "USDT" 1 5 9 2;
                                 listed_token "Ether" "eth" 3 6 9 4])
                world0
                (snd (rank_tier (S := insertion_sorter) (L := ascii_lowercase) 1
                        (sample_network [listed_token "Bitcoin" "btc" 7 5 9 8;
                                         listed_token "Tether" "USDT" 1 5 9 2;
                                         listed_token "Ether" "eth" 3 6 9 4])
                        world0))) as H.
  cbv zeta in *. destruct H as (_ & H & _).
  - vm_compute. reflexivity.
  - split; [exact H | vm_compute; reflexivity].
Defined.

(** ** TierOrchestrator: the pooled run *)

Ltac quiet_step :=
  first
    [ progress cbv zeta
    | apply appends_only_bind; [| intros ? ]
    | apply appends_only_ret
    | apply appends_only_lift
    | apply appends_only_emit; first [exact I | cbn; discriminate]
    | apply appends_only_requests_get; exact I
    | match goal with
      | |- appends_only _ (if ?c then _ else _) => destruct c
      end ].

Lemma quiet_not_a_call (d : list event) :
  Forall quiet_event d -> Forall not_a_call d.
Proof.
  intros H. eapply Forall_impl; [exact H |]. intros []; cbn; auto.
Qed.

Lemma quiet_no_chart (d : list event) :
  Forall quiet_event d -> Forall no_chart d.
Proof.
  intros H. eapply Forall_impl; [exact H |]. intros []; cbn; auto.
Qed.

Lemma quiet_no_line (d : list event) :
  Forall quiet_event d -> Forall no_line d.
Proof.
  intros H. eapply Forall_impl; [exact H |]. intros [| | | | [] | |]; cbn; auto.
Qed.

Lemma no_chart_absent (d : list event) (labels : list pyval) :
  Forall no_chart d -> ~ In (StPyplot final_score_chart labels) d.
Proof.
  intros H Hin. rewrite List.Forall_forall in H. now apply (H _ Hin).
Qed.

Lemma no_line_absent (d : list event) :
  Forall no_line d -> ~ In (StWrite (Text no_pooled_tokens_line)) d.
Proof.
  intros H Hin. rewrite List.Forall_forall in H. now apply (H _ Hin).
Qed.

Lemma Forall_repeated {A} (P : A -> Prop) (x : A) (n : nat) :
  P x -> Forall P (repeat x n).
Proof. intros Hx. induction n; cbn; constructor; auto. Qed.

Ltac forall_events :=
  repeat first
    [ apply Forall_app; split
    | apply Forall_cons; split
    | apply Forall_nil
    | assumption
    | exact I
    | apply Forall_repeated
    | solve [cbn; discriminate] ].

Lemma get_global_data_quiet : appends_only quiet_event get_global_data.
Proof. unfold get_global_data, fetch_with_rate_limit. repeat quiet_step. Qed.

Lemma get_top_tokens_quiet `{L : Lowercase} (page : Z) :
  appends_only quiet_event (get_top_tokens page).
Proof. unfold get_top_tokens, fetch_with_rate_limit. repeat quiet_step. Qed.

Lemma extend_if_inv (all_tokens : list pyval) (t : pyval) (net : network)
    (w w' : world) (pooled : list pyval) :
  extend_if all_tokens t net w = (Ok pooled, w') ->
  w' = w /\ exists l, pooled = all_tokens ++ l.
Proof.
  unfold extend_if. destruct (truthy t).
  - intros H. apply io_bind_inv in H as (l & w1 & H1 & H).
    apply lift_inv in H1 as [_ ->]. injection H as <- <-. eauto.
  - intros [= <- <-]. split; [reflexivity |]. exists []. now rewrite app_nil_r.
Qed.

Section PooledRun.
Context `{S : Sorter} `{L : Lowercase}.

Lemma visualize_additional_metrics_quiet (df : list additional)
    (ranked : list scored) :
  appends_only quiet_event (visualize_additional_metrics df ranked).
Proof. unfold visualize_additional_metrics, report. repeat quiet_step. Qed.

(** In every run of [rank_all_tiers] that completes,
    [calculate_additional_metrics] was entered as often as
    [calculate_metrics], and the bar chart of final scores that [rank_tier]
    draws is not drawn.  Either no token was pooled and nothing was ranked,
    or [rank_tokens] was entered once on the pool, the line about a failed
    fetch of token data is not written (whichever pages failed), the table
    of additional metrics has a row for each pooled token and the ranked
    table the 30 best of them. *)
Theorem rank_all_tiers_covers_every_token (net : network) (w w' : world) :
  rank_all_tiers net w = (Ok tt, w') ->
  let ev := events_since w w' in
  let n := calls "calculate_metrics" ev in
  trace w' = trace w ++ ev /\
  calls "calculate_additional_metrics" ev = n /\
  (forall labels, ~ In (StPyplot final_score_chart labels) ev) /\
  ((n = 0%nat /\ calls "rank_tokens" ev = 0%nat) \/
   ((0 < n)%nat /\ calls "rank_tokens" ev = 1%nat /\
    ~ In (StWrite (Text no_pooled_tokens_line)) ev /\
    exists ranked df,
      In (StWrite (Ranked ranked)) ev /\
      In (StWrite (Additional df)) ev /\
      length df = n /\
      length ranked = Nat.min 30 n)).
Proof.
  unfold rank_all_tiers. intros H.
  apply io_bind_inv in H as (u0 & w0 & H0 & H). apply emit_inv in H0.
  apply io_bind_inv in H as (g & w1 & H1 & H).
  apply (appends_only_inv _ _ _ _ _ _ get_global_data_quiet) in H1
    as (n1 & d1 & Hq1 & Hw1).
  pose proof (quiet_not_a_call _ Hq1) as Hd1.
  pose proof (quiet_no_chart _ Hq1) as Hc1.
  pose proof (quiet_no_line _ Hq1) as Hl1.
  subst w0 w1. cbn [trace requests_made] in *.
  destruct (truthy g).
  2: { apply emit_inv in H. subst w'. cbn [trace requests_made].
       rewrite <- !app_assoc. cbn zeta. rewrite events_since_app.
       split; [reflexivity |]. count_calls.
       split; [lia |]. split; [| left; split; lia].
       intros labels. apply no_chart_absent. forall_events. }
  cbv zeta in H.
  apply io_bind_inv in H as (t1 & w2 & H2 & H).
  apply (appends_only_inv _ _ _ _ _ _ (get_top_tokens_quiet 1)) in H2
    as (n2 & d2 & Hq2 & Hw2).
  apply io_bind_inv in H as (p1 & w2' & He1 & H).
  apply extend_if_inv in He1 as [-> _].
  apply io_bind_inv in H as (t2 & w3 & H3 & H).
  apply (appends_only_inv _ _ _ _ _ _ (get_top_tokens_quiet 2)) in H3
    as (n3 & d3 & Hq3 & Hw3).
  apply io_bind_inv in H as (p2 & w3' & He2 & H).
  apply extend_if_inv in He2 as [-> _].
  apply io_bind_inv in H as (t3 & w4 & H4 & H).
  apply (appends_only_inv _ _ _ _ _ _ (get_top_tokens_quiet 3)) in H4
    as (n4 & d4 & Hq4 & Hw4).
  apply io_bind_inv in H as (pooled & w4' & He3 & H).
  apply extend_if_inv in He3 as [-> _].
  pose proof (quiet_not_a_call _ Hq2) as Hd2.
  pose proof (quiet_no_chart _ Hq2) as Hc2.
  pose proof (quiet_no_line _ Hq2) as Hl2.
  pose proof (quiet_not_a_call _ Hq3) as Hd3.
  pose proof (quiet_no_chart _ Hq3) as Hc3.
  pose proof (quiet_no_line _ Hq3) as Hl3.
  pose proof (quiet_not_a_call _ Hq4) as Hd4.
  pose proof (quiet_no_chart _ Hq4) as Hc4.
  pose proof (quiet_no_line _ Hq4) as Hl4.
  subst w2 w3 w4. cbn [trace requests_made] in *.
  destruct (truthy (PList pooled)) eqn:Htruthy.
  2: { apply emit_inv in H. subst w'. cbn [trace requests_made].
       rewrite <- !app_assoc. cbn zeta. rewrite events_since_app.
       split; [reflexivity |]. count_calls.
       split; [lia |]. split; [| left; split; lia].
       intros labels. apply no_chart_absent. forall_events. }
  assert (Hpos : (0 < length pooled)%nat)
    by (destruct pooled; [discriminate | cbn; lia]).
  apply io_bind_inv in H as (tm & w5 & H5 & H).
  apply (io_mapM_inv _ (Call "calculate_metrics")) in H5 as [Htm Hw5];
    [| apply calculate_metrics_turn].
  subst w5. cbn [trace requests_made] in *.
  apply io_bind_inv in H as (u6 & w6 & H6 & H). apply emit_inv in H6.
  apply io_bind_inv in H as (ranked & w7 & H7 & H).
  apply lift_inv in H7 as [Hranked ->].
  apply rank_tokens_length in Hranked.
  apply io_bind_inv in H as (u8 & w8 & H8 & H). apply emit_inv in H8.
  apply io_bind_inv in H as (u9 & w9 & H9 & H). apply emit_inv in H9.
  apply io_bind_inv in H as (df & w10 & H10 & H).
  apply (io_mapM_inv _ (Call "calculate_additional_metrics")) in H10
    as [Hdf Hw10]; [| apply additional_row_turn].
  apply io_bind_inv in H as (u11 & w11 & H11 & H). apply emit_inv in H11.
  apply io_bind_inv in H as (u12 & w12 & H12 & H). apply emit_inv in H12.
  apply (appends_only_inv _ _ _ _ _ _
           (visualize_additional_metrics_quiet df ranked)) in H
    as (n13 & d13 & Hq13 & Hw').
  pose proof (quiet_not_a_call _ Hq13) as Hd13.
  pose proof (quiet_no_chart _ Hq13) as Hc13.
  pose proof (quiet_no_line _ Hq13) as Hl13.
  subst. cbn [trace requests_made].
  rewrite <- !app_assoc. cbn zeta. rewrite events_since_app.
  split; [reflexivity |]. count_calls.
  split; [lia |]. split.
  { intros labels. apply no_chart_absent. forall_events. }
  right. split; [lia |]. split; [lia |]. split.
  { apply no_line_absent. forall_events. }
  exists ranked, df.
  split; [| split; [| split]].
  - find_event.
  - find_event.
  - lia.
  - rewrite Hranked, Htm. f_equal. lia.
Qed.

End PooledRun.

Lemma rank_all_tiers_covers_every_token_witness :
  let ev :=
    events_since world0
      (snd (rank_all_tiers (S := insertion_sorter) (L := ascii_lowercase)
              (partial_network [listed_token "Bitcoin" "btc" 7 5 9 8;
                                listed_token "Ether" "eth" 3 6 9 4])
              world0)) in
  calls "calculate_metrics" ev = 4%nat /\
  calls "calculate_additional_metrics" ev = 4%nat /\
  ~ In (StWrite (Text no_pooled_tokens_line)) ev.
Proof.
  pose proof (rank_all_tiers_covers_every_token (S := insertion_sorter) (L := ascii_lowercase)
                (partial_network [listed_token "Bitcoin" "btc" 7 5 9 8;
                                  listed_token "Ether" "eth" 3 6 9 4])
                world0
                (snd (rank_all_tiers (S := insertion_sorter) (L := ascii_lowercase)
                        (partial_network [listed_token "Bitcoin" "btc" 7 5 9 8;
                                          listed_token "Ether" "eth" 3 6 9 4])
                        world0))) as H.
  cbv zeta in *.
  assert (Hn : calls "calculate_metrics"
                 (events_since world0
                    (snd (rank_all_tiers (S := insertion_sorter) (L := ascii_lowercase)
                            (partial_network [listed_token "Bitcoin" "btc" 7 5 9 8;
                                              listed_token "Ether" "eth" 3 6 9 4])
                            world0))) = 4%nat)
    by (vm_compute; reflexivity).
  destruct H as (_ & Hcam & _ & [[H0 _] | (_ & _ & Hline & _)]).
  - vm_compute. reflexivity.
  - rewrite Hn in H0. discriminate H0.
  - split; [exact Hn |]. split; [now rewrite Hcam | exact Hline].
Defined.

(** ** CategoryIntersectionAnalyzer: what the three sets hold *)

(** The three sets are what their names say: a name is in
    [tokens_in_all_four] exactly when it is in all four lists, in
    [tokens_in_three] exactly when it is in three of them and in
    [tokens_in_two] exactly when it is in two; a name in fewer than two lists
    is in none of the sets. *)
Theorem partitions_count_memberships (x : string)
    (gains change mc_vol final : gset string) :
  let k := memberships x gains change mc_vol final in
  (x ∈ tokens_in_all_four gains change mc_vol final <-> k = 4%nat) /\
  (x ∈ tokens_in_three gains change mc_vol final <-> k = 3%nat) /\
  (x ∈ tokens_in_two gains change mc_vol final <-> k = 2%nat).
Proof.
  unfold memberships, tokens_in_two, tokens_in_three, tokens_in_all_four.
  cbv zeta.
  rewrite !elem_of_difference, !elem_of_union, !elem_of_intersection.
  repeat case_bool_decide; cbn; intuition lia.
Qed.

(** ** MetricEngine: what the two functions return and when they raise *)

Lemma res_bind_inv {A B} (m : res A) (f : A -> res B) (b : B) :
  (x ← m; f x) = Ok b -> exists a, m = Ok a /\ f a = Ok b.
Proof. destruct m as [a | e]; [eauto | discriminate]. Qed.

Lemma gtb_zero_is_positive (x : float) :
  F64.gtb x F64.zero = true -> is_positive x = true.
Proof.
  unfold F64.gtb, SFltb, F64.zero.
  destruct x as [s | s | | s m e]; try destruct s; simpl; congruence.
Qed.

Lemma round_not_below_zero (m e : Z) (l : location) :
  F64.ltb (binary_round_aux F64.prec F64.emax false m e l) F64.zero = false.
Proof.
  unfold binary_round_aux.
  destruct (shr_fexp F64.prec F64.emax m e l) as [mrs' e'].
  destruct (shr_fexp F64.prec F64.emax _ e' loc_Exact) as [mrs'' e''].
  destruct (shr_m mrs'') as [| p | p]; [reflexivity | | reflexivity].
  destruct (e'' <=? F64.emax - F64.prec); reflexivity.
Qed.

(** The quotient of two numbers above zero is not below zero. *)
Lemma div_positive (x y : float) :
  is_positive x = true -> is_positive y = true ->
  F64.ltb (F64.div x y) F64.zero = false.
Proof.
  destruct x as [[] | [] | | [] mx ex]; try discriminate;
    destruct y as [[] | [] | | [] my ey]; try discriminate;
    intros _ _; try reflexivity.
  unfold F64.div, SFdiv.
  destruct (SFdiv_core_binary F64.prec F64.emax (Z.pos mx) ex (Z.pos my) ey)
    as [[mz ez] lz].
  apply round_not_below_zero.
Qed.

Lemma exact_positive (z : Z) : 0 < z -> is_positive (F64.exact z) = true.
Proof. destruct z; [lia | reflexivity | lia]. Qed.

Lemma quotient_positive (x y : number) :
  gt0 x = true -> gt0 y = true -> F64.ltb (quotient x y) F64.zero = false.
Proof.
  destruct x as [a | f], y as [b | g]; cbn [gt0 quotient]; intros Hx Hy;
    apply div_positive;
    try (apply exact_positive; now apply Z.ltb_lt);
    try (apply of_Z_positive; now apply Z.ltb_lt);
    now apply gtb_zero_is_positive.
Qed.

Lemma positive_or_one_inv (tok : pyval) (k : string) (v : pyval) :
  positive_or_one tok k = Ok v ->
  (exists x, field_num tok k x) /\
  exists y, num_of v = Some y /\ gt0 y = true.
Proof.
  unfold positive_or_one. intros H.
  apply res_bind_inv in H as (x & Hx & H).
  apply res_bind_inv in H as (c & Hc & H).
  unfold py_gt0 in Hc. destruct (num_of x) as [fx |] eqn:Hnum; [| discriminate].
  injection Hc as <-. split; [exists fx, x; now split |].
  destruct (gt0 fx) eqn:Hgt.
  - rewrite Hx in H. injection H as <-. exists fx. now split.
  - injection H as <-. eexists. split; reflexivity.
Qed.

Lemma positive_or_one_raises (tok : pyval) (k : string) (e : exn) :
  positive_or_one tok k = Raise e ->
  (exists v, getitem tok k = Ok v) ->
  (_ ← Raise e : res pyval; Raise e : res (float * pyval * float))
  = Raise TypeError.
Proof.
  unfold positive_or_one. intros H [v Hv]. rewrite Hv in H.
  cbn [mbind res_bind] in H. unfold py_gt0 in H.
  destruct (num_of v) as [x |].
  - cbn [mbind res_bind] in H. destruct (gt0 x); discriminate H.
  - cbn in H. now injection H as <-.
Qed.

(** Potential gains and the MC/Volume ratio are never below zero. *)
Theorem additional_metrics_not_negative (tok : pyval) (pg mv : float)
    (pc : pyval) :
  calculate_additional_metrics tok = Ok (pg, pc, mv) ->
  F64.ltb pg F64.zero = false /\ F64.ltb mv F64.zero = false.
Proof.
  unfold calculate_additional_metrics. intros H.
  apply res_bind_inv in H as (cp & Hcp & H).
  apply res_bind_inv in H as (ath & Hath & H).
  apply res_bind_inv in H as (tv & Htv & H).
  apply res_bind_inv in H as (mc & Hmc & H).
  apply res_bind_inv in H as (g & Hg & H).
  apply res_bind_inv in H as (p & _ & H).
  apply res_bind_inv in H as (r & Hr & H).
  injection H as <- _ <-.
  apply positive_or_one_inv in Hcp as (_ & ycp & Ncp & Pcp).
  apply positive_or_one_inv in Hath as (_ & yath & Nath & Path).
  apply positive_or_one_inv in Htv as (_ & ytv & Ntv & Ptv).
  apply positive_or_one_inv in Hmc as (_ & ymc & Nmc & Pmc).
  rewrite (py_truediv_num _ _ _ _ Nath Ncp) in Hg.
  rewrite (py_truediv_num _ _ _ _ Nmc Ntv) in Hr.
  apply truediv_returns in Hg, Hr. subst g r.
  split; now apply quotient_positive.
Qed.

Lemma additional_metrics_not_negative_witness :
  exists pg pc mv,
    calculate_additional_metrics (sample_token (-3) 0 40 8 []) = Ok (pg, pc, mv) /\
    F64.ltb pg F64.zero = false /\ F64.ltb mv F64.zero = false.
Proof.
  eexists _, _, _. split; [vm_compute; reflexivity |].
  apply (additional_metrics_not_negative (sample_token (-3) 0 40 8 [])
           _ _ (PInt 0)).
  vm_compute. reflexivity.
Defined.

(** [calculate_additional_metrics] returns only when the token holds a
    number under each of ['current_price'], ['ath'], ['total_volume'] and
    ['market_cap'].  When it does hold four numbers the call returns, or
    raises [OverflowError] for an int or a quotient of ints too large for a
    float; it returns when each of the four numbers is a float or an int
    below 2^1023 in magnitude.  A null under one
    of the keys is not replaced by 1: the call raises [TypeError]. *)
Theorem additional_metrics_need_four_numbers (tok : pyval) :
  ((exists r, calculate_additional_metrics tok = Ok r) ->
   exists cp ath tv mc,
     field_num tok "current_price" cp /\ field_num tok "ath" ath /\
     field_num tok "total_volume" tv /\ field_num tok "market_cap" mc) /\
  (forall cp ath tv mc,
     field_num tok "current_price" cp -> field_num tok "ath" ath ->
     field_num tok "total_volume" tv -> field_num tok "market_cap" mc ->
     returns_or_overflows (calculate_additional_metrics tok) (fun _ => True) /\
     (in_float_range cp = true -> in_float_range ath = true ->
      in_float_range tv = true -> in_float_range mc = true ->
      exists r, calculate_additional_metrics tok = Ok r)) /\
  (forall k, In k ["current_price"; "ath"; "total_volume"; "market_cap"] ->
     getitem tok k = Ok PNone ->
     (forall k', In k' ["current_price"; "ath"; "total_volume"; "market_cap"] ->
        exists v, getitem tok k' = Ok v) ->
     calculate_additional_metrics tok = Raise TypeError).
Proof.
  split; [| split].
  - intros [[[pg pc] mv] H]. unfold calculate_additional_metrics in H.
    apply res_bind_inv in H as (cp & Hcp & H).
    apply res_bind_inv in H as (ath & Hath & H).
    apply res_bind_inv in H as (tv & Htv & H).
    apply res_bind_inv in H as (mc & Hmc & _).
    apply positive_or_one_inv in Hcp as ([x1 H1] & _).
    apply positive_or_one_inv in Hath as ([x2 H2] & _).
    apply positive_or_one_inv in Htv as ([x3 H3] & _).
    apply positive_or_one_inv in Hmc as ([x4 H4] & _).
    now exists x1, x2, x3, x4.
  - intros cp ath tv mc Hcp Hath Htv Hmc.
    destruct (calculate_additional_metrics_on_numbers tok tv cp mc ath
                Htv Hcp Hmc Hath) as (pc & ->).
    split.
    + destruct (truediv_by_positive (or_one ath) (or_one cp) (or_one_gt0 cp))
        as [-> | ->]; [| reflexivity].
      cbn [mbind res_bind].
      destruct (truediv_by_positive (or_one mc) (or_one tv) (or_one_gt0 tv))
        as [-> | ->]; [exact I | reflexivity].
    + intros Fcp Fath Ftv Fmc.
      rewrite !truediv_in_range;
        auto using or_one_in_range, or_one_gt0.
      cbn [mbind res_bind]. eauto.
  - intros k Hk Hnull Hall.
    assert (Hnot : forall v, positive_or_one tok k = Ok v -> False).
    { intros v Hv. apply positive_or_one_inv in Hv as ((x & v' & G & N) & _).
      rewrite Hnull in G. injection G as <-. discriminate N. }
    unfold calculate_additional_metrics.
    destruct (positive_or_one tok "current_price") as [cp | e] eqn:Hcp.
    2: { apply (positive_or_one_raises _ _ _ Hcp), Hall. cbn; tauto. }
    destruct (positive_or_one tok "ath") as [ath | e] eqn:Hath.
    2: { apply (positive_or_one_raises _ _ _ Hath), Hall. cbn; tauto. }
    destruct (positive_or_one tok "total_volume") as [tv | e] eqn:Htv.
    2: { apply (positive_or_one_raises _ _ _ Htv), Hall. cbn; tauto. }
    destruct (positive_or_one tok "market_cap") as [mc | e] eqn:Hmc.
    2: { apply (positive_or_one_raises _ _ _ Hmc), Hall. cbn; tauto. }
    exfalso. cbn [In] in Hk.
    destruct Hk as [<- | [<- | [<- | [<- | []]]]]; eapply Hnot; eassumption.
Qed.

Lemma additional_metrics_need_four_numbers_witness :
  calculate_additional_metrics
    (PDict [("name", PStr "Delisted"); ("symbol", PStr "dls");
            ("current_price", PNone); ("total_volume", PInt 0);
            ("market_cap", PInt 0); ("ath", PNum (F64.of_Z 3))])
  = Raise TypeError /\
  exists r,
    calculate_additional_metrics (sample_token 2 10 40 8 []) = Ok r.
Proof.
  split.
  - apply (proj2 (proj2 (additional_metrics_need_four_numbers
             (PDict [("name", PStr "Delisted"); ("symbol", PStr "dls");
                     ("current_price", PNone); ("total_volume", PInt 0);
                     ("market_cap", PInt 0); ("ath", PNum (F64.of_Z 3))])))
             "current_price").
    + cbn. tauto.
    + reflexivity.
    + intros k' [<- | [<- | [<- | [<- | []]]]]; eexists; reflexivity.
  - apply (proj1 (proj2 (additional_metrics_need_four_numbers
             (sample_token 2 10 40 8 [])))
             (NFloat (F64.of_Z 2)) (NFloat (F64.of_Z 8))
             (NFloat (F64.of_Z 10)) (NFloat (F64.of_Z 40)));
      try reflexivity; eexists; split; reflexivity.
Defined.

Lemma py_gt0_inv (v : pyval) (c : bool) :
  py_gt0 v = Ok c -> exists x, num_of v = Some x /\ c = gt0 x.
Proof.
  unfold py_gt0. destruct (num_of v) as [x |]; [| discriminate].
  intros [= <-]. eauto.
Qed.

(** What [calculate_metrics] has read when it returns: the token's name,
    numbers under ['current_price'] and ['market_cap'] and for the global
    volume in usd (a null under one of them makes it raise), and the 7-day
    change, of which momentum is the hundredth; momentum is 0 when the
    change is absent, null or zero. *)
Theorem calculate_metrics_returns (tok global_data : pyval) (m : metrics) :
  calculate_metrics tok global_data = Ok m ->
  getitem tok "name" = Ok (token m) /\
  (exists cp mc gv gtv,
     field_num tok "current_price" cp /\ field_num tok "market_cap" mc /\
     getitem global_data "total_volume" = Ok gtv /\ field_num gtv "usd" gv) /\
  match getitem tok price_change_key with
  | Ok v =>
      if truthy v
      then exists x, num_of v = Some x /\ momentum m = quotient x (NInt 100)
      else momentum m = F64.zero
  | Raise _ => momentum m = F64.zero
  end.
Proof.
  unfold calculate_metrics. intros H.
  apply res_bind_inv in H as (cp & Hcp & H).
  apply res_bind_inv in H as (c1 & Hc1 & H).
  apply res_bind_inv in H as (pvr0 & _ & H).
  apply res_bind_inv in H as (g & Hg & H). cbv zeta in H.
  apply res_bind_inv in H as (mc & Hmc & H).
  apply res_bind_inv in H as (c2 & Hc2 & H).
  apply res_bind_inv in H as (rvol0 & _ & H).
  apply res_bind_inv in H as (mom & Hmom & H).
  apply res_bind_inv in H as (gtv & Hgtv & H).
  apply res_bind_inv in H as (gvv & Hgv & H).
  apply res_bind_inv in H as (c3 & Hc3 & H).
  apply res_bind_inv in H as (vsi0 & _ & H).
  apply res_bind_inv in H as (name & Hname & H).
  injection H as <-. cbn [token momentum].
  apply py_gt0_inv in Hc1 as (xcp & Ncp & _).
  apply py_gt0_inv in Hc2 as (xmc & Nmc & _).
  apply py_gt0_inv in Hc3 as (xgv & Ngv & _).
  split; [exact Hname |]. split.
  { exists xcp, xmc, xgv, gtv. repeat split; try assumption; eexists; eauto. }
  destruct tok as [| | | | | | d]; try discriminate Hcp.
  unfold dict_get in Hg. unfold getitem. fold price_change_key in Hg.
  destruct (assoc price_change_key d) as [v |].
  - injection Hg as <-. destruct (truthy v).
    + unfold py_truediv in Hmom. destruct (num_of v) as [x |]; [| discriminate].
      cbn [num_of] in Hmom. apply truediv_returns in Hmom. now exists x.
    + vm_compute in Hmom. now injection Hmom as <-.
  - injection Hg as <-. vm_compute in Hmom. now injection Hmom as <-.
Qed.

Lemma calculate_metrics_returns_witness :
  exists m,
    calculate_metrics
      (sample_token 2 10 40 8 [(price_change_key, PNum (F64.of_Z 50))])
      (sample_global 100) = Ok m /\
    exists x, Some (NFloat (F64.of_Z 50)) = Some x /\
              momentum m = quotient x (NInt 100).
Proof.
  eexists. split; [vm_compute; reflexivity |].
  apply (calculate_metrics_returns
           (sample_token 2 10 40 8 [(price_change_key, PNum (F64.of_Z 50))])
           (sample_global 100)).
  vm_compute. reflexivity.
Defined.

(** ** The order of binary64 values *)

Lemma compare_antisym (x y : float) :
  SFcompare y x
  = match SFcompare x y with Some c => Some (CompOpp c) | None => None end.
Proof.
  destruct x as [s1 | s1 | | s1 m1 e1], y as [s2 | s2 | | s2 m2 e2];
    try destruct s1; try destruct s2; try reflexivity; cbn [SFcompare];
    rewrite (Z.compare_antisym e1 e2); f_equal.
  - destruct (e1 ?= e2); cbn [CompOpp]; try reflexivity.
    now rewrite Pos.compare_cont_antisym, CompOpp_involutive.
  - destruct (e1 ?= e2); cbn [CompOpp]; try reflexivity.
    now rewrite Pos.compare_cont_antisym.
Qed.

Lemma leb_total (x y : float) :
  F64.is_nan x = false -> F64.is_nan y = false ->
  F64.leb x y = true \/ F64.leb y x = true.
Proof.
  intros Hx Hy. unfold F64.leb, SFleb. rewrite (compare_antisym x y).
  destruct (SFcompare x y) as [[] |] eqn:E; cbn; auto.
  destruct x, y; try discriminate; cbn in E;
    repeat match goal with s : bool |- _ => destruct s end; discriminate.
Qed.

Lemma leb_not_ltb (x y : float) : F64.leb y x = true -> F64.ltb x y = false.
Proof.
  unfold F64.leb, F64.ltb, SFleb, SFltb. rewrite (compare_antisym x y).
  destruct (SFcompare x y) as [[] |]; cbn; congruence.
Qed.

Lemma leb_not_nan (x y : float) :
  F64.leb x y = true -> F64.is_nan x = false /\ F64.is_nan y = false.
Proof. destruct x, y; try discriminate; auto. Qed.

(** Magnitudes of finite numbers: by exponent, then by mantissa. *)
Lemma magnitude_le (e1 e2 : Z) (m1 m2 : positive) :
  let c := match e1 ?= e2 with
           | Lt => Lt
           | Gt => Gt
           | Eq => Pos.compare_cont Eq m1 m2
           end in
  (c <> Gt <-> e1 < e2 \/ (e1 = e2 /\ (m1 <= m2)%positive)) /\
  (c <> Lt <-> e2 < e1 \/ (e1 = e2 /\ (m2 <= m1)%positive)).
Proof.
  cbv zeta. change (Pos.compare_cont Eq m1 m2) with (Pos.compare m1 m2).
  destruct (Z.compare_spec e1 e2) as [He | He | He];
    [destruct (Pos.compare_spec m1 m2) as [Hm | Hm | Hm] | |];
    split; split; intros H; try congruence; try lia; try discriminate.
Qed.

Lemma leb_finite (s1 s2 : bool) (m1 m2 : positive) (e1 e2 : Z) :
  F64.leb (S754_finite s1 m1 e1) (S754_finite s2 m2 e2) = true <->
  match s1, s2 with
  | true, false => True
  | false, true => False
  | false, false => e1 < e2 \/ (e1 = e2 /\ (m1 <= m2)%positive)
  | true, true => e2 < e1 \/ (e1 = e2 /\ (m2 <= m1)%positive)
  end.
Proof.
  pose proof (magnitude_le e1 e2 m1 m2) as [Hle Hge]. cbv zeta in Hle, Hge.
  unfold F64.leb, SFleb. cbn [SFcompare].
  destruct s1, s2; try (split; [auto | reflexivity]); try (split; [discriminate | tauto]).
  - rewrite <- Hge.
    destruct (e1 ?= e2); cbn; try (split; congruence).
    destruct (Pos.compare_cont Eq m1 m2); cbn; split; congruence.
  - rewrite <- Hle.
    destruct (e1 ?= e2); cbn; try (split; congruence).
    destruct (Pos.compare_cont Eq m1 m2); cbn; split; congruence.
Qed.

Lemma leb_trans (x y z : float) :
  F64.leb x y = true -> F64.leb y z = true -> F64.leb x z = true.
Proof.
  destruct x as [s1 | s1 | | s1 m1 e1], y as [s2 | s2 | | s2 m2 e2],
    z as [s3 | s3 | | s3 m3 e3];
    try (rewrite !leb_finite; destruct s1, s2, s3; intros; try tauto; lia);
    try destruct s1; try destruct s2; try destruct s3;
    try reflexivity; try discriminate; intros H1 H2;
    try discriminate H1; try discriminate H2;
    try (apply leb_finite in H1; contradiction);
    try (apply leb_finite in H2; contradiction).
Qed.

(** ** The three lists of thirty in [visualize_additional_metrics] *)

Section FloatKeys.
Context {A : Type} (key : A -> float).

Lemma descending_total (a b : A) :
  descending key a b = true \/ descending key b a = true.
Proof.
  unfold descending.
  destruct (F64.is_nan (key b)) eqn:Hb; [now left |].
  destruct (F64.is_nan (key a)) eqn:Ha; [now right |].
  destruct (leb_total (key a) (key b) Ha Hb); auto.
Qed.

Lemma descending_trans (a b c : A) :
  descending key a b = true -> descending key b c = true ->
  descending key a c = true.
Proof.
  unfold descending.
  destruct (F64.is_nan (key c)) eqn:Hc; [reflexivity |].
  destruct (F64.is_nan (key b)) eqn:Hb; [discriminate |].
  destruct (F64.is_nan (key a)) eqn:Ha; [discriminate |].
  intros Hab Hbc. eapply leb_trans; eassumption.
Qed.

Lemma ascending_total (a b : A) :
  ascending key a b = true \/ ascending key b a = true.
Proof.
  unfold ascending.
  destruct (F64.is_nan (key b)) eqn:Hb; [now left |].
  destruct (F64.is_nan (key a)) eqn:Ha; [now right |].
  destruct (leb_total (key a) (key b) Ha Hb); auto.
Qed.

Lemma ascending_trans (a b c : A) :
  ascending key a b = true -> ascending key b c = true ->
  ascending key a c = true.
Proof.
  unfold ascending.
  destruct (F64.is_nan (key c)) eqn:Hc; [reflexivity |].
  destruct (F64.is_nan (key b)) eqn:Hb; [discriminate |].
  destruct (F64.is_nan (key a)) eqn:Ha; [discriminate |].
  intros Hab Hbc. eapply leb_trans; eassumption.
Qed.

Lemma descending_spec (a b : A) :
  descending key a b = true ->
  F64.ltb (key a) (key b) = false /\
  (F64.is_nan (key a) = true -> F64.is_nan (key b) = true).
Proof.
  unfold descending.
  destruct (F64.is_nan (key b)) eqn:Hb.
  - intros _. split; [| reflexivity].
    destruct (key b); try discriminate. now destruct (key a).
  - destruct (F64.is_nan (key a)); [discriminate |].
    intros H. split; [now apply leb_not_ltb | discriminate].
Qed.

Lemma ascending_spec (a b : A) :
  ascending key a b = true ->
  F64.gtb (key a) (key b) = false /\
  (F64.is_nan (key a) = true -> F64.is_nan (key b) = true).
Proof.
  unfold ascending, F64.gtb.
  destruct (F64.is_nan (key b)) eqn:Hb.
  - intros _. split; [| reflexivity]. now destruct (key b).
  - destruct (F64.is_nan (key a)); [discriminate |].
    intros H. split; [now apply leb_not_ltb | discriminate].
Qed.

Context `{S : Sorter} `{L : Lowercase}.

(** The first thirty rows of a frame sorted by a float64 column, as
    [visualize_additional_metrics] takes them for Potential Gains and the
    7-day change (descending) and for the MC/Volume ratio (ascending): they
    are min(30, n) rows of the frame, no row left out has a larger (for the
    ratio: smaller) value than a row taken, and a row whose value is NaN is
    taken only if every row left out is NaN too. *)
Theorem first_thirty_by_float_column (l : list A) :
  (let sorted := sort_by (descending key) l in
   Permutation (take 30 sorted ++ drop 30 sorted) l /\
   length (take 30 sorted) = Nat.min 30 (length l) /\
   forall r r', In r (take 30 sorted) -> In r' (drop 30 sorted) ->
     F64.ltb (key r) (key r') = false /\
     (F64.is_nan (key r) = true -> F64.is_nan (key r') = true)) /\
  (let sorted := sort_by (ascending key) l in
   Permutation (take 30 sorted ++ drop 30 sorted) l /\
   length (take 30 sorted) = Nat.min 30 (length l) /\
   forall r r', In r (take 30 sorted) -> In r' (drop 30 sorted) ->
     F64.gtb (key r) (key r') = false /\
     (F64.is_nan (key r) = true -> F64.is_nan (key r') = true)).
Proof.
  split; cbv zeta.
  - split; [rewrite firstn_skipn; apply sort_by_perm |].
    split; [rewrite length_take; f_equal;
            apply Permutation_length, sort_by_perm |].
    intros r r' Hr Hr'. apply descending_spec.
    pose proof (sort_by_sorted (descending key) l
                  descending_total descending_trans) as Hs.
    rewrite <- (firstn_skipn 30 (sort_by _ l)) in Hs.
    apply (StronglySorted_app_1_elem_of _ _ _ _ _ Hs); now apply list_elem_of_In.
  - split; [rewrite firstn_skipn; apply sort_by_perm |].
    split; [rewrite length_take; f_equal;
            apply Permutation_length, sort_by_perm |].
    intros r r' Hr Hr'. apply ascending_spec.
    pose proof (sort_by_sorted (ascending key) l
                  ascending_total ascending_trans) as Hs.
    rewrite <- (firstn_skipn 30 (sort_by _ l)) in Hs.
    apply (StronglySorted_app_1_elem_of _ _ _ _ _ Hs); now apply list_elem_of_In.
Qed.

End FloatKeys.

(** ** The requests and the waiting of one run *)

Lemma requests_sent_app (d1 d2 : list event) :
  requests_sent (d1 ++ d2) = (requests_sent d1 + requests_sent d2)%nat.
Proof. unfold requests_sent. now rewrite List.filter_app, length_app. Qed.

Lemma seconds_slept_app (d1 d2 : list event) :
  seconds_slept (d1 ++ d2) = seconds_slept d1 + seconds_slept d2.
Proof.
  induction d1 as [| e d1 IH]; cbn; [reflexivity |].
  fold (seconds_slept (d1 ++ d2)) (seconds_slept d1). destruct e; lia.
Qed.

Lemma spends_weaken {A} (r r' : nat) (s s' : Z) (m : io A) :
  spends r s m -> (r <= r')%nat -> s <= s' -> spends r' s' m.
Proof.
  intros H Hr Hs net w. destruct (H net w) as (d & Hd & Hr' & Hs').
  exists d. repeat split; [assumption | lia | lia].
Qed.

Lemma spends_ret {A} (a : A) : spends 0 0 (mret a).
Proof. intros net w. exists []. cbn. rewrite app_nil_r. repeat split; lia. Qed.

Lemma spends_lift {A} (r : res A) : spends 0 0 (lift r).
Proof. intros net w. exists []. cbn. rewrite app_nil_r. repeat split; lia. Qed.

Lemma spends_emit (e : event) :
  requests_sent [e] = 0%nat -> seconds_slept [e] = 0 -> spends 0 0 (emit e).
Proof.
  intros Hr Hs net w. exists [e]. cbn [emit snd trace]. repeat split; lia.
Qed.

Lemma spends_sleep (secs : Z) : spends 0 secs (emit (TimeSleep secs)).
Proof.
  intros net w. exists [TimeSleep secs]. cbn [emit snd trace].
  repeat split; cbn; lia.
Qed.

Lemma spends_requests_get (url : string) (params : option (list (string * pyval))) :
  spends 1 0 (requests_get url params).
Proof.
  intros net w. eexists [_]. cbn [requests_get snd trace].
  split; [reflexivity |]. cbn. lia.
Qed.

Lemma spends_bind {A B} (r1 r2 : nat) (s1 s2 : Z) (m : io A) (f : A -> io B) :
  spends r1 s1 m -> (forall a, spends r2 s2 (f a)) -> 0 <= s2 ->
  spends (r1 + r2) (s1 + s2) (m ≫= f).
Proof.
  intros Hm Hf Hs net w. destruct (Hm net w) as (d1 & Hd1 & Hr1 & Hs1).
  unfold mbind, io_bind. destruct (m net w) as [[a | e] w1]; cbn [snd] in *.
  - destruct (Hf a net w1) as (d2 & Hd2 & Hr2 & Hs2).
    exists (d1 ++ d2). rewrite Hd2, Hd1, app_assoc.
    rewrite requests_sent_app, seconds_slept_app. repeat split; lia.
  - exists d1. repeat split; [assumption | lia | lia].
Qed.

Lemma spends_if {A} (c : bool) (r1 r2 : nat) (s1 s2 : Z) (m1 m2 : io A) :
  spends r1 s1 m1 -> spends r2 s2 m2 ->
  spends (Nat.max r1 r2) (Z.max s1 s2) (if c then m1 else m2).
Proof.
  intros H1 H2. destruct c; eapply spends_weaken; eauto; lia.
Qed.

Lemma spends_mapM {A B} (f : A -> io B) (l : list A) :
  (forall a, spends 0 0 (f a)) -> spends 0 0 (io_mapM f l).
Proof.
  intros Hf. induction l as [| a l IH]; cbn [io_mapM]; [apply spends_ret |].
  apply (spends_bind 0 0 0 0); [apply Hf | intros b | lia].
  apply (spends_bind 0 0 0 0); [apply IH | intros bs; apply spends_ret | lia].
Qed.

Create HintDb spends.

Ltac spends_step :=
  first
    [ progress cbv zeta
    | solve [auto with spends nocore]
    | match goal with
      | |- spends _ _ (mbind _ _) => eapply spends_bind; [| intros ? | ]
      end
    | apply spends_ret
    | apply spends_lift
    | apply spends_sleep
    | apply spends_emit; reflexivity
    | apply spends_requests_get
    | match goal with
      | |- spends _ _ (if _ then _ else _) => eapply spends_if
      | |- spends _ _ (io_mapM _ _) => apply spends_mapM; intros ?; cbv beta
      end
    | match goal with
      | |- spends _ _ (let '(_, _) := ?x in _) => destruct x
      end ].

Ltac spends_bound :=
  eapply spends_weaken; [repeat spends_step | ..]; cbn; lia.

Lemma fetch_spends (url : string) (params : option (list (string * pyval))) :
  spends 2 60 (fetch_with_rate_limit url params).
Proof. unfold fetch_with_rate_limit, response_json. spends_bound. Qed.

#[local] Hint Resolve fetch_spends : spends.

Lemma get_global_data_spends : spends 2 60 get_global_data.
Proof. unfold get_global_data. spends_bound. Qed.

Lemma get_top_tokens_spends `{L : Lowercase} (page : Z) : spends 2 60 (get_top_tokens page).
Proof. unfold get_top_tokens. spends_bound. Qed.

#[local] Hint Resolve get_global_data_spends get_top_tokens_spends : spends.

Section Budget.
Context `{S : Sorter} `{L : Lowercase}.

Lemma visualize_rankings_spends (ranked : list scored) :
  spends 0 0 (visualize_rankings ranked).
Proof. unfold visualize_rankings. spends_bound. Qed.

Lemma visualize_additional_metrics_spends (df : list additional)
    (ranked : list scored) :
  spends 0 0 (visualize_additional_metrics df ranked).
Proof. unfold visualize_additional_metrics, report. spends_bound. Qed.

Lemma calculate_metrics_turn_spends (global_data token : pyval) :
  spends 0 0 (_ ← emit (Call "calculate_metrics");
              lift (calculate_metrics token global_data)).
Proof. spends_bound. Qed.

Lemma additional_row_spends (token : pyval) : spends 0 0 (additional_row token).
Proof. unfold additional_row. spends_bound. Qed.

Lemma extend_if_spends (all_tokens : list pyval) (top_tokens : pyval) :
  spends 0 0 (extend_if all_tokens top_tokens).
Proof. unfold extend_if. spends_bound. Qed.

#[local] Hint Resolve visualize_rankings_spends
  visualize_additional_metrics_spends additional_row_spends
  extend_if_spends : spends.

Lemma rank_tier_spends (tier : Z) : spends 4 120 (rank_tier tier).
Proof. unfold rank_tier. spends_bound. Qed.

Lemma rank_all_tiers_spends : spends 8 240 rank_all_tiers.
Proof. unfold rank_all_tiers. spends_bound. Qed.

(** One click on a tier button sends at most four requests and sleeps at most
    120 seconds; a click on the button for all tiers sends at most eight
    requests and sleeps at most 240 seconds.  This holds whatever the API
    answers and whether or not the run raises. *)
Theorem requests_and_sleep_are_bounded (tier : Z) (net : network) (w : world) :
  (let d := events_since w (snd (rank_tier tier net w)) in
   (requests_sent d <= 4)%nat /\ seconds_slept d <= 120) /\
  (let d := events_since w (snd (rank_all_tiers net w)) in
   (requests_sent d <= 8)%nat /\ seconds_slept d <= 240).
Proof.
  cbv zeta. split.
  - destruct (rank_tier_spends tier net w) as (d & Hd & H).
    unfold events_since. now rewrite Hd, drop_app_length.
  - destruct (rank_all_tiers_spends net w) as (d & Hd & H).
    unfold events_since. now rewrite Hd, drop_app_length.
Qed.

End Budget.

(** ** TierOrchestrator: a token that cannot be scored *)

Lemma get_global_data_fetch_events : appends_only fetch_event get_global_data.
Proof. unfold get_global_data, fetch_with_rate_limit. repeat not_a_call_step. Qed.

Lemma get_top_tokens_fetch_events `{L : Lowercase} (page : Z) :
  appends_only fetch_event (get_top_tokens page).
Proof. unfold get_top_tokens, fetch_with_rate_limit. repeat not_a_call_step. Qed.

(** The scoring loop stops at the first token on which [calculate_metrics]
    raises. *)
Lemma scoring_loop_raises (g : pyval) (l : list pyval) (net : network)
    (w : world) :
  Exists (fun t => exists e, calculate_metrics t g = Raise e) l ->
  exists e pre t post,
    io_mapM (fun token => _ ← emit (Call "calculate_metrics");
                          lift (calculate_metrics token g)) l net w
    = (Raise e, {| requests_made := requests_made w;
                   trace := trace w ++ repeat (Call "calculate_metrics")
                                              (S (length pre)) |}) /\
    l = pre ++ t :: post /\
    Forall (fun t' => exists m, calculate_metrics t' g = Ok m) pre /\
    calculate_metrics t g = Raise e.
Proof.
  revert w. induction l as [| t l IH]; intros w Hex; [inversion Hex |].
  cbn [io_mapM]. unfold mbind at 1. unfold io_bind at 1.
  unfold mbind at 1. unfold io_bind at 1. cbn [emit lift].
  destruct (calculate_metrics t g) as [m | e] eqn:Ht.
  - assert (Hl : Exists (fun t => exists e, calculate_metrics t g = Raise e) l).
    { inversion Hex as [? ? [e He] | ]; subst; [congruence | assumption]. }
    destruct (IH {| requests_made := requests_made w;
                    trace := trace w ++ [Call "calculate_metrics"] |} Hl)
      as (e & pre & t' & post & Hrun & -> & Hpre & He).
    exists e, (t :: pre), t', post.
    unfold mbind at 1. unfold io_bind at 1. rewrite Hrun.
    cbn [requests_made trace repeat length].
    rewrite <- app_assoc. split; [reflexivity |].
    split; [reflexivity |]. split; [| exact He].
    constructor; [now exists m | exact Hpre].
  - exists e, [], t, l. split; [reflexivity |].
    split; [reflexivity |]. split; [constructor | exact Ht].
Qed.

Section UnreadableToken.
Context `{sorter : Sorter} `{L : Lowercase}.

(** When [calculate_metrics] raises on a token of the page, [rank_tier]
    raises what it raises on the first such token.  The run has written the
    header of the tier and nothing else: after the two fetches the trace
    ends with the entries into [calculate_metrics], one for each token up to
    the one that cannot be scored. *)
Theorem rank_tier_stops_at_unreadable_token (tier_number : Z) (net : network)
    (w : world) (g : pyval) (l : list pyval) :
  fst (get_global_data net w) = Ok g -> truthy g = true ->
  fst (get_top_tokens tier_number net (snd (get_global_data net w)))
  = Ok (PList l) ->
  Exists (fun t => exists e, calculate_metrics t g = Raise e) l ->
  exists e w' d pre t post,
    rank_tier tier_number net w = (Raise e, w') /\
    l = pre ++ t :: post /\
    Forall (fun t' => exists m, calculate_metrics t' g = Ok m) pre /\
    calculate_metrics t g = Raise e /\
    trace w'
    = trace w
      ++ StWrite (Text ("### Ranking Tier " +:+ pretty tier_number
                        +:+ " (Tokens " +:+ pretty (tier_number * 1000 - 999)
                        +:+ " to " +:+ pretty (tier_number * 1000) +:+ ")"))
         :: d ++ repeat (Call "calculate_metrics") (S (length pre)) /\
    Forall fetch_event d.
Proof.
  intros Hg Hgt Ht Hex.
  destruct (appends_only_at fetch_event get_global_data net (requests_made w)
              get_global_data_fetch_events) as (a & n1 & d1 & Hd1 & Hrun1).
  rewrite (Hrun1 w eq_refl) in Hg, Ht. cbn [fst snd] in Hg, Ht. subst a.
  destruct (appends_only_at fetch_event (get_top_tokens tier_number) net n1
              (get_top_tokens_fetch_events tier_number))
    as (b & n2 & d2 & Hd2 & Hrun2).
  rewrite (Hrun2 {| requests_made := n1; trace := trace w ++ d1 |} eq_refl)
    in Ht.
  cbn [fst] in Ht. subst b.
  set (header := StWrite (Text ("### Ranking Tier " +:+ pretty tier_number
                           +:+ " (Tokens " +:+ pretty (tier_number * 1000 - 999)
                           +:+ " to " +:+ pretty (tier_number * 1000) +:+ ")"))).
  destruct (scoring_loop_raises g l net
              {| requests_made := n2;
                 trace := ((trace w ++ [header]) ++ d1) ++ d2 |} Hex)
    as (e & pre & t & post & Hloop & Hl & Hpre & He).
  assert (Htl : truthy (PList l) = true).
  { destruct l; [inversion Hex | reflexivity]. }
  exists e, {| requests_made := n2;
               trace := trace w ++ header :: (d1 ++ d2)
                          ++ repeat (Call "calculate_metrics") (S (length pre)) |},
         (d1 ++ d2), pre, t, post.
  split; [| split; [exact Hl | split; [exact Hpre | split; [exact He |
            split; [reflexivity |]]]]].
  - unfold rank_tier. fold header.
    unfold mbind at 1. unfold io_bind at 1. cbn [emit].
    unfold mbind at 1. unfold io_bind at 1.
    rewrite (Hrun1 {| requests_made := requests_made w;
                      trace := trace w ++ [header] |} eq_refl).
    rewrite Hgt. cbv beta iota.
    unfold mbind at 1. unfold io_bind at 1. cbn [trace requests_made].
    rewrite (Hrun2 {| requests_made := n1;
                      trace := (trace w ++ [header]) ++ d1 |} eq_refl).
    rewrite Htl. cbv beta iota.
    unfold mbind at 1. unfold io_bind at 1. cbn [lift py_iter].
    unfold mbind at 1. unfold io_bind at 1. cbn [trace requests_made].
    rewrite Hloop. cbn [requests_made trace].
    rewrite <- !app_assoc. reflexivity.
  - apply Forall_app. now split.
Qed.

End UnreadableToken.

Lemma rank_tier_stops_at_unreadable_token_witness :
  exists e w' d pre t post,
    rank_tier (S := insertion_sorter) (L := ascii_lowercase) 2
      (sample_network [listed_token "Bitcoin" "btc" 7 5 9 8;
                       unpriced_token "Ghost" "gho";
                       listed_token "Ether" "eth" 3 6 9 4])
      world0 = (Raise e, w') /\
    [listed_token "Bitcoin" "btc" 7 5 9 8;
     unpriced_token "Ghost" "gho";
     listed_token "Ether" "eth" 3 6 9 4] = pre ++ t :: post /\
    Forall (fun t' => exists m, calculate_metrics t' (sample_global 100) = Ok m)
           pre /\
    calculate_metrics t (sample_global 100) = Raise e /\
    trace w'
    = trace world0
      ++ StWrite (Text "### Ranking Tier 2 (Tokens 1001 to 2000)")
         :: d ++ repeat (Call "calculate_metrics") (S (length pre)) /\
    Forall fetch_event d.
Proof.
  apply (rank_tier_stops_at_unreadable_token (sorter := insertion_sorter) (L := ascii_lowercase) 2
           (sample_network [listed_token "Bitcoin" "btc" 7 5 9 8;
                            unpriced_token "Ghost" "gho";
                            listed_token "Ether" "eth" 3 6 9 4])
           world0 (sample_global 100)
           [listed_token "Bitcoin" "btc" 7 5 9 8;
            unpriced_token "Ghost" "gho";
            listed_token "Ether" "eth" 3 6 9 4]).
  - vm_compute. reflexivity.
  - reflexivity.
  - vm_compute. reflexivity.
  - apply Exists_cons_tl, Exists_cons_hd. eexists. vm_compute. reflexivity.
Defined.

(** ** ChartRenderer: the bar chart of final scores *)

(** A sorted list is the only sorted reordering of itself that keeps rows
    with equal keys in their order. *)
Lemma stable_sorted_fixed {A} (le : A -> A -> bool) (l l' : list A) :
  (forall x y, le x y = true \/ le y x = true) ->
  StronglySorted (fun x y => le x y = true) l ->
  StronglySorted (fun x y => le x y = true) l' ->
  Permutation l' l ->
  (forall x, List.filter (fun y => le x y && le y x) l'
             = List.filter (fun y => le x y && le y x) l) ->
  l' = l.
Proof.
  intros Htotal. revert l'.
  induction l as [| a t IH]; intros l' Hl Hl' Hperm Hties.
  - symmetry in Hperm. now apply Permutation_nil in Hperm.
  - destruct l' as [| b t'].
    { now apply Permutation_nil in Hperm. }
    apply StronglySorted_inv in Hl as [Ht Ha].
    apply StronglySorted_inv in Hl' as [Ht' Hb].
    rewrite List.Forall_forall in Ha, Hb.
    assert (Hrefl : le a a = true) by (destruct (Htotal a a); assumption).
    assert (Hab : le a b = true).
    { assert (Hin : In b (a :: t))
        by (eapply Permutation_in; [exact Hperm | now left]).
      destruct Hin as [<- | Hin]; [exact Hrefl | now apply Ha]. }
    assert (Hba : le b a = true).
    { assert (Hin : In a (b :: t'))
        by (eapply Permutation_in; [symmetry; exact Hperm | now left]).
      destruct Hin as [<- | Hin]; [exact Hrefl | now apply Hb]. }
    pose proof (Hties a) as Ha0. cbn [List.filter] in Ha0.
    rewrite Hab, Hba, Hrefl in Ha0. cbn [andb] in Ha0.
    injection Ha0 as -> _. f_equal.
    apply IH; try assumption.
    + now apply Permutation_cons_inv in Hperm.
    + intros x. pose proof (Hties x) as Hx. cbn [List.filter] in Hx.
      destruct (le x a && le a x); [now injection Hx | exact Hx].
Qed.

Section FinalScoreChart.
Context `{S : Sorter} `{L : Lowercase}.

(** [visualize_rankings] sorts the ranked table once more before it draws
    it.  On the table [rank_tokens] returns, the chart has the rows of the
    table, and when the sorting algorithm is a stable one it has them in the
    order of the table. *)
Theorem final_score_chart_follows_table `{!StableSorter S}
    (batch : list metrics) (ranked : list scored) (net : network) (w : world) :
  rank_tokens batch = Ok ranked ->
  visualize_rankings ranked net w
  = (Ok tt,
     {| requests_made := requests_made w;
        trace := trace w
                 ++ [StWrite (Text "### Visualization of Top 30 Ranked Tokens");
                     StPyplot final_score_chart
                              (map (fun r => token (row r)) ranked)] |}).
Proof.
  intros Hranked.
  assert (Hfixed : sort_by by_final_score_desc ranked = ranked).
  { apply (stable_sorted_fixed by_final_score_desc).
    - apply by_final_score_desc_total.
    - destruct batch as [| m batch]; [discriminate |].
      injection Hranked as <-.
      pose proof (sort_by_sorted by_final_score_desc (score_frame (m :: batch))
                    by_final_score_desc_total by_final_score_desc_trans) as Hs.
      rewrite <- (firstn_skipn 30 (sort_by _ _)) in Hs.
      now apply StronglySorted_app_1_l in Hs.
    - apply sort_by_sorted.
      + apply by_final_score_desc_total.
      + apply by_final_score_desc_trans.
    - apply sort_by_perm.
    - intros x. apply sort_by_stable. apply by_final_score_desc_trans. }
  unfold visualize_rankings, emit, mbind, io_bind. cbn [requests_made trace].
  rewrite Hfixed, <- app_assoc. reflexivity.
Qed.

End FinalScoreChart.

Lemma final_score_chart_follows_table_witness :
  exists ranked,
    rank_tokens (S := insertion_sorter)
      [metrics_of "a" 1 1 1 1; metrics_of "b" 1 1 1 1; metrics_of "c" 0 2 0 2]
    = Ok ranked /\
    visualize_rankings (S := insertion_sorter) ranked (always (ok_response PNone))
      world0
    = (Ok tt,
       {| requests_made := 0;
          trace := [StWrite (Text "### Visualization of Top 30 Ranked Tokens");
                    StPyplot final_score_chart
                             (map (fun r => token (row r)) ranked)] |}).
Proof.
  eexists. split; [reflexivity |].
  apply (final_score_chart_follows_table (S := insertion_sorter)
           [metrics_of "a" 1 1 1 1; metrics_of "b" 1 1 1 1;
            metrics_of "c" 0 2 0 2]
           _ (always (ok_response PNone)) world0).
  reflexivity.
Defined.
